(** * rpi_rt_test: time arithmetic, latency statistics, histogram,
      real-time configuration and the periodic loop

    Shallow embedding of [src/rt_utils.h] and [src/rt_tuto.cpp].

    Data model (LP64 Linux, the 64-bit Raspberry Pi OS target):
    - [uint64_t], [size_t]: a [Z] reduced modulo [2^64];
    - [long], [time_t]: a [Z] in [-2^63, 2^63); a signed operation that
      leaves the range is undefined in C++ and is given its
      two's-complement result here, and every exactness statement below
      carries the hypotheses that keep it in range;
    - [int]: a [Z] in [-2^31, 2^31), in the same way;
    - [double]: IEEE-754 binary64 with rounding to nearest, ties to even,
      as the Standard Library's [spec_float] with [prec = 53] and
      [emax = 1024];
    - [std::vector<T>]: [list T]; a function that changes a vector passed
      by reference returns the new vector;
    - system calls and the clock: transitions of an explicit state.

    Part I is the model, Part II the properties. *)

From Stdlib Require Import ZArith List Lia Bool Strings.String.
From Stdlib Require Import Floats.SpecFloat.
From stdpp Require Import base list sorting.
From Equations Require Import Equations.
Import ListNotations.

Local Open Scope Z_scope.

(** * Part I: the model *)

(** ** Fixed-width integers *)

Module MachineInt.

Definition UINT64_MAX : Z := 18446744073709551615.
Definition LONG_MAX : Z := 9223372036854775807.
Definition LONG_MIN : Z := -9223372036854775808.
Definition INT_MAX : Z := 2147483647.
Definition INT_MIN : Z := -2147483648.

(** [static_cast<uint64_t>(z)] and the result of every [uint64_t]
    operation: reduction modulo [2^64]. *)
Definition to_uint64 (z : Z) : Z := z mod 2 ^ 64.

(** [static_cast<long>(z)] and the two's-complement result of a [long]
    operation. *)
Definition to_long (z : Z) : Z := (z + 2 ^ 63) mod 2 ^ 64 - 2 ^ 63.

(** [static_cast<int>(z)] and the two's-complement result of an [int]
    operation. *)
Definition to_int (z : Z) : Z := (z + 2 ^ 31) mod 2 ^ 32 - 2 ^ 31.

Definition is_uint64 (z : Z) : Prop := 0 <= z <= UINT64_MAX.
Definition is_long (z : Z) : Prop := LONG_MIN <= z <= LONG_MAX.
Definition is_int (z : Z) : Prop := INT_MIN <= z <= INT_MAX.

End MachineInt.
Import MachineInt.

(** ** IEEE-754 binary64 *)

Module Double.

Definition prec : Z := 53.
Definition emax : Z := 1024.

Definition double : Type := spec_float.

Definition dadd : double -> double -> double := SFadd prec emax.
Definition dsub : double -> double -> double := SFsub prec emax.
Definition dmul : double -> double -> double := SFmul prec emax.
Definition ddiv : double -> double -> double := SFdiv prec emax.
Definition dsqrt : double -> double := SFsqrt prec emax.
Definition dleb : double -> double -> bool := SFleb.
Definition dltb : double -> double -> bool := SFltb.

(** The literal [0.0]. *)
Definition dzero : double := S754_zero false.

(** [static_cast<double>(z)] for an integer [z], and integer-valued
    literals such as [100.0]: rounding to nearest, ties to even. *)
Definition of_Z (z : Z) : double := binary_normalize prec emax z 0 false.

(** A value of type [double]: a canonical binary64 datum. *)
Definition is_double (d : double) : Prop := valid_binary prec emax d = true.

(** [static_cast<size_t>(d)]: truncation toward zero.  The conversion is
    undefined ([None]) when the truncated value is not a [size_t], and for
    infinities and NaN. *)
Definition to_size_t (d : double) : option Z :=
  match d with
  | S754_zero _ => Some 0
  | S754_finite s m e =>
      let t := if 0 <=? e then Z.pos m * 2 ^ e else Z.pos m / 2 ^ (- e) in
      if s then (if t =? 0 then Some 0 else None)
      else if t <=? UINT64_MAX then Some t else None
  | _ => None
  end.

(** [m * 2^e <= c] and [m * 2^e < c] for integers [m], [e], [c], without
    leaving the integers. *)
Definition val_le (m e c : Z) : Prop :=
  m * 2 ^ Z.max 0 e <= c * 2 ^ Z.max 0 (- e).

Definition val_lt (m e c : Z) : Prop :=
  m * 2 ^ Z.max 0 e < c * 2 ^ Z.max 0 (- e).

End Double.
Import Double.

(** ** rt_utils.h: time manipulation *)

Module Time.

(** [struct timespec]. *)
Record timespec : Type := mk_timespec { tv_sec : Z; tv_nsec : Z }.

Definition NSEC_PER_SEC : Z := 1000000000.

(** The absolute instant a timespec stands for, in nanoseconds, as an
    unbounded integer. *)
Definition instant_ns (ts : timespec) : Z :=
  tv_sec ts * NSEC_PER_SEC + tv_nsec ts.

(** [end] is strictly after [start]. *)
Definition strictly_after (end_ start : timespec) : Prop :=
  instant_ns start < instant_ns end_.

(** The sub-second component is normalised. *)
Definition nsec_ok (ts : timespec) : Prop := 0 <= tv_nsec ts < NSEC_PER_SEC.

(** The instant is a nanosecond count that a [uint64_t] holds: a
    non-negative [tv_sec] below about 584 years. *)
Definition fits_uint64 (ts : timespec) : Prop :=
  0 <= tv_sec ts /\ instant_ns ts <= UINT64_MAX.

(** The 64-bit nanosecond count of lines 82-85:
    [static_cast<uint64_t>(tv_sec) * 1000000000ULL
     + static_cast<uint64_t>(tv_nsec)]. *)
Definition total_ns (ts : timespec) : Z :=
  to_uint64 (to_uint64 (to_uint64 (tv_sec ts) * 1000000000)
             + to_uint64 (tv_nsec ts)).

(** [timespec_diff_ns] (rt_utils.h, lines 78-89). *)
Definition timespec_diff_ns (start end_ : timespec) : Z :=
  let start_ns := total_ns start in
  let end_ns := total_ns end_ in
  if end_ns >? start_ns then to_uint64 (end_ns - start_ns) else 0.

(** The [while] loop of [timespec_add_us] (lines 104-107).  Each turn
    takes [10^9] off a [tv_nsec] that is at least [10^9], so the
    subtraction stays in range; the increment of [tv_sec] is a [time_t]
    addition.  The number of turns left, [tv_nsec / 10^9], decreases. *)
Equations? carry_loop (ts : timespec) : timespec
  by wf (Z.to_nat (tv_nsec ts / 1000000000)) lt :=
  carry_loop ts with Z_le_gt_dec 1000000000 (tv_nsec ts) => {
    | left _ := carry_loop {| tv_sec := to_long (tv_sec ts + 1);
                              tv_nsec := tv_nsec ts - 1000000000 |};
    | right _ := ts }.
Proof.
  cbn [tv_nsec].
  replace (tv_nsec ts - 1000000000) with (tv_nsec ts + (-1) * 1000000000)
    by lia.
  rewrite Z.div_add by lia.
  assert (1 <= tv_nsec ts / 1000000000)
    by (apply Z.div_le_lower_bound; lia).
  lia.
Qed.

(** [timespec_add_us] (rt_utils.h, lines 99-108); the timespec passed by
    reference is returned. *)
Definition timespec_add_us (ts : timespec) (us : Z) : timespec :=
  carry_loop {| tv_sec := tv_sec ts;
                tv_nsec := to_long (tv_nsec ts
                                    + to_long (to_uint64 (us * 1000))) |}.

End Time.
Import Time.

(** ** rt_utils.h: statistics *)

Module Stats.

(** [struct LatencyStats]. *)
Record LatencyStats : Type := mk_stats {
  min_ns : Z;
  max_ns : Z;
  avg_ns : double;
  stddev_ns : double
}.

(** [*std::min_element(begin, end)] and [*std::max_element(begin, end)] on
    a vector; both callers test [empty()] first. *)
Definition min_element (l : list Z) : Z :=
  match l with
  | [] => 0
  | x :: xs => fold_left Z.min xs x
  end.

Definition max_element (l : list Z) : Z :=
  match l with
  | [] => 0
  | x :: xs => fold_left Z.max xs x
  end.

(** The first loop (lines 171-174): a [uint64_t] accumulator. *)
Definition sum_u64 (latencies : list Z) : Z :=
  fold_left (fun sum lat => to_uint64 (sum + lat)) latencies 0.

(** The second loop (lines 179-183): squared deviations from [avg],
    accumulated in a [double] from [0.0], in vector order. *)
Definition sum_sq_dev (avg : double) (latencies : list Z) : double :=
  fold_left (fun variance lat =>
               let diff := dsub (of_Z lat) avg in
               dadd variance (dmul diff diff))
            latencies dzero.

(** [calculate_stats] (rt_utils.h, lines 154-188). *)
Definition calculate_stats (latencies : list Z) : LatencyStats :=
  match latencies with
  | [] => {| min_ns := 0; max_ns := 0; avg_ns := dzero; stddev_ns := dzero |}
  | _ :: _ =>
      let size := of_Z (Z.of_nat (length latencies)) in
      let avg := ddiv (of_Z (sum_u64 latencies)) size in
      let variance := ddiv (sum_sq_dev avg latencies) size in
      {| min_ns := min_element latencies;
         max_ns := max_element latencies;
         avg_ns := avg;
         stddev_ns := dsqrt variance |}
  end.

(** [std::sort(begin, end)] on [uint64_t]: the ascending rearrangement. *)
Definition sort (l : list Z) : list Z := merge_sort Z.le l.

(** The index of lines 213-215, for a vector of [count] elements:
    [static_cast<size_t>((percentile / 100.0)
                         * static_cast<double>(size() - 1))]. *)
Definition percentile_index (count : Z) (percentile : double) : option Z :=
  to_size_t (dmul (ddiv percentile (of_Z 100))
                  (of_Z (to_uint64 (count - 1)))).

(** [calculate_percentile] (rt_utils.h, lines 203-218).  The vector is
    sorted in place: the result carries the caller's vector after the call.
    [None] stands for undefined behaviour (an index conversion or an
    element access out of range). *)
Definition calculate_percentile (latencies : list Z) (percentile : double)
  : option (Z * list Z) :=
  match latencies with
  | [] => Some (0, [])
  | _ :: _ =>
      let sorted := sort latencies in
      index ← percentile_index (Z.of_nat (length sorted)) percentile;
      value ← sorted !! Z.to_nat index;
      Some (value, sorted)
  end.

(** Exact-arithmetic reading of the index formula,
    [floor((p/100) * (count - 1))], for a percentile given as the integer
    [p]. *)
Definition exact_index (count p : Z) : Z := (p * (count - 1)) / 100.

End Stats.
Import Stats.

(** ** rt_utils.h: histogram *)

Module Histogram.

(** What [print_histogram] writes: the "no data" line, the "all latencies
    identical" line with the common value in microseconds, or the bars, of
    which the model keeps the bin width and the bin counts. *)
Inductive histogram_output : Type :=
| NoData
| AllIdentical (value_us : Z)
| Bars (bin_width : Z) (bins : list Z).

(** Lines 264-266. *)
Definition bin_width_of (min_lat max_lat num_bins : Z) : Z :=
  let range := to_uint64 (max_lat - min_lat) in
  let bin_width := range / to_uint64 num_bins in
  if bin_width =? 0 then 1 else bin_width.

(** Lines 272-275: the bin of one sample. *)
Definition bin_index (lat min_lat bin_width num_bins : Z) : Z :=
  let bin_index := to_int (to_uint64 (lat - min_lat) / bin_width) in
  let bin_index := if bin_index >=? num_bins then to_int (num_bins - 1)
                   else bin_index in
  if bin_index <? 0 then 0 else bin_index.

(** Line 276, [bins[bin_index]++], on a [std::vector<int>]. *)
Definition increment (bins : list Z) (i : Z) : list Z :=
  alter (fun c => to_int (c + 1)) (Z.to_nat i) bins.

(** Lines 269-277. *)
Definition count_bins (latencies : list Z) (min_lat bin_width num_bins : Z)
  : list Z :=
  fold_left (fun bins lat =>
               increment bins (bin_index lat min_lat bin_width num_bins))
            latencies (replicate (Z.to_nat num_bins) 0).

(** [print_histogram] (rt_utils.h, lines 245-326), up to the bin counts.
    A bin count that is not positive reaches a division by zero or a
    vector of negative size: [None]. *)
Definition print_histogram (latencies : list Z) (num_bins : Z)
  : option histogram_output :=
  match latencies with
  | [] => Some NoData
  | _ :: _ =>
      let min_lat := min_element latencies in
      let max_lat := max_element latencies in
      if min_lat =? max_lat then Some (AllIdentical (min_lat / 1000))
      else if num_bins <=? 0 then None
      else
        let bin_width := bin_width_of min_lat max_lat num_bins in
        Some (Bars bin_width
                   (count_bins latencies min_lat bin_width num_bins))
  end.

(** The bin the call [print_histogram latencies num_bins] gives to the
    sample [lat]. *)
Definition assigned_bin (latencies : list Z) (num_bins lat : Z) : Z :=
  let min_lat := min_element latencies in
  bin_index lat min_lat
            (bin_width_of min_lat (max_element latencies) num_bins) num_bins.

(** The formula of the specification:
    [clamp((sample - min) / bin_width, 0, N - 1)] with
    [bin_width = max(1, (max - min) / N)]. *)
Definition clamp (x lo hi : Z) : Z := Z.max lo (Z.min x hi).

Definition spec_bin (latencies : list Z) (num_bins lat : Z) : Z :=
  let min_lat := min_element latencies in
  let bin_width := Z.max 1 ((max_element latencies - min_lat) / num_bins) in
  clamp ((lat - min_lat) / bin_width) 0 (num_bins - 1).

(** Sum of a vector of counts. *)
Definition sum_counts (bins : list Z) : Z := fold_right Z.add 0 bins.

(** How many samples the call gives to bin [i]. *)
Definition samples_in_bin (latencies : list Z) (num_bins i : Z) : Z :=
  Z.of_nat (length (filter (fun lat => assigned_bin latencies num_bins lat = i)
                           latencies)).

End Histogram.
Import Histogram.

(** ** rt_tuto.cpp: real-time configuration *)

Module RtContext.

Definition RT_PRIORITY : Z := 80.
Definition RT_CPU : Z := 2.

Inductive sched_policy : Type := SCHED_OTHER | SCHED_FIFO.

(** The system calls of the program. *)
Inductive syscall : Type :=
| Mlockall
| Munlockall
| SchedSetscheduler (policy : sched_policy) (priority : Z)
| SetAffinity (cpu : Z).

(** What the program reports on its output streams. *)
Inductive report : Type :=
| ErrMlockall
| OkMemoryLocked
| ErrSchedSetscheduler
| OkSchedFifo
| WarnAffinity
| OkAffinity
| ErrConfiguration
| ErrUnknownOption
| UsageText.

Inductive event : Type :=
| Sys (c : syscall)
| Stderr (r : report)
| Stdout (r : report)
| RunPeriodicTask
| DisplayResults.

(** Which requests the kernel grants to this process. *)
Record kernel : Type := mk_kernel {
  grants_mlockall : bool;
  grants_sched : sched_policy -> bool;
  grants_affinity : bool
}.

(** The attributes of the calling process that the program changes, and
    the trace of what it did, oldest event first. *)
Record process : Type := mk_process {
  memory_locked : bool;
  policy : sched_policy * Z;
  affinity : option Z;
  trace : list event
}.

(** Computations that change the process. *)
Definition OS (A : Type) : Type := process -> A * process.

#[local] Instance OS_ret : MRet OS := fun A (a : A) p => (a, p).
#[local] Instance OS_bind : MBind OS :=
  fun A B (f : A -> OS B) (m : OS A) p => let (a, p') := m p in f a p'.

Definition record (e : event) (p : process) : process :=
  {| memory_locked := memory_locked p; policy := policy p;
     affinity := affinity p; trace := trace p ++ [e] |}.

Definition emit (e : event) : OS unit := fun p => (tt, record e p).

(** System calls return [0] on success and [-1] on failure. *)
Definition mlockall (k : kernel) : OS Z :=
  fun p =>
    let p := record (Sys Mlockall) p in
    if grants_mlockall k
    then (0, {| memory_locked := true; policy := policy p;
                affinity := affinity p; trace := trace p |})
    else (-1, p).

Definition munlockall : OS Z :=
  fun p =>
    let p := record (Sys Munlockall) p in
    (0, {| memory_locked := false; policy := policy p;
           affinity := affinity p; trace := trace p |}).

Definition sched_setscheduler (k : kernel) (pol : sched_policy) (prio : Z)
  : OS Z :=
  fun p =>
    let p := record (Sys (SchedSetscheduler pol prio)) p in
    if grants_sched k pol
    then (0, {| memory_locked := memory_locked p; policy := (pol, prio);
                affinity := affinity p; trace := trace p |})
    else (-1, p).

Definition pthread_setaffinity_np (k : kernel) (cpu : Z) : OS Z :=
  fun p =>
    let p := record (Sys (SetAffinity cpu)) p in
    if grants_affinity k
    then (0, {| memory_locked := memory_locked p; policy := policy p;
                affinity := Some cpu; trace := trace p |})
    else (-1, p).

(** [configure_realtime] (rt_tuto.cpp, lines 127-262). *)
Definition configure_realtime (k : kernel) : OS bool :=
  r1 ← mlockall k;
  if negb (r1 =? 0) then
    emit (Stderr ErrMlockall);;
    mret false
  else
    emit (Stdout OkMemoryLocked);;
    r2 ← sched_setscheduler k SCHED_FIFO RT_PRIORITY;
    if negb (r2 =? 0) then
      emit (Stderr ErrSchedSetscheduler);;
      munlockall;;
      mret false
    else
      emit (Stdout OkSchedFifo);;
      r3 ← pthread_setaffinity_np k RT_CPU;
      (if negb (r3 =? 0) then emit (Stderr WarnAffinity)
       else emit (Stdout OkAffinity));;
      mret true.

(** [main] (rt_tuto.cpp, lines 514-574); [args] is [argv] without the
    program name, the result is the exit status.  The periodic run and the
    report are events here; their content is modelled below. *)
Definition main (k : kernel) (args : list string) : OS Z :=
  match args with
  | arg :: _ =>
      if (String.eqb arg "--help" || String.eqb arg "-h")%bool then
        emit (Stdout UsageText);; mret 0
      else
        emit (Stderr ErrUnknownOption);; emit (Stdout UsageText);; mret 1
  | [] =>
      ok ← configure_realtime k;
      if negb ok then
        emit (Stderr ErrConfiguration);; mret 1
      else
        emit RunPeriodicTask;;
        emit DisplayResults;;
        sched_setscheduler k SCHED_OTHER 0;;
        munlockall;;
        mret 0
  end.

(** The system calls of a trace, in order. *)
Definition syscalls (t : list event) : list syscall :=
  omap (fun e => match e with Sys c => Some c | _ => None end) t.

Definition initial_process : process :=
  {| memory_locked := false; policy := (SCHED_OTHER, 0);
     affinity := None; trace := [] |}.

End RtContext.
Import RtContext.

(** ** rt_tuto.cpp: the periodic loop *)

Module Runner.

Definition PERIOD_US : Z := 1000.
Definition NUM_ITERATIONS : Z := 1000.

Section Clock.

(** The monotonic clock and the absolute-time wait, as transitions of the
    world outside the program. *)
Context {World : Type}.
Variable clock_gettime : World -> timespec * World.
Variable clock_nanosleep : timespec -> World -> World.

(** Lines 372-376: one period added, with a single carry; as in
    [carry_loop], the subtraction has a [tv_nsec] of at least [10^9]. *)
Definition next_wake (next_period : timespec) : timespec :=
  let nsec := to_long (tv_nsec next_period + to_int (PERIOD_US * 1000)) in
  if 1000000000 <=? nsec
  then {| tv_sec := to_long (tv_sec next_period + 1);
          tv_nsec := nsec - 1000000000 |}
  else {| tv_sec := tv_sec next_period; tv_nsec := nsec |}.

(** The [for] loop of lines 323-384 with [n] iterations left. *)
Fixpoint periodic_loop (n : nat) (next_period : timespec)
  (latencies : list Z) (w : World) : list Z * World :=
  match n with
  | O => (latencies, w)
  | S n' =>
      let w := clock_nanosleep next_period w in
      let (now, w) := clock_gettime w in
      let latency_ns := timespec_diff_ns next_period now in
      periodic_loop n' (next_wake next_period) (latencies ++ [latency_ns]) w
  end.

(** [run_periodic_task] (rt_tuto.cpp, lines 276-389). *)
Definition run_periodic_task (w : World) : list Z * World :=
  let (next_period, w) := clock_gettime w in
  periodic_loop (Z.to_nat NUM_ITERATIONS) next_period [] w.

(** Every wake occurs exactly at the scheduled instant. *)
Definition wakes_on_schedule : Prop :=
  forall (ts : timespec) (w : World),
    fst (clock_gettime (clock_nanosleep ts w)) = ts.

End Clock.

(** A simulated clock: the world is the current time, and a wait ends
    exactly at the requested instant. *)
Definition sim_gettime (now : timespec) : timespec * timespec := (now, now).
Definition sim_nanosleep (wake now : timespec) : timespec := wake.

(** [display_results] (rt_tuto.cpp, lines 400-467), up to the statistics
    and the histogram it prints; the histogram has the default 15 bins.
    On an empty vector only the error line is written: [None]. *)
Definition display_results (latencies : list Z)
  : option (LatencyStats * histogram_output) :=
  match latencies with
  | [] => None
  | _ :: _ =>
      h ← print_histogram latencies 15;
      Some (calculate_stats latencies, h)
  end.

End Runner.
Import Runner.

(** ** rt_utils.h: the rows of the histogram *)

Module Rendering.

Inductive color : Type := GREEN | YELLOW | RED.

(** What follows the bar on a row: nothing, the count in parentheses, or
    the plain count. *)
Inductive count_label : Type :=
| NoLabel
| Parenthesised (n : Z)
| Plain (n : Z).

(** One line of the histogram. *)
Record histogram_row : Type := mk_row {
  range_start_us : Z;
  range_end_us : Z;
  row_count : Z;
  bar_length : Z;
  bar_color : color;
  label : count_label
}.

Definition max_bar_width : Z := 40.

(** Lines 280-281. *)
Definition max_count_of (bins : list Z) : Z :=
  let max_count := max_element bins in
  if max_count =? 0 then 1 else max_count.

(** Lines 298-305. *)
Definition color_of (i num_bins : Z) : color :=
  if i <? Z.quot num_bins 3 then GREEN
  else if i <? Z.quot (to_int (2 * num_bins)) 3 then YELLOW
  else RED.

(** Lines 318-322. *)
Definition label_of (bar_length count : Z) : count_label :=
  if (bar_length <? 3) && (0 <? count) then Parenthesised count
  else if 0 <? count then Plain count
  else NoLabel.

(** The body of the loop of lines 289-325 for the row [i]; the divisions
    of [int]s truncate toward zero. *)
Definition render_row (min_lat bin_width : Z) (bins : list Z)
  (max_count num_bins i : Z) : histogram_row :=
  let count := default 0 (bins !! Z.to_nat i) in
  let bar := to_int (Z.quot (to_int (count * max_bar_width)) max_count) in
  {| range_start_us :=
       to_uint64 (min_lat + to_uint64 (to_uint64 i * bin_width)) / 1000;
     range_end_us :=
       to_uint64 (min_lat
                  + to_uint64 (to_uint64 (to_int (i + 1)) * bin_width))
       / 1000;
     row_count := count;
     bar_length := bar;
     bar_color := color_of i num_bins;
     label := label_of bar count |}.

(** Lines 279-325: one row per bin, in order. *)
Definition render_rows (min_lat bin_width : Z) (bins : list Z)
  (num_bins : Z) : list histogram_row :=
  render_row min_lat bin_width bins (max_count_of bins) num_bins
    <$> seqZ 0 num_bins.

(** The rows that [print_histogram] writes; the "no data" and "all
    identical" outputs have none. *)
Definition histogram_rows (latencies : list Z) (num_bins : Z)
  : option (list histogram_row) :=
  match print_histogram latencies num_bins with
  | Some (Bars bin_width bins) =>
      Some (render_rows (min_element latencies) bin_width bins num_bins)
  | Some _ => Some []
  | None => None
  end.

Definition color_rank (c : color) : Z :=
  match c with GREEN => 0 | YELLOW => 1 | RED => 2 end.

End Rendering.
Import Rendering.

(** ** rt_tuto.cpp: the periodic loop under a recording clock *)

Module Schedule.

Section Recording.

Context {World : Type}.
Variable clock_gettime : World -> timespec * World.
Variable clock_nanosleep : timespec -> World -> World.

(** The same clock, keeping the list of the wake instants requested of
    [clock_nanosleep], oldest first. *)
Definition recording_gettime (w : World * list timespec)
  : timespec * (World * list timespec) :=
  let (now, w') := clock_gettime w.1 in (now, (w', w.2)).

Definition recording_nanosleep (wake : timespec)
  (w : World * list timespec) : World * list timespec :=
  (clock_nanosleep wake w.1, w.2 ++ [wake]).

(** Every wake occurs [late] nanoseconds after the scheduled instant, and
    the clock returns normalised timestamps. *)
Definition wakes_late (late : Z) : Prop :=
  forall (ts : timespec) (w : World),
    nsec_ok (clock_gettime (clock_nanosleep ts w)).1
    /\ instant_ns (clock_gettime (clock_nanosleep ts w)).1
       = instant_ns ts + late.

End Recording.

(** The first [n] instants of the schedule that starts at [t0]. *)
Fixpoint schedule (n : nat) (t0 : timespec) : list timespec :=
  match n with
  | O => []
  | S n' => t0 :: schedule n' (next_wake t0)
  end.

(** A simulated clock whose every wake is [late] nanoseconds after the
    requested instant; the world is the current time. *)
Definition late_gettime (now : timespec) : timespec * timespec := (now, now).
Definition late_nanosleep (late : Z) (wake now : timespec) : timespec :=
  {| tv_sec := tv_sec wake + (tv_nsec wake + late) / NSEC_PER_SEC;
     tv_nsec := (tv_nsec wake + late) mod NSEC_PER_SEC |}.

End Schedule.
Import Schedule.

(** ** rt_tuto.cpp: the remarks of the report *)

Module Report.

(** The remark written next to the maximum latency (lines 429-437):
    "Excellent !", "Très bon", "Acceptable", "Vérifier la configuration". *)
Inductive quality : Type :=
| Excellent
| TresBon
| Acceptable
| VerifierConfiguration.

(** The recommendation at the end of the report (lines 450-461). *)
Inductive recommendation : Type :=
| ConfigurationExcellente
| LatenceMaximaleElevee.

(** [ns / 1000.0] for a [uint64_t] count of nanoseconds (lines 411-414):
    the count is converted to [double] and divided. *)
Definition to_us (ns : Z) : double := ddiv (of_Z ns) (of_Z 1000).

(** Lines 430-438; the thresholds are the [int] literals 50, 100 and 200
    converted to [double]. *)
Definition quality_of (max_us : double) : quality :=
  if dltb max_us (of_Z 50) then Excellent
  else if dltb max_us (of_Z 100) then TresBon
  else if dltb max_us (of_Z 200) then Acceptable
  else VerifierConfiguration.

(** Lines 449-461. *)
Definition recommendation_of (max_us : double) : recommendation :=
  if dltb max_us (of_Z 100) then ConfigurationExcellente
  else LatenceMaximaleElevee.

(** The two remarks of [display_results] (rt_tuto.cpp, lines 400-467); on
    an empty vector only the error line is written: [None]. *)
Definition display_remarks (latencies : list Z)
  : option (quality * recommendation) :=
  match latencies with
  | [] => None
  | _ :: _ =>
      let stats := calculate_stats latencies in
      let max_us := to_us (max_ns stats) in
      Some (quality_of max_us, recommendation_of max_us)
  end.

(** [c <= m * 2^e] for integers [m], [e], [c], without leaving the
    integers. *)
Definition val_ge (m e c : Z) : Prop :=
  c * 2 ^ Z.max 0 (- e) <= m * 2 ^ Z.max 0 e.

End Report.
Import Report.

(** ** rt_utils.h: the comparison table *)

Module Comparison.




End Comparison.
Import Comparison.

(** * Part II: properties *)

(** ** Time arithmetic: properties *)

Section TimeFacts.

Lemma to_uint64_range z : 0 <= to_uint64 z <= UINT64_MAX.
Proof.
  unfold to_uint64, UINT64_MAX.
  pose proof (Z.mod_pos_bound z (2 ^ 64) ltac:(lia)). lia.
Qed.

Lemma to_uint64_id z : 0 <= z <= UINT64_MAX -> to_uint64 z = z.
Proof. unfold to_uint64, UINT64_MAX. intros H. apply Z.mod_small. lia. Qed.

Lemma to_long_id z : is_long z -> to_long z = z.
Proof.
  unfold to_long, is_long, LONG_MIN, LONG_MAX. intros H.
  rewrite Z.mod_small; lia.
Qed.

Lemma total_ns_exact ts :
  nsec_ok ts -> fits_uint64 ts -> total_ns ts = instant_ns ts.
Proof.
  unfold nsec_ok, fits_uint64, total_ns, instant_ns, NSEC_PER_SEC, UINT64_MAX.
  intros Hn [Hs Hi].
  rewrite (to_uint64_id (tv_sec ts)) by (unfold UINT64_MAX; lia).
  rewrite (to_uint64_id (tv_nsec ts)) by (unfold UINT64_MAX; lia).
  rewrite (to_uint64_id (tv_sec ts * _)) by (unfold UINT64_MAX; lia).
  apply to_uint64_id. unfold UINT64_MAX. lia.
Qed.

Lemma timespec_diff_ns_range start end_ :
  0 <= timespec_diff_ns start end_ <= UINT64_MAX.
Proof.
  unfold timespec_diff_ns. cbv zeta.
  destruct (_ >? _); [apply to_uint64_range | unfold UINT64_MAX; lia].
Qed.

(** One turn of the loop. *)
Lemma carry_loop_step ts :
  1000000000 <= tv_nsec ts ->
  carry_loop ts = carry_loop {| tv_sec := to_long (tv_sec ts + 1);
                                tv_nsec := tv_nsec ts - 1000000000 |}.
Proof.
  intros H. rewrite carry_loop_equation_1. simpl.
  destruct (Z_le_gt_dec 1000000000 (tv_nsec ts)); [reflexivity | lia].
Qed.

Lemma carry_loop_exit ts : tv_nsec ts < 1000000000 -> carry_loop ts = ts.
Proof.
  intros H. rewrite carry_loop_equation_1. simpl.
  destruct (Z_le_gt_dec 1000000000 (tv_nsec ts)); [lia | reflexivity].
Qed.

(** The loop carries [tv_nsec / 10^9] whole seconds, one per turn, as long
    as [tv_sec] has room for them. *)
Lemma carry_loop_spec (k : nat) : forall ts,
  0 <= tv_nsec ts ->
  tv_nsec ts / NSEC_PER_SEC = Z.of_nat k ->
  is_long (tv_sec ts) ->
  tv_sec ts + Z.of_nat k <= LONG_MAX ->
  carry_loop ts = {| tv_sec := tv_sec ts + Z.of_nat k;
                     tv_nsec := tv_nsec ts mod NSEC_PER_SEC |}.
Proof.
  unfold NSEC_PER_SEC.
  induction k as [|k IH]; intros [s n]; simpl tv_sec; simpl tv_nsec;
    intros Hn Hq Hs Hk.
  - assert (n < 1000000000) by
      (apply Z.div_small_iff in Hq; lia).
    rewrite carry_loop_exit by (simpl; lia).
    rewrite Z.mod_small by lia. f_equal. lia.
  - assert (1000000000 <= n) by
      (destruct (Z_lt_le_dec n 1000000000) as [Hlt|]; [|lia];
       rewrite Z.div_small in Hq; lia).
    rewrite carry_loop_step by (simpl; lia). simpl tv_sec; simpl tv_nsec.
    unfold is_long in Hs.
    rewrite (to_long_id (s + 1)) by (unfold is_long, LONG_MIN in *; lia).
    assert (Hq' : (n - 1000000000) / 1000000000 = Z.of_nat k).
    { replace (n - 1000000000) with (n + (-1) * 1000000000) by lia.
      rewrite Z.div_add by lia. lia. }
    rewrite IH; simpl tv_sec; simpl tv_nsec;
      [| lia | exact Hq' | unfold is_long, LONG_MIN in *; lia | lia].
    f_equal; [lia|].
    replace (n - 1000000000) with (n + (-1) * 1000000000) by lia.
    apply Z.mod_add. lia.
Qed.

End TimeFacts.

(** C1 (as amended): for timestamps with a normalised sub-second part and
    a non-negative instant that fits 64 unsigned bits,
    [timespec_diff_ns start end] is the exact difference of the two
    instants when [end] is strictly after [start], and [0] otherwise; the
    result is a [uint64_t], so never negative. *)
Theorem timespec_diff_ns_exact (start end_ : timespec) :
  nsec_ok start -> nsec_ok end_ -> fits_uint64 start -> fits_uint64 end_ ->
  (strictly_after end_ start ->
     timespec_diff_ns start end_ = instant_ns end_ - instant_ns start)
  /\ (~ strictly_after end_ start -> timespec_diff_ns start end_ = 0)
  /\ 0 <= timespec_diff_ns start end_ <= UINT64_MAX.
Proof.
  intros Hs He Hfs Hfe.
  split; [|split; [|apply timespec_diff_ns_range]];
    unfold timespec_diff_ns, strictly_after; cbv zeta;
    rewrite !total_ns_exact by assumption;
    destruct Hfs as [? ?], Hfe as [? ?]; unfold nsec_ok, instant_ns in *; intros Hlt.
  - destruct (Z.gtb_spec (tv_sec end_ * NSEC_PER_SEC + tv_nsec end_)
                         (tv_sec start * NSEC_PER_SEC + tv_nsec start)); [|lia].
    apply to_uint64_id. unfold NSEC_PER_SEC in *. lia.
  - destruct (Z.gtb_spec (tv_sec end_ * NSEC_PER_SEC + tv_nsec end_)
                         (tv_sec start * NSEC_PER_SEC + tv_nsec start)); [lia|].
    reflexivity.
Qed.

Lemma timespec_diff_ns_exact_witness :
  timespec_diff_ns (mk_timespec 5 999999000) (mk_timespec 6 1000) = 2000
  /\ timespec_diff_ns (mk_timespec 6 1000) (mk_timespec 5 999999000) = 0.
Proof.
  assert (Hs : nsec_ok (mk_timespec 5 999999000)) by (vm_compute; split; congruence).
  assert (He : nsec_ok (mk_timespec 6 1000)) by (vm_compute; split; congruence).
  assert (Hfs : fits_uint64 (mk_timespec 5 999999000))
    by (vm_compute; split; congruence).
  assert (Hfe : fits_uint64 (mk_timespec 6 1000)) by (vm_compute; split; congruence).
  split.
  - apply (timespec_diff_ns_exact _ _ Hs He Hfs Hfe). vm_compute. reflexivity.
  - apply (timespec_diff_ns_exact _ _ He Hs Hfe Hfs). vm_compute. congruence.
Defined.

(** C1, counterexample: both sub-second parts are normalised and [end] is
    one nanosecond after [start], but the 64-bit count of [end] wraps to
    [0] and the function returns [0]; with [end] before [start] across the
    wrap, the result is not [0]; and a negative [tv_sec] converts to a
    large unsigned count, so one second after [-1 s] gives [0]. *)
Lemma timespec_diff_ns_wraps :
  (let start := mk_timespec 18446744073 709551615 in
   let end_ := mk_timespec 18446744073 709551616 in
   nsec_ok start /\ nsec_ok end_ /\ strictly_after end_ start /\
   instant_ns end_ - instant_ns start = 1 /\
   timespec_diff_ns start end_ = 0)
  /\
  (let start := mk_timespec 18446744074 0 in
   let end_ := mk_timespec 1 0 in
   nsec_ok start /\ nsec_ok end_ /\ ~ strictly_after end_ start /\
   timespec_diff_ns start end_ = 709551616)
  /\
  (let start := mk_timespec (-1) 0 in
   let end_ := mk_timespec 0 0 in
   nsec_ok start /\ nsec_ok end_ /\ strictly_after end_ start /\
   instant_ns end_ - instant_ns start = 1000000000 /\
   timespec_diff_ns start end_ = 0).
Proof.
  cbv zeta. unfold nsec_ok, strictly_after.
  repeat split; try (vm_compute; congruence).
Qed.

(** C2 (as amended): when [tv_nsec] is normalised, the period in
    nanoseconds added to it fits a [long] and [tv_sec] has room for the
    carried seconds, [timespec_add_us] leaves [tv_nsec] normalised and
    moves the instant by exactly [us * 1000] nanoseconds, carrying as many
    whole seconds as the sum holds. *)
Theorem timespec_add_us_exact (ts : timespec) (us : Z) :
  nsec_ok ts -> is_long (tv_sec ts) -> 0 <= us ->
  tv_nsec ts + us * 1000 <= LONG_MAX ->
  tv_sec ts + (tv_nsec ts + us * 1000) / NSEC_PER_SEC <= LONG_MAX ->
  nsec_ok (timespec_add_us ts us)
  /\ instant_ns (timespec_add_us ts us) = instant_ns ts + us * 1000
  /\ tv_sec (timespec_add_us ts us)
     = tv_sec ts + (tv_nsec ts + us * 1000) / NSEC_PER_SEC.
Proof.
  unfold nsec_ok, NSEC_PER_SEC. intros Hn Hs Hus Hfit Hroom.
  unfold timespec_add_us.
  rewrite (to_uint64_id (us * 1000)) by (unfold UINT64_MAX, LONG_MAX in *; lia).
  rewrite (to_long_id (us * 1000))
    by (unfold is_long, LONG_MIN, LONG_MAX in *; lia).
  rewrite (to_long_id (tv_nsec ts + us * 1000))
    by (unfold is_long, LONG_MIN, LONG_MAX in *; lia).
  set (n := tv_nsec ts + us * 1000) in *.
  assert (Hq : 0 <= n / 1000000000) by (apply Z.div_pos; lia).
  rewrite (carry_loop_spec (Z.to_nat (n / 1000000000)));
    unfold NSEC_PER_SEC; simpl tv_sec; simpl tv_nsec;
    rewrite ?Z2Nat.id by lia; try lia; try assumption.
  pose proof (Z.mod_pos_bound n 1000000000 ltac:(lia)).
  pose proof (Z.div_mod n 1000000000 ltac:(lia)).
  unfold instant_ns, NSEC_PER_SEC. simpl tv_sec; simpl tv_nsec.
  repeat split; lia.
Qed.

Lemma timespec_add_us_exact_witness :
  let ts := mk_timespec 5 999999000 in
  nsec_ok (timespec_add_us ts 3500000)
  /\ instant_ns (timespec_add_us ts 3500000) = instant_ns ts + 3500000 * 1000
  /\ tv_sec (timespec_add_us ts 3500000)
     = tv_sec ts + (tv_nsec ts + 3500000 * 1000) / NSEC_PER_SEC.
Proof.
  apply timespec_add_us_exact; vm_compute; repeat split; congruence.
Defined.

(** C2, counterexample: the sub-second part is normalised and the period
    is one microsecond, but [tv_sec] has no room for the carried second:
    no timespec with a normalised sub-second part stands for the original
    instant plus 1000 ns, and the instant after the call is another one. *)
Lemma timespec_add_us_sec_overflow :
  let ts := mk_timespec LONG_MAX 999999999 in
  nsec_ok ts /\ is_long (tv_sec ts)
  /\ (forall r : timespec,
        is_long (tv_sec r) -> nsec_ok r ->
        instant_ns r <> instant_ns ts + 1 * 1000)
  /\ timespec_add_us ts 1 = mk_timespec LONG_MIN 999
  /\ instant_ns (timespec_add_us ts 1) <> instant_ns ts + 1 * 1000.
Proof.
  cbv zeta. unfold nsec_ok, is_long.
  split; [vm_compute; split; congruence|].
  split; [vm_compute; split; congruence|].
  split.
  - intros [sec nsec]. unfold instant_ns, NSEC_PER_SEC, LONG_MAX, LONG_MIN.
    cbn [tv_sec tv_nsec]. lia.
  - split; vm_compute; congruence.
Qed.

(** ** Statistics: properties *)

Section StatsFacts.

Lemma sum_u64_fold (l : list Z) : forall a,
  fold_left (fun sum lat => to_uint64 (sum + lat)) l (to_uint64 a)
  = to_uint64 (a + fold_right Z.add 0 l).
Proof.
  unfold to_uint64.
  induction l as [|x l IH]; intros a; simpl.
  - f_equal. lia.
  - rewrite Zplus_mod_idemp_l, IH. f_equal. lia.
Qed.

(** The accumulator of the first loop is the sum of the samples modulo
    [2^64]. *)
Lemma sum_u64_mod (l : list Z) :
  sum_u64 l = to_uint64 (fold_right Z.add 0 l).
Proof. unfold sum_u64. apply (sum_u64_fold l 0). Qed.

Lemma fold_min_le (l : list Z) : forall a,
  fold_left Z.min l a <= a /\ Forall (fun x => fold_left Z.min l a <= x) l.
Proof.
  induction l as [|x l IH]; intros a; simpl.
  - split; [lia | constructor].
  - destruct (IH (Z.min a x)) as [H1 H2]. split; [lia|].
    constructor; [lia | exact H2].
Qed.

Lemma fold_max_ge (l : list Z) : forall a,
  a <= fold_left Z.max l a /\ Forall (fun x => x <= fold_left Z.max l a) l.
Proof.
  induction l as [|x l IH]; intros a; simpl.
  - split; [lia | constructor].
  - destruct (IH (Z.max a x)) as [H1 H2]. split; [lia|].
    constructor; [lia | exact H2].
Qed.

Lemma fold_min_in (l : list Z) : forall a,
  fold_left Z.min l a = a \/ fold_left Z.min l a ∈ l.
Proof.
  induction l as [|x l IH]; intros a; simpl; [by left|].
  destruct (IH (Z.min a x)) as [H|H].
  - rewrite H. destruct (Z.min_spec a x) as [[_ ->]|[_ ->]];
      [by left | right; by left].
  - right. by right.
Qed.

Lemma fold_max_in (l : list Z) : forall a,
  fold_left Z.max l a = a \/ fold_left Z.max l a ∈ l.
Proof.
  induction l as [|x l IH]; intros a; simpl; [by left|].
  destruct (IH (Z.max a x)) as [H|H].
  - rewrite H. destruct (Z.max_spec a x) as [[_ ->]|[_ ->]];
      [right; by left | by left].
  - right. by right.
Qed.

Lemma min_element_in (l : list Z) : l <> [] -> min_element l ∈ l.
Proof.
  destruct l as [|x l]; [done|]. intros _. simpl.
  destruct (fold_min_in l x) as [->|H]; [by left | by right].
Qed.

Lemma max_element_in (l : list Z) : l <> [] -> max_element l ∈ l.
Proof.
  destruct l as [|x l]; [done|]. intros _. simpl.
  destruct (fold_max_in l x) as [->|H]; [by left | by right].
Qed.

Lemma min_element_le (l : list Z) (x : Z) : x ∈ l -> min_element l <= x.
Proof.
  destruct l as [|y l]; [by intros ?%elem_of_nil|]. simpl.
  destruct (fold_min_le l y) as [H1 H2].
  intros [->|H]%elem_of_cons; [exact H1|].
  rewrite Forall_forall in H2. by apply H2.
Qed.

Lemma max_element_ge (l : list Z) (x : Z) : x ∈ l -> x <= max_element l.
Proof.
  destruct l as [|y l]; [by intros ?%elem_of_nil|]. simpl.
  destruct (fold_max_ge l y) as [H1 H2].
  intros [->|H]%elem_of_cons; [exact H1|].
  rewrite Forall_forall in H2. by apply H2.
Qed.

End StatsFacts.

(** C3: on the samples [100, 200, 300] [calculate_stats] returns
    min 100, max 300, mean 200.0 and the population standard deviation
    [sqrt(((100-200)^2 + 0^2 + 100^2) / 3)], which lies between 81.64 and
    81.66.  On every non-empty vector the mean is the sum of the samples
    modulo [2^64], divided as a [double] by the count; and the standard
    deviation is the population formula over the deviations from that
    mean: starting from [0.0], the square of [sample - mean] is added for
    each sample in vector order, the sum is divided by the count (not by
    the count minus one) and the square root is taken, every operation
    being the [double] one. *)
Theorem calculate_stats_known_input :
  calculate_stats [100; 200; 300]
  = {| min_ns := 100;
       max_ns := 300;
       avg_ns := of_Z 200;
       stddev_ns :=
         dsqrt (ddiv (dadd (dadd (dmul (dsub (of_Z 100) (of_Z 200))
                                       (dsub (of_Z 100) (of_Z 200)))
                                 (dmul (of_Z 0) (of_Z 0)))
                           (dmul (of_Z 100) (of_Z 100)))
                     (of_Z 3)) |}
  /\ dltb (ddiv (of_Z 8164) (of_Z 100))
          (stddev_ns (calculate_stats [100; 200; 300])) = true
  /\ dltb (stddev_ns (calculate_stats [100; 200; 300]))
          (ddiv (of_Z 8166) (of_Z 100)) = true
  /\ forall latencies : list Z,
       latencies <> [] ->
       let count := of_Z (Z.of_nat (length latencies)) in
       let mean :=
         ddiv (of_Z (to_uint64 (fold_right Z.add 0 latencies))) count in
       avg_ns (calculate_stats latencies) = mean
       /\ stddev_ns (calculate_stats latencies)
          = dsqrt (ddiv (fold_left
                           (fun (sum : double) (sample : Z) =>
                              dadd sum (dmul (dsub (of_Z sample) mean)
                                             (dsub (of_Z sample) mean)))
                           latencies (of_Z 0))
                        count).
Proof.
  split; [vm_compute; reflexivity|].
  split; [vm_compute; reflexivity|].
  split; [vm_compute; reflexivity|].
  intros [|x l] Hne; [done|]. cbv zeta.
  unfold calculate_stats, sum_sq_dev. cbn [avg_ns stddev_ns].
  rewrite sum_u64_mod. split; reflexivity.
Qed.

Lemma calculate_stats_known_input_witness :
  avg_ns (calculate_stats [10; 20]) = of_Z 15
  /\ stddev_ns (calculate_stats [10; 20]) = of_Z 5.
Proof.
  destruct calculate_stats_known_input as (_ & _ & _ & H).
  destruct (H [10; 20]) as [Havg Hdev]; [discriminate|].
  rewrite Havg, Hdev. split; vm_compute; reflexivity.
Defined.

(** C9: on an empty vector [calculate_stats] returns the all-zero record;
    the mean is the literal [0.0], not the NaN that dividing the empty sum
    by the zero count would give. *)
Theorem calculate_stats_empty :
  calculate_stats []
  = {| min_ns := 0; max_ns := 0; avg_ns := dzero; stddev_ns := dzero |}
  /\ ddiv (of_Z (sum_u64 [])) (of_Z (Z.of_nat (length (@nil Z)))) = S754_nan.
Proof. split; reflexivity. Qed.

(** ** Histogram: properties *)

Section HistogramFacts.

Lemma to_int_id z : is_int z -> to_int z = z.
Proof.
  unfold to_int, is_int, INT_MIN, INT_MAX. intros H.
  rewrite Z.mod_small; lia.
Qed.

Lemma to_int_range z : is_int (to_int z).
Proof.
  unfold to_int, is_int, INT_MIN, INT_MAX.
  pose proof (Z.mod_pos_bound (z + 2 ^ 31) (2 ^ 32) ltac:(lia)). lia.
Qed.

(** Whatever the division gives, the two guards leave an index of the
    vector. *)
Lemma bin_index_range lat min_lat bin_width num_bins :
  1 <= num_bins <= INT_MAX ->
  0 <= bin_index lat min_lat bin_width num_bins <= num_bins - 1.
Proof.
  intros HN. unfold bin_index. cbv zeta.
  pose proof (to_int_range (to_uint64 (lat - min_lat) / bin_width)) as Hr.
  set (i := to_int _) in *.
  rewrite (to_int_id (num_bins - 1))
    by (unfold is_int, INT_MIN, INT_MAX in *; lia).
  destruct (Z.geb_spec i num_bins).
  - destruct (Z.ltb_spec (num_bins - 1) 0); lia.
  - destruct (Z.ltb_spec i 0); lia.
Qed.

Lemma bin_width_of_max min_lat max_lat num_bins :
  is_uint64 min_lat -> is_uint64 max_lat -> min_lat <= max_lat ->
  1 <= num_bins <= INT_MAX ->
  bin_width_of min_lat max_lat num_bins
  = Z.max 1 ((max_lat - min_lat) / num_bins).
Proof.
  unfold is_uint64, bin_width_of. intros Hmin Hmax Hle HN. cbv zeta.
  rewrite (to_uint64_id (max_lat - min_lat)) by lia.
  rewrite (to_uint64_id num_bins) by (unfold UINT64_MAX, INT_MAX in *; lia).
  assert (0 <= (max_lat - min_lat) / num_bins) by (apply Z.div_pos; lia).
  destruct (Z.eqb_spec ((max_lat - min_lat) / num_bins) 0); lia.
Qed.

(** The quotient of a sample's offset by the bin width is below twice the
    bin count. *)
Lemma offset_quotient_bound lat min_lat max_lat num_bins :
  min_lat <= lat <= max_lat -> 1 <= num_bins ->
  0 <= (lat - min_lat) / Z.max 1 ((max_lat - min_lat) / num_bins)
    <= 2 * num_bins - 1.
Proof.
  intros Hlat HN.
  set (q := (max_lat - min_lat) / num_bins).
  assert (Hq : 0 <= q) by (apply Z.div_pos; lia).
  assert (Hr : max_lat - min_lat < num_bins * (q + 1)).
  { pose proof (Z.div_mod (max_lat - min_lat) num_bins ltac:(lia)).
    pose proof (Z.mod_pos_bound (max_lat - min_lat) num_bins ltac:(lia)).
    fold q in H. nia. }
  split; [apply Z.div_pos; lia|].
  apply Z.lt_succ_r. apply Z.div_lt_upper_bound; [lia|].
  destruct (Z.max_spec 1 q) as [[? ->]|[? ->]]; nia.
Qed.

(** Up to [2^30] bins the conversion to [int] keeps the quotient, and the
    index is the clamp of the specification. *)
Lemma assigned_bin_is_clamp latencies num_bins lat :
  Forall is_uint64 latencies -> lat ∈ latencies ->
  1 <= num_bins <= 2 ^ 30 ->
  assigned_bin latencies num_bins lat = spec_bin latencies num_bins lat.
Proof.
  intros Hall Hin HN.
  assert (Hne : latencies <> []) by (intros ->; by apply elem_of_nil in Hin).
  rewrite Forall_forall in Hall.
  pose proof (Hall _ (min_element_in _ Hne)) as Hmin.
  pose proof (Hall _ (max_element_in _ Hne)) as Hmax.
  pose proof (Hall _ Hin) as Hlat.
  pose proof (min_element_le _ _ Hin) as Hlo.
  pose proof (max_element_ge _ _ Hin) as Hhi.
  unfold assigned_bin, spec_bin, clamp. cbv zeta.
  assert (H30 : 2 ^ 30 = 1073741824) by reflexivity.
  rewrite bin_width_of_max by (try assumption; unfold INT_MAX; lia).
  pose proof (offset_quotient_bound lat (min_element latencies)
                (max_element latencies) num_bins ltac:(lia) ltac:(lia)) as Hq.
  set (w := Z.max 1 _) in *.
  unfold bin_index. cbv zeta. unfold is_uint64 in *.
  rewrite (to_uint64_id (lat - min_element latencies)) by lia.
  set (i := (lat - min_element latencies) / w) in *.
  rewrite (to_int_id i) by (unfold is_int, INT_MIN, INT_MAX; lia).
  rewrite (to_int_id (num_bins - 1)) by (unfold is_int, INT_MIN, INT_MAX; lia).
  destruct (Z.geb_spec i num_bins).
  - destruct (Z.ltb_spec (num_bins - 1) 0); lia.
  - destruct (Z.ltb_spec i 0); lia.
Qed.

Lemma sum_counts_cons (c : Z) (bins : list Z) :
  sum_counts (c :: bins) = c + sum_counts bins.
Proof. reflexivity. Qed.

Lemma sum_counts_nonneg (bins : list Z) :
  Forall (fun c => 0 <= c) bins -> 0 <= sum_counts bins.
Proof. induction 1; [done|]. rewrite sum_counts_cons. lia. Qed.

Lemma sum_counts_lookup (bins : list Z) (i : nat) (c : Z) :
  Forall (fun c => 0 <= c) bins -> bins !! i = Some c -> c <= sum_counts bins.
Proof.
  intros Hpos. revert i. induction Hpos as [|x l Hx Hl IH]; intros i Hi.
  - by rewrite lookup_nil in Hi.
  - pose proof (sum_counts_nonneg l Hl). rewrite sum_counts_cons.
    destruct i as [|i]; simpl in Hi.
    + injection Hi as ->. lia.
    + specialize (IH i Hi). lia.
Qed.

(** One [bins[i]++] below [INT_MAX] adds one to the total. *)
Lemma increment_sum (bins : list Z) (i : Z) :
  0 <= i < Z.of_nat (length bins) ->
  Forall (fun c => 0 <= c) bins ->
  sum_counts bins < INT_MAX ->
  length (increment bins i) = length bins
  /\ Forall (fun c => 0 <= c) (increment bins i)
  /\ sum_counts (increment bins i) = sum_counts bins + 1.
Proof.
  unfold increment. intros Hi Hpos Hsum.
  assert (Hlt : (Z.to_nat i < length bins)%nat) by lia.
  destruct (lookup_lt_is_Some_2 bins _ Hlt) as [c Hc].
  pose proof (sum_counts_lookup bins _ c Hpos Hc) as Hcs.
  assert (0 <= c) by (rewrite Forall_forall in Hpos; apply Hpos;
                      by eapply list_elem_of_lookup_2).
  assert (Hid : to_int (c + 1) = c + 1)
    by (apply to_int_id; unfold is_int, INT_MIN, INT_MAX in *; lia).
  split; [by rewrite length_alter|].
  clear Hi Hlt Hsum Hcs. revert Hc. generalize (Z.to_nat i) as n.
  induction Hpos as [|x l Hx Hl IH]; intros n Hc.
  - by rewrite lookup_nil in Hc.
  - destruct n as [|n]; simpl in Hc; cbn [alter list_alter].
    + injection Hc as ->. rewrite Hid. split.
      * constructor; [lia | done].
      * rewrite !sum_counts_cons. lia.
    + destruct (IH n Hc) as [IH1 IH2]. split.
      * constructor; done.
      * rewrite !sum_counts_cons. unfold alter in IH2 |- *. lia.
Qed.

(** The counting loop, started from any vector of counts with room left. *)
Lemma count_loop_sum (latencies : list Z) min_lat bin_width num_bins :
  1 <= num_bins <= INT_MAX ->
  forall bins : list Z,
    Z.of_nat (length bins) = num_bins ->
    Forall (fun c => 0 <= c) bins ->
    sum_counts bins + Z.of_nat (length latencies) <= INT_MAX ->
    let bins' :=
      fold_left (fun bins lat =>
                   increment bins (bin_index lat min_lat bin_width num_bins))
                latencies bins in
    length bins' = length bins
    /\ sum_counts bins' = sum_counts bins + Z.of_nat (length latencies).
Proof.
  intros HN. cbv zeta.
  induction latencies as [|lat l IH]; intros bins Hlen Hpos Hroom;
    cbn [fold_left length].
  - split; [done | lia].
  - pose proof (bin_index_range lat min_lat bin_width num_bins HN) as Hi.
    simpl length in Hroom.
    destruct (increment_sum bins
                (bin_index lat min_lat bin_width num_bins))
      as (Hl' & Hpos' & Hsum'); [lia | done | lia |].
    destruct (IH (increment bins
                    (bin_index lat min_lat bin_width num_bins)))
      as [IH1 IH2]; [lia | done | lia |].
    split; [congruence | lia].
Qed.

Lemma sum_counts_replicate (n : nat) : sum_counts (replicate n 0) = 0.
Proof.
  induction n as [|n IH]; [done|]. simpl replicate.
  rewrite sum_counts_cons. lia.
Qed.

Lemma count_bins_sum (latencies : list Z) min_lat bin_width num_bins :
  1 <= num_bins <= INT_MAX ->
  Z.of_nat (length latencies) <= INT_MAX ->
  length (count_bins latencies min_lat bin_width num_bins)
  = Z.to_nat num_bins
  /\ sum_counts (count_bins latencies min_lat bin_width num_bins)
     = Z.of_nat (length latencies).
Proof.
  intros HN Hlen. unfold count_bins.
  destruct (count_loop_sum latencies min_lat bin_width num_bins HN
              (replicate (Z.to_nat num_bins) 0)) as [H1 H2].
  - rewrite length_replicate. lia.
  - apply Forall_replicate. lia.
  - rewrite sum_counts_replicate. lia.
  - rewrite H1, H2, length_replicate, sum_counts_replicate. split; lia.
Qed.

Lemma increment_lookup (bins : list Z) (i : Z) (j : nat) (c : Z) :
  0 <= i ->
  Forall (fun c => 0 <= c) bins ->
  sum_counts bins < INT_MAX ->
  bins !! j = Some c ->
  increment bins i !! j = Some (if decide (i = Z.of_nat j) then c + 1 else c).
Proof.
  unfold increment. intros Hi Hpos Hsum Hc.
  pose proof (sum_counts_lookup bins _ c Hpos Hc) as Hcs.
  assert (0 <= c) by (rewrite Forall_forall in Hpos; apply Hpos;
                      by eapply list_elem_of_lookup_2).
  destruct (decide (i = Z.of_nat j)) as [->|Hne].
  - rewrite Nat2Z.id, list_lookup_alter_eq, Hc. simpl. f_equal.
    apply to_int_id. unfold is_int, INT_MIN, INT_MAX in *. lia.
  - rewrite list_lookup_alter_ne by lia. exact Hc.
Qed.

(** After the counting loop, bin [j] has grown by the number of samples
    whose index is [j]. *)
Lemma count_loop_lookup (latencies : list Z) min_lat bin_width num_bins :
  1 <= num_bins <= INT_MAX ->
  forall (bins : list Z) (j : nat) (c : Z),
    Z.of_nat (length bins) = num_bins ->
    Forall (fun c => 0 <= c) bins ->
    sum_counts bins + Z.of_nat (length latencies) <= INT_MAX ->
    bins !! j = Some c ->
    fold_left (fun bins lat =>
                 increment bins (bin_index lat min_lat bin_width num_bins))
              latencies bins !! j
    = Some (c + Z.of_nat
                  (length (filter (fun lat =>
                                     bin_index lat min_lat bin_width num_bins
                                     = Z.of_nat j) latencies))).
Proof.
  intros HN.
  induction latencies as [|lat l IH]; intros bins j c Hlen Hpos Hroom Hc.
  - simpl. rewrite Hc. f_equal. lia.
  - pose proof (bin_index_range lat min_lat bin_width num_bins HN) as Hi.
    simpl length in Hroom. cbn [fold_left].
    destruct (increment_sum bins
                (bin_index lat min_lat bin_width num_bins))
      as (Hl' & Hpos' & Hsum'); [lia | done | lia |].
    pose proof (increment_lookup bins
                  (bin_index lat min_lat bin_width num_bins) j c
                  ltac:(lia) Hpos ltac:(lia) Hc) as Hc'.
    erewrite IH; try exact Hc'; try exact Hpos'; try lia.
    rewrite filter_cons. f_equal.
    destruct (decide (bin_index lat min_lat bin_width num_bins = Z.of_nat j));
      simpl length; lia.
Qed.

Lemma count_bins_lookup (latencies : list Z) min_lat bin_width num_bins i :
  1 <= num_bins <= INT_MAX ->
  Z.of_nat (length latencies) <= INT_MAX ->
  0 <= i < num_bins ->
  count_bins latencies min_lat bin_width num_bins !! Z.to_nat i
  = Some (Z.of_nat
            (length (filter (fun lat =>
                               bin_index lat min_lat bin_width num_bins = i)
                            latencies))).
Proof.
  intros HN Hlen Hi. unfold count_bins.
  rewrite (count_loop_lookup latencies min_lat bin_width num_bins HN
             (replicate (Z.to_nat num_bins) 0) (Z.to_nat i) 0).
  - rewrite Z2Nat.id by lia. f_equal.
  - rewrite length_replicate. lia.
  - apply Forall_replicate. lia.
  - rewrite sum_counts_replicate. lia.
  - apply lookup_replicate_2. lia.
Qed.

(** One bin, one sample [0] and [n] samples [1]: whatever [n] is, the
    histogram has a single count, and it is an [int]. *)
Lemma one_bin_loop (l : list Z) : forall c : Z,
  Forall (fun lat => lat = 0 \/ lat = 1) l -> is_int c ->
  exists c' : Z,
    fold_left (fun bins lat => increment bins (bin_index lat 0 1 1)) l [c]
    = [c']
    /\ is_int c'.
Proof.
  induction l as [|lat l IH]; intros c Hl Hc; [by exists c|].
  apply Forall_cons in Hl as [Hlat Hl]. cbn [fold_left].
  assert (Hidx : bin_index lat 0 1 1 = 0)
    by (destruct Hlat as [->| ->]; reflexivity).
  rewrite Hidx. apply IH; [exact Hl | apply to_int_range].
Qed.

Lemma fold_min_ones (n : nat) : fold_left Z.min (replicate n 1) 0 = 0.
Proof. induction n as [|n IH]; [reflexivity | exact IH]. Qed.

Lemma fold_max_ones (n : nat) : fold_left Z.max (replicate n 1) 1 = 1.
Proof. induction n as [|n IH]; [reflexivity | exact IH]. Qed.

Lemma one_bin_count (n : nat) :
  (1 <= n)%nat ->
  exists count : Z,
    print_histogram (0 :: replicate n 1) 1 = Some (Bars 1 [count])
    /\ is_int count.
Proof.
  intros Hn. destruct n as [|n]; [lia|].
  unfold print_histogram, min_element, max_element.
  rewrite fold_min_ones. cbn [replicate fold_left].
  change (Z.max 0 1) with 1. rewrite fold_max_ones.
  change (0 =? 1) with false. change (1 <=? 0) with false. cbv iota.
  change (bin_width_of 0 1 1) with 1.
  destruct (one_bin_loop (0 :: 1 :: replicate n 1) 0) as (c & Hc & Hint).
  - constructor; [by left|]. constructor; [by right|].
    apply Forall_replicate. by right.
  - vm_compute. split; congruence.
  - exists c. split; [|exact Hint]. unfold count_bins.
    change (replicate (Z.to_nat 1) 0) with [0]. by rewrite Hc.
Qed.

(** With one bin and more than [INT_MAX] samples, the count is not the
    number of samples. *)
Lemma one_bin_overflow (k : Z) :
  INT_MAX < k ->
  Forall is_uint64 (0 :: replicate (Z.to_nat k) 1)
  /\ exists count : Z,
       print_histogram (0 :: replicate (Z.to_nat k) 1) 1
       = Some (Bars 1 [count])
       /\ sum_counts [count]
          <> Z.of_nat (length (0 :: replicate (Z.to_nat k) 1)).
Proof.
  intros Hk. unfold INT_MAX in Hk. split.
  - constructor; [vm_compute; split; congruence|].
    apply Forall_replicate. vm_compute. split; congruence.
  - destruct (one_bin_count (Z.to_nat k) ltac:(lia)) as (count & Hp & Hc).
    exists count. split; [exact Hp|].
    rewrite sum_counts_cons. cbn [length].
    rewrite length_replicate, Nat2Z.inj_succ, Z2Nat.id by lia.
    change (sum_counts []) with 0.
    unfold is_int, INT_MAX in Hc. lia.
Qed.

(** A non-empty vector whose samples all equal [v]. *)
Lemma print_histogram_identical (latencies : list Z) (num_bins v : Z) :
  latencies <> [] ->
  Forall (fun lat => lat = v) latencies ->
  print_histogram latencies num_bins = Some (AllIdentical (v / 1000)).
Proof.
  intros Hne Hall.
  rewrite Forall_forall in Hall.
  rewrite <- (Hall _ (min_element_in _ Hne)).
  pose proof (Hall _ (min_element_in _ Hne)) as Hmin.
  pose proof (Hall _ (max_element_in _ Hne)) as Hmax.
  unfold print_histogram. destruct latencies as [|z l]; [done|].
  destruct (Z.eqb_spec (min_element (z :: l)) (max_element (z :: l)));
    [reflexivity | congruence].
Qed.

End HistogramFacts.

(** C4 (as amended): for samples that are not all equal, a bin count [N]
    with [1 <= N <= INT_MAX] and at most [INT_MAX] samples,
    [print_histogram] takes [bin_width = max(1, (max - min) / N)] by floor
    division and builds [N] bins; every sample gets one index in
    [0, N-1], bin [i] counts the samples whose index is [i], and the bin
    counts add up to the number of samples.  For [N <= 2^30] the index is
    [clamp((sample - min) / bin_width, 0, N - 1)].  When all samples of a
    non-empty vector are equal, the "all identical" line is reported
    instead. *)
Theorem print_histogram_bins :
  (forall (latencies : list Z) (num_bins x y : Z),
     Forall is_uint64 latencies ->
     x ∈ latencies -> y ∈ latencies -> x <> y ->
     1 <= num_bins <= INT_MAX ->
     Z.of_nat (length latencies) <= INT_MAX ->
     exists bins : list Z,
       print_histogram latencies num_bins
       = Some (Bars (Z.max 1 ((max_element latencies - min_element latencies)
                              / num_bins)) bins)
       /\ length bins = Z.to_nat num_bins
       /\ (forall lat, lat ∈ latencies ->
             0 <= assigned_bin latencies num_bins lat <= num_bins - 1)
       /\ (forall i, 0 <= i < num_bins ->
             bins !! Z.to_nat i = Some (samples_in_bin latencies num_bins i))
       /\ sum_counts bins = Z.of_nat (length latencies)
       /\ (num_bins <= 2 ^ 30 ->
           forall lat, lat ∈ latencies ->
             assigned_bin latencies num_bins lat
             = spec_bin latencies num_bins lat))
  /\ (forall (latencies : list Z) (num_bins v : Z),
        latencies <> [] ->
        Forall (fun lat => lat = v) latencies ->
        print_histogram latencies num_bins = Some (AllIdentical (v / 1000))).
Proof.
  split.
  - intros latencies num_bins x y Hall Hx Hy Hxy HN Hlen.
    assert (Hne : latencies <> [])
      by (intros ->; by apply elem_of_nil in Hx).
    pose proof (min_element_le _ _ Hx). pose proof (max_element_ge _ _ Hx).
    pose proof (min_element_le _ _ Hy). pose proof (max_element_ge _ _ Hy).
    assert (Hlt : min_element latencies < max_element latencies) by lia.
    pose proof Hall as Hall'. rewrite Forall_forall in Hall'.
    pose proof (Hall' _ (min_element_in _ Hne)) as Hmin.
    pose proof (Hall' _ (max_element_in _ Hne)) as Hmax.
    pose proof (bin_width_of_max _ _ num_bins Hmin Hmax ltac:(lia) HN) as Hw.
    destruct (count_bins_sum latencies (min_element latencies)
                (bin_width_of (min_element latencies) (max_element latencies)
                              num_bins) num_bins HN Hlen) as [Hl Hs].
    eexists. split; [|split; [exact Hl|split; [|split; [|split; [exact Hs|]]]]].
    + unfold print_histogram. destruct latencies as [|z l]; [done|].
      destruct (Z.eqb_spec (min_element (z :: l)) (max_element (z :: l)));
        [lia|].
      destruct (Z.leb_spec num_bins 0); [lia|].
      rewrite Hw. reflexivity.
    + intros lat _. apply bin_index_range. exact HN.
    + intros i Hi. unfold samples_in_bin, assigned_bin.
      by apply count_bins_lookup.
    + intros H30 lat Hlat. apply assigned_bin_is_clamp; [done | done | lia].
  - intros latencies num_bins v Hne Hall.
    by apply print_histogram_identical.
Qed.

Lemma print_histogram_bins_witness :
  (exists bins : list Z,
     print_histogram [100; 200; 300] 15 = Some (Bars 13 bins)
     /\ sum_counts bins = 3)
  /\ print_histogram [7000; 7000] 15 = Some (AllIdentical 7).
Proof.
  destruct print_histogram_bins as [Hbins Hsame]. split.
  - destruct (Hbins [100; 200; 300] 15 100 200) as (bins & Hp & _ & _ & _ & Hs & _).
    + repeat constructor; vm_compute; congruence.
    + apply list_elem_of_here.
    + apply list_elem_of_further, list_elem_of_here.
    + lia.
    + vm_compute. split; congruence.
    + vm_compute. congruence.
    + exists bins. split; [exact Hp | exact Hs].
  - apply (Hsame [7000; 7000] 15 7000); [discriminate|].
    repeat constructor.
Defined.

(** C4, counterexample: with [2^30 + 1] bins and the two samples [0] and
    [2^31 + 1] the bin width is [1], the quotient [2^31 + 1] does not fit
    an [int], the conversion makes it negative and the sample lands in
    bin [0], where the clamp of the specification gives the last bin.
    And with one bin and [2^31 + 1] samples, the single [int] count cannot
    be the number of samples. *)
Lemma print_histogram_int_overflow :
  (let latencies := [0; 2147483649] in
   let num_bins := 1073741825 in
   Forall is_uint64 latencies
   /\ 1 <= num_bins <= INT_MAX
   /\ Z.max 1 ((max_element latencies - min_element latencies) / num_bins)
      = 1
   /\ assigned_bin latencies num_bins 2147483649 = 0
   /\ spec_bin latencies num_bins 2147483649 = 1073741824)
  /\
  (let latencies := 0 :: replicate (Z.to_nat 2147483648) 1 in
   Forall is_uint64 latencies
   /\ exists count : Z,
        print_histogram latencies 1 = Some (Bars 1 [count])
        /\ sum_counts [count] <> Z.of_nat (length latencies)).
Proof.
  split.
  - cbv zeta. split; [repeat constructor; vm_compute; congruence|].
    repeat split; vm_compute; congruence.
  - apply (one_bin_overflow 2147483648). reflexivity.
Qed.

(** ** Real-time configuration: properties *)

Section RtContextFacts.

Lemma syscalls_app (t1 t2 : list event) :
  syscalls (t1 ++ t2) = syscalls t1 ++ syscalls t2.
Proof. unfold syscalls. apply omap_app. Qed.

(** The three outcomes of [configure_realtime], step by step. *)
Lemma configure_realtime_mlockall_refused (k : kernel) (p : process) :
  grants_mlockall k = false ->
  configure_realtime k p
  = (false, {| memory_locked := memory_locked p; policy := policy p;
               affinity := affinity p;
               trace := (trace p ++ [Sys Mlockall]) ++ [Stderr ErrMlockall] |}).
Proof.
  intros H. unfold configure_realtime, mbind, OS_bind, mlockall.
  rewrite H. reflexivity.
Qed.

Lemma configure_realtime_sched_refused (k : kernel) (p : process) :
  grants_mlockall k = true -> grants_sched k SCHED_FIFO = false ->
  configure_realtime k p
  = (false, {| memory_locked := false; policy := policy p;
               affinity := affinity p;
               trace := ((((trace p ++ [Sys Mlockall])
                           ++ [Stdout OkMemoryLocked])
                          ++ [Sys (SchedSetscheduler SCHED_FIFO RT_PRIORITY)])
                         ++ [Stderr ErrSchedSetscheduler])
                        ++ [Sys Munlockall] |}).
Proof.
  intros H1 H2.
  unfold configure_realtime, mbind, OS_bind, mlockall, sched_setscheduler.
  rewrite H1. cbn. rewrite H2. reflexivity.
Qed.

Lemma configure_realtime_granted (k : kernel) (p : process) :
  grants_mlockall k = true -> grants_sched k SCHED_FIFO = true ->
  configure_realtime k p
  = (true, {| memory_locked := true; policy := (SCHED_FIFO, RT_PRIORITY);
              affinity := if grants_affinity k then Some RT_CPU
                          else affinity p;
              trace := (((((trace p ++ [Sys Mlockall])
                           ++ [Stdout OkMemoryLocked])
                          ++ [Sys (SchedSetscheduler SCHED_FIFO RT_PRIORITY)])
                         ++ [Stdout OkSchedFifo])
                        ++ [Sys (SetAffinity RT_CPU)])
                       ++ [if grants_affinity k then Stdout OkAffinity
                           else Stderr WarnAffinity] |}).
Proof.
  intros H1 H2.
  unfold configure_realtime, mbind, OS_bind, mlockall, sched_setscheduler,
    pthread_setaffinity_np.
  rewrite H1. cbn. rewrite H2. cbn.
  destruct (grants_affinity k); reflexivity.
Qed.

End RtContextFacts.

(** C6: if the memory lock is refused, [configure_realtime] returns
    [false] after the single system call [mlockall], and the process is as
    it was; if the memory lock is granted and the scheduling policy is
    refused, it returns [false] after [mlockall], [sched_setscheduler] and
    [munlockall], in this order, with memory unlocked.  In both cases no
    affinity request is made. *)
Theorem configure_realtime_fatal (k : kernel) (p : process) :
  (grants_mlockall k = false ->
     (configure_realtime k p).1 = false
     /\ syscalls (trace (configure_realtime k p).2)
        = syscalls (trace p) ++ [Mlockall]
     /\ memory_locked (configure_realtime k p).2 = memory_locked p
     /\ policy (configure_realtime k p).2 = policy p
     /\ affinity (configure_realtime k p).2 = affinity p)
  /\ (grants_mlockall k = true -> grants_sched k SCHED_FIFO = false ->
       (configure_realtime k p).1 = false
       /\ syscalls (trace (configure_realtime k p).2)
          = syscalls (trace p)
            ++ [Mlockall; SchedSetscheduler SCHED_FIFO 80; Munlockall]
       /\ memory_locked (configure_realtime k p).2 = false
       /\ policy (configure_realtime k p).2 = policy p
       /\ affinity (configure_realtime k p).2 = affinity p).
Proof.
  split.
  - intros H. rewrite configure_realtime_mlockall_refused by exact H.
    cbn [fst snd memory_locked policy affinity trace].
    rewrite !syscalls_app. cbn. rewrite app_nil_r. done.
  - intros H1 H2. rewrite configure_realtime_sched_refused by assumption.
    cbn [fst snd memory_locked policy affinity trace].
    rewrite !syscalls_app. cbn. rewrite !app_nil_r, <- !app_assoc. done.
Qed.

Lemma configure_realtime_fatal_witness :
  let no_lock := mk_kernel false (fun _ => true) true in
  let no_sched := mk_kernel true (fun _ => false) true in
  syscalls (trace (configure_realtime no_lock initial_process).2) = [Mlockall]
  /\ syscalls (trace (configure_realtime no_sched initial_process).2)
     = [Mlockall; SchedSetscheduler SCHED_FIFO 80; Munlockall]
  /\ memory_locked (configure_realtime no_sched initial_process).2 = false.
Proof.
  cbv zeta. split; [|split].
  - apply (configure_realtime_fatal (mk_kernel false (fun _ => true) true)
             initial_process). reflexivity.
  - apply (configure_realtime_fatal (mk_kernel true (fun _ => false) true)
             initial_process); reflexivity.
  - apply (configure_realtime_fatal (mk_kernel true (fun _ => false) true)
             initial_process); reflexivity.
Defined.

(** C7: [configure_realtime] returns [true] exactly when the memory lock
    and the scheduling policy are both granted, whatever the answer to the
    affinity request; when only the affinity request is refused, the
    warning is the last thing written, the result is [true], and [main]
    goes on to the periodic run and exits with status 0. *)
Theorem configure_realtime_affinity_nonfatal (k : kernel) (p : process) :
  (configure_realtime k p).1
  = (grants_mlockall k && grants_sched k SCHED_FIFO)%bool
  /\ (grants_mlockall k = true -> grants_sched k SCHED_FIFO = true ->
      grants_affinity k = false ->
        (configure_realtime k p).1 = true
        /\ last (trace (configure_realtime k p).2) = Some (Stderr WarnAffinity)
        /\ syscalls (trace (configure_realtime k p).2)
           = syscalls (trace p)
             ++ [Mlockall; SchedSetscheduler SCHED_FIFO 80; SetAffinity 2]
        /\ (main k [] p).1 = 0
        /\ RunPeriodicTask ∈ trace (main k [] p).2).
Proof.
  split.
  - destruct (grants_mlockall k) eqn:H1.
    + destruct (grants_sched k SCHED_FIFO) eqn:H2.
      * by rewrite configure_realtime_granted.
      * by rewrite configure_realtime_sched_refused.
    + by rewrite configure_realtime_mlockall_refused.
  - intros H1 H2 H3.
    unfold main, mbind, OS_bind.
    rewrite configure_realtime_granted by assumption. rewrite H3.
    cbn [fst snd memory_locked policy affinity trace negb].
    split; [done|]. split; [by rewrite last_snoc|]. split.
    + rewrite !syscalls_app. cbn. rewrite !app_nil_r, <- !app_assoc. done.
    + unfold sched_setscheduler, munlockall, emit, record, mret, OS_ret.
      cbn. destruct (grants_sched k SCHED_OTHER); cbn; (split; [done|]);
        rewrite !elem_of_app, !list_elem_of_singleton; tauto.
Qed.

Lemma configure_realtime_affinity_nonfatal_witness :
  let no_pin := mk_kernel true (fun _ => true) false in
  (configure_realtime no_pin initial_process).1 = true
  /\ (main no_pin [] initial_process).1 = 0.
Proof.
  cbv zeta.
  destruct (configure_realtime_affinity_nonfatal
              (mk_kernel true (fun _ => true) false) initial_process)
    as [_ H].
  destruct H as (Hok & _ & _ & Hmain & _); try reflexivity.
  split; [exact Hok | exact Hmain].
Defined.

(** ** The periodic loop: properties *)

Section RunnerFacts.

Context {World : Type}.
Variable clock_gettime : World -> timespec * World.
Variable clock_nanosleep : timespec -> World -> World.

(** A wake at the scheduled instant has latency zero, wrapped count or
    not. *)
Lemma timespec_diff_ns_same (ts : timespec) : timespec_diff_ns ts ts = 0.
Proof.
  unfold timespec_diff_ns. cbv zeta.
  destruct (Z.gtb_spec (total_ns ts) (total_ns ts)); [lia | reflexivity].
Qed.

(** The loop appends one sample per iteration. *)
Lemma periodic_loop_length (n : nat) : forall next latencies w,
  length (periodic_loop clock_gettime clock_nanosleep n next latencies w).1
  = (length latencies + n)%nat.
Proof.
  induction n as [|n IH]; intros next latencies w; simpl.
  - lia.
  - destruct (clock_gettime (clock_nanosleep next w)) as [now w'].
    rewrite IH, length_app. simpl. lia.
Qed.

Lemma periodic_loop_on_schedule (n : nat) :
  wakes_on_schedule clock_gettime clock_nanosleep ->
  forall next latencies w,
    (periodic_loop clock_gettime clock_nanosleep n next latencies w).1
    = latencies ++ replicate n 0.
Proof.
  intros Hwake.
  induction n as [|n IH]; intros next latencies w; simpl.
  - by rewrite app_nil_r.
  - pose proof (Hwake next w) as Hnow.
    destruct (clock_gettime (clock_nanosleep next w)) as [now w'].
    simpl in Hnow. subst now.
    rewrite IH, timespec_diff_ns_same, <- app_assoc. reflexivity.
Qed.

Lemma run_periodic_task_on_schedule (w : World) :
  wakes_on_schedule clock_gettime clock_nanosleep ->
  (run_periodic_task clock_gettime clock_nanosleep w).1
  = replicate (Z.to_nat NUM_ITERATIONS) 0.
Proof.
  intros Hwake. unfold run_periodic_task.
  destruct (clock_gettime w) as [t0 w0].
  by rewrite periodic_loop_on_schedule.
Qed.

End RunnerFacts.

(** C8: when the timestamp read after each wait equals the scheduled wake
    timestamp, the run of 1000 iterations with the 1000-microsecond period
    yields exactly 1000 latencies, all zero; [calculate_stats] on them
    reports [max_ns = 0], and [print_histogram], as [display_results]
    calls it, reports that all latencies are identical. *)
Theorem run_periodic_task_ideal_clock
  {World : Type} (clock_gettime : World -> timespec * World)
  (clock_nanosleep : timespec -> World -> World) (w : World) :
  wakes_on_schedule clock_gettime clock_nanosleep ->
  NUM_ITERATIONS = 1000 /\ PERIOD_US = 1000
  /\ length (run_periodic_task clock_gettime clock_nanosleep w).1 = 1000%nat
  /\ Forall (fun lat => lat = 0)
            (run_periodic_task clock_gettime clock_nanosleep w).1
  /\ max_ns (calculate_stats
               (run_periodic_task clock_gettime clock_nanosleep w).1) = 0
  /\ (forall num_bins,
        print_histogram
          (run_periodic_task clock_gettime clock_nanosleep w).1 num_bins
        = Some (AllIdentical 0))
  /\ snd <$> display_results
               (run_periodic_task clock_gettime clock_nanosleep w).1
     = Some (AllIdentical 0).
Proof.
  intros Hwake.
  rewrite (run_periodic_task_on_schedule _ _ w Hwake).
  split; [reflexivity|]. split; [reflexivity|].
  split; [by rewrite length_replicate|].
  split; [apply Forall_replicate; reflexivity|].
  split; [vm_compute; reflexivity|].
  split; [|vm_compute; reflexivity].
  intros num_bins.
  apply (print_histogram_identical _ num_bins 0).
  - discriminate.
  - apply Forall_replicate. reflexivity.
Qed.

Lemma run_periodic_task_ideal_clock_witness :
  let latencies :=
    (run_periodic_task sim_gettime sim_nanosleep (mk_timespec 12 999500000)).1
  in
  length latencies = 1000%nat
  /\ max_ns (calculate_stats latencies) = 0
  /\ print_histogram latencies 15 = Some (AllIdentical 0).
Proof.
  cbv zeta.
  destruct (run_periodic_task_ideal_clock sim_gettime sim_nanosleep
              (mk_timespec 12 999500000))
    as (_ & _ & Hlen & _ & Hmax & Hhist & _).
  - intros ts now. reflexivity.
  - split; [exact Hlen|]. split; [exact Hmax | exact (Hhist 15)].
Defined.

(** ** Binary64 rounding: properties *)

Section RoundingFacts.

Lemma fexp_unfold (e : Z) : fexp prec emax e = Z.max (e - 53) (-1074).
Proof. reflexivity. Qed.

(** The number of binary digits of a positive integer. *)
Lemma digits2_pos_bounds (p : positive) :
  2 ^ (Z.pos (digits2_pos p) - 1) <= Z.pos p < 2 ^ Z.pos (digits2_pos p).
Proof.
  induction p as [p IH|p IH|]; cbn [digits2_pos].
  - rewrite Pos2Z.inj_succ.
    replace (Z.succ (Z.pos (digits2_pos p)) - 1)
      with (Z.succ (Z.pos (digits2_pos p) - 1)) by lia.
    rewrite !Z.pow_succ_r by lia. lia.
  - rewrite Pos2Z.inj_succ.
    replace (Z.succ (Z.pos (digits2_pos p)) - 1)
      with (Z.succ (Z.pos (digits2_pos p) - 1)) by lia.
    rewrite !Z.pow_succ_r by lia. lia.
  - simpl. lia.
Qed.

(** [iter_pos] is plain iteration. *)
Lemma iter_pos_nat {A : Type} (f : A -> A) (p : positive) : forall x,
  SpecFloat.iter_pos f p x = Nat.iter (Pos.to_nat p) f x.
Proof.
  induction p as [p IH|p IH|]; intros x; cbn [SpecFloat.iter_pos].
  - rewrite !IH, Pos2Nat.inj_xI.
    rewrite <- PeanoNat.Nat.iter_succ_r, <- PeanoNat.Nat.iter_add.
    f_equal. lia.
  - rewrite !IH, Pos2Nat.inj_xO, <- PeanoNat.Nat.iter_add.
    f_equal. lia.
  - reflexivity.
Qed.

(** One right shift of a non-negative mantissa: the quotient by two; the
    round bit is the bit shifted out, and the sticky bit collects the rest. *)
Lemma shr_1_spec (m : Z) (r s : bool) :
  0 <= m ->
  shr_1 (Build_shr_record m r s)
  = Build_shr_record (m / 2) (Z.odd m) (r || s).
Proof.
  intros Hm. destruct m as [|[p|p|]|p]; try lia; cbn [shr_1 Z.odd].
  - reflexivity.
  - f_equal. rewrite Pos2Z.inj_xI.
    apply Z.div_unique with 1; lia.
  - f_equal. rewrite Pos2Z.inj_xO.
    apply Z.div_unique with 0; lia.
  - reflexivity.
Qed.

(** [n] right shifts: the quotient by [2^n], and a round or sticky bit is
    set only if something was lost, now or before. *)
Lemma shr_iter_spec (n : nat) (m : Z) (r s : bool) :
  0 <= m ->
  let mrs := Nat.iter n shr_1 (Build_shr_record m r s) in
  shr_m mrs = m / 2 ^ Z.of_nat n
  /\ (shr_r mrs = true \/ shr_s mrs = true ->
      shr_m mrs * 2 ^ Z.of_nat n < m \/ r = true \/ s = true).
Proof.
  intros Hm. cbv zeta. induction n as [|n [IHm IHrs]].
  - simpl. split; [by rewrite Z.div_1_r | tauto].
  - rewrite PeanoNat.Nat.iter_succ.
    destruct (Nat.iter n shr_1 (Build_shr_record m r s)) as [m' r' s'].
    cbn [shr_m shr_r shr_s] in *.
    assert (Hm' : 0 <= m') by (subst m'; apply Z.div_pos; lia).
    rewrite shr_1_spec by exact Hm'. cbn [shr_m shr_r shr_s].
    rewrite Nat2Z.inj_succ, Z.pow_succ_r by lia.
    assert (Hpow : 0 < 2 ^ Z.of_nat n) by (apply Z.pow_pos_nonneg; lia).
    split.
    + subst m'. rewrite Z.div_div by lia. f_equal. lia.
    + intros Hrs.
      pose proof (Z.div_mod m (2 ^ Z.of_nat n) ltac:(lia)) as Hdm.
      pose proof (Z.mod_pos_bound m (2 ^ Z.of_nat n) ltac:(lia)) as Hmb.
      rewrite <- IHm in Hdm.
      pose proof (Z.div_mod m' 2 ltac:(lia)) as Hdm'.
      pose proof (Z.mod_pos_bound m' 2 ltac:(lia)) as Hmb'.
      destruct Hrs as [Hodd|Hs].
      * left. apply Z.odd_spec in Hodd. destruct Hodd as [k Hk]. nia.
      * apply orb_true_iff in Hs.
        destruct (IHrs Hs) as [Hlt|Hrs0]; [left|by right].
        nia.
Qed.


(** Comparison of [m * 2^e] with an integer, at any common scale. *)
Lemma val_le_scale (m e c K : Z) :
  0 <= K -> 0 <= e + K ->
  val_le m e c <-> m * 2 ^ (e + K) <= c * 2 ^ K.
Proof.
  intros HK HeK. unfold val_le.
  destruct (Z.le_gt_cases 0 e) as [He|He].
  - rewrite (Z.max_r 0 e), (Z.max_l 0 (- e)) by lia.
    rewrite Z.pow_0_r, Z.mul_1_r, Z.pow_add_r, Z.mul_assoc by lia.
    assert (0 < 2 ^ K) by (apply Z.pow_pos_nonneg; lia).
    split; intros H'; nia.
  - rewrite (Z.max_l 0 e), (Z.max_r 0 (- e)) by lia.
    rewrite Z.pow_0_r, Z.mul_1_r.
    replace K with (- e + (e + K)) at 2 by lia.
    rewrite (Z.pow_add_r 2 (- e) (e + K)), Z.mul_assoc by lia.
    assert (0 < 2 ^ (e + K)) by (apply Z.pow_pos_nonneg; lia).
    split; intros H'; nia.
Qed.

Lemma val_lt_scale (m e c K : Z) :
  0 <= K -> 0 <= e + K ->
  val_lt m e c <-> m * 2 ^ (e + K) < c * 2 ^ K.
Proof.
  intros HK HeK. unfold val_lt.
  destruct (Z.le_gt_cases 0 e) as [He|He].
  - rewrite (Z.max_r 0 e), (Z.max_l 0 (- e)) by lia.
    rewrite Z.pow_0_r, Z.mul_1_r, Z.pow_add_r, Z.mul_assoc by lia.
    assert (0 < 2 ^ K) by (apply Z.pow_pos_nonneg; lia).
    split; intros H'; nia.
  - rewrite (Z.max_l 0 e), (Z.max_r 0 (- e)) by lia.
    rewrite Z.pow_0_r, Z.mul_1_r.
    replace K with (- e + (e + K)) at 2 by lia.
    rewrite (Z.pow_add_r 2 (- e) (e + K)), Z.mul_assoc by lia.
    assert (0 < 2 ^ (e + K)) by (apply Z.pow_pos_nonneg; lia).
    split; intros H'; nia.
Qed.

(** Dropping [n] low bits of the mantissa does not raise the value. *)
Lemma val_le_shift (m m' e n c : Z) :
  0 <= n -> 0 <= m' -> m' * 2 ^ n <= m ->
  val_le m e c -> val_le m' (e + n) c.
Proof.
  intros Hn Hm' Hle H.
  set (K := Z.max 0 (- e)).
  rewrite (val_le_scale m e c K) in H by lia.
  rewrite (val_le_scale m' (e + n) c K) by lia.
  replace (e + n + K) with (n + (e + K)) by lia.
  rewrite (Z.pow_add_r 2 n (e + K)), Z.mul_assoc by lia.
  assert (0 < 2 ^ (e + K)) by (apply Z.pow_pos_nonneg; lia).
  nia.
Qed.

Lemma val_lt_shift (m m' e n c : Z) :
  0 <= n -> 0 <= m' ->
  (m' * 2 ^ n < m /\ val_le m e c) \/ (m' * 2 ^ n <= m /\ val_lt m e c) ->
  val_lt m' (e + n) c.
Proof.
  intros Hn Hm' H.
  set (K := Z.max 0 (- e)).
  rewrite (val_le_scale m e c K), (val_lt_scale m e c K) in H by lia.
  rewrite (val_lt_scale m' (e + n) c K) by lia.
  replace (e + n + K) with (n + (e + K)) by lia.
  rewrite (Z.pow_add_r 2 n (e + K)), Z.mul_assoc by lia.
  assert (0 < 2 ^ (e + K)) by (apply Z.pow_pos_nonneg; lia).
  nia.
Qed.

(** What [shr_fexp] does to a non-negative mantissa: some number [n] of
    right shifts; a round or sticky bit of the result means that bits were
    lost or that the input was already inexact; and if a shift took place,
    the new exponent is the one the format assigns. *)
Lemma shr_fexp_spec (mx ex : Z) (lx : location) :
  0 <= mx ->
  exists n : Z,
    0 <= n
    /\ snd (shr_fexp prec emax mx ex lx) = ex + n
    /\ shr_m (fst (shr_fexp prec emax mx ex lx)) = mx / 2 ^ n
    /\ (shr_r (fst (shr_fexp prec emax mx ex lx)) = true
        \/ shr_s (fst (shr_fexp prec emax mx ex lx)) = true ->
        shr_m (fst (shr_fexp prec emax mx ex lx)) * 2 ^ n < mx
        \/ lx <> loc_Exact)
    /\ (0 < n -> ex + n = fexp prec emax (Zdigits2 mx + ex)).
Proof.
  intros Hm. unfold shr_fexp, shr.
  set (d := fexp prec emax (Zdigits2 mx + ex) - ex).
  assert (Hloc : forall b, shr_r (shr_record_of_loc mx lx) = true
                      \/ shr_s (shr_record_of_loc mx lx) = true
                      -> b \/ lx <> loc_Exact).
  { intros b. destruct lx as [|[| |]]; cbn; intros [?|?];
      try discriminate; by right. }
  destruct d as [|p|p] eqn:Hd.
  - exists 0. cbn [fst snd]. rewrite Z.div_1_r.
    split; [lia|]. split; [lia|]. split.
    + by destruct lx as [|[| |]].
    + split; [apply Hloc | lia].
  - exists (Z.pos p). cbn [fst snd].
    rewrite iter_pos_nat.
    replace (shr_record_of_loc mx lx)
      with (Build_shr_record mx (shr_r (shr_record_of_loc mx lx))
              (shr_s (shr_record_of_loc mx lx)))
      by (by destruct lx as [|[| |]]).
    destruct (shr_iter_spec (Pos.to_nat p) mx
                (shr_r (shr_record_of_loc mx lx))
                (shr_s (shr_record_of_loc mx lx)) Hm) as [H1 H2].
    rewrite positive_nat_Z in H1, H2.
    split; [lia|]. split; [lia|]. split; [exact H1|]. split.
    + intros Hrs. destruct (H2 Hrs) as [?|Hrs0]; [by left|].
      right. destruct lx as [|[| |]]; cbn in Hrs0; try done.
      destruct Hrs0; discriminate.
    + intros _. subst d. lia.
  - exists 0. cbn [fst snd]. rewrite Z.div_1_r.
    split; [lia|]. split; [lia|]. split.
    + by destruct lx as [|[| |]].
    + split; [apply Hloc | lia].
Qed.

(** Rounding to nearest even moves the mantissa up by at most one, and
    only when the round bit is set. *)
Lemma round_nearest_even_spec (mrs : shr_record) :
  let m := round_nearest_even (shr_m mrs) (loc_of_shr_record mrs) in
  m = shr_m mrs \/ (m = shr_m mrs + 1 /\ shr_r mrs = true).
Proof.
  destruct mrs as [m [|] [|]]; cbn; try (by left).
  - by right.
  - destruct (Z.even m); [by left | by right].
Qed.


(** Rounding never crosses an integer bound of at most [2^53].  The input
    of [binary_round_aux] is a mantissa [mx], an exponent [ex] and the
    location [lx] of the exact value above [mx * 2^ex]; if the exact value
    is at most [c] (strictly above [mx * 2^ex] and with [ex <= 0] when the
    location is inexact), then the rounded result is a zero or a finite
    number that is at most [c]: not an infinity, not a NaN. *)
Lemma binary_round_aux_le (mx ex : Z) (lx : location) (c : Z) :
  0 <= mx -> 0 <= c <= 2 ^ 53 ->
  val_le mx ex c ->
  (lx <> loc_Exact -> val_lt mx ex c /\ ex <= 0) ->
  binary_round_aux prec emax false mx ex lx = S754_zero false
  \/ exists (m : positive) (e : Z),
       binary_round_aux prec emax false mx ex lx = S754_finite false m e
       /\ val_le (Z.pos m) e c.
Proof.
  intros Hm Hc Hle Hlx. unfold binary_round_aux.
  destruct (shr_fexp_spec mx ex lx Hm) as (n & Hn & He' & Hm' & Hrs & Hfexp).
  destruct (shr_fexp prec emax mx ex lx) as [mrs' e']. cbn [fst snd] in *.
  pose proof (round_nearest_even_spec mrs') as Hround. cbv zeta in Hround.
  set (mr := round_nearest_even (shr_m mrs') (loc_of_shr_record mrs')) in *.
  assert (Hpow : 0 < 2 ^ n) by (apply Z.pow_pos_nonneg; lia).
  assert (Hm'0 : 0 <= shr_m mrs') by (rewrite Hm'; apply Z.div_pos; lia).
  assert (Hm'le : shr_m mrs' * 2 ^ n <= mx)
    by (rewrite Hm', Z.mul_comm; apply Z.mul_div_le; lia).
  assert (Hmr : 0 <= mr /\ val_le mr e' c).
  { destruct Hround as [-> | [-> Hr]].
    - split; [done|]. subst e'. by apply (val_le_shift mx).
    - split; [lia|].
      assert (Hlt : val_lt (shr_m mrs') e' c).
      { subst e'. apply (val_lt_shift mx); [lia | done |].
        destruct (Hrs (or_introl Hr)) as [Hstrict | Hinexact].
        - by left.
        - right. split; [done | by apply Hlx]. }
      destruct (Z.le_gt_cases e' 0) as [He0 | He0].
      + unfold val_le, val_lt in *.
        rewrite (Z.max_l 0 e'), (Z.max_r 0 (- e')) in * by lia.
        rewrite Z.pow_0_r in *. lia.
      + exfalso.
        assert (Hn0 : 0 < n).
        { destruct (Z.eq_dec n 0) as [->|]; [|lia].
          rewrite Z.pow_0_r, Z.mul_1_r in *. rewrite Z.div_1_r in Hm'.
          destruct (Hrs (or_introl Hr)) as [?|Hinexact]; [lia|].
          destruct (Hlx Hinexact). lia. }
        specialize (Hfexp Hn0). rewrite fexp_unfold in Hfexp.
        destruct mx as [|p|p]; [cbn in Hfexp; lia | | lia].
        cbn [Zdigits2] in Hfexp.
        pose proof (digits2_pos_bounds p) as [Hlo _].
        set (d := Z.pos (digits2_pos p)) in *.
        assert (Hnd : n = d - 53) by lia.
        assert (H52 : 2 ^ 52 <= shr_m mrs').
        { rewrite Hm'. apply Z.div_le_lower_bound; [lia|].
          rewrite Z.mul_comm, <- Z.pow_add_r by lia.
          replace (52 + n) with (d - 1) by lia. exact Hlo. }
        unfold val_lt in Hlt.
        rewrite (Z.max_r 0 e'), (Z.max_l 0 (- e')) in Hlt by lia.
        rewrite Z.pow_0_r, Z.mul_1_r in Hlt.
        assert (2 ^ 1 <= 2 ^ e') by (apply Z.pow_le_mono_r; lia).
        change (2 ^ 1) with 2 in *. change (2 ^ 53) with (2 ^ 52 * 2) in Hc.
        nia. }
  destruct Hmr as [Hmr0 Hmrle].
  destruct (shr_fexp_spec mr e' loc_Exact Hmr0)
    as (n2 & Hn2 & He'' & Hm'' & _ & _).
  destruct (shr_fexp prec emax mr e' loc_Exact) as [mrs'' e''].
  cbn [fst snd] in *.
  assert (Hpow2 : 0 < 2 ^ n2) by (apply Z.pow_pos_nonneg; lia).
  assert (Hm''0 : 0 <= shr_m mrs'') by (rewrite Hm''; apply Z.div_pos; lia).
  assert (Hfinal : val_le (shr_m mrs'') e'' c).
  { subst e''. apply (val_le_shift mr); [lia | done | | done].
    rewrite Hm'', Z.mul_comm. apply Z.mul_div_le. lia. }
  destruct (shr_m mrs'') as [|m|m]; [by left | | lia].
  right. exists m, e''. split; [|done].
  destruct (Z.leb_spec e'' (emax - prec)) as [|Hbig]; [reflexivity|].
  exfalso. unfold val_le, emax, prec in *.
  rewrite (Z.max_r 0 e''), (Z.max_l 0 (- e'')) in Hfinal by lia.
  rewrite Z.pow_0_r, Z.mul_1_r in Hfinal.
  assert (2 ^ 54 <= 2 ^ e'') by (apply Z.pow_le_mono_r; lia).
  change (2 ^ 54) with (2 ^ 53 * 2) in *. nia.
Qed.

End RoundingFacts.

Section DoubleFacts.

(** A canonical mantissa has at most 53 bits, and an exponent of at least
    [-1074]. *)
Lemma valid_finite_bounds (s : bool) (m : positive) (e : Z) :
  is_double (S754_finite s m e) ->
  Z.pos m < 2 ^ 53 /\ fexp prec emax (Z.pos (digits2_pos m) + e) = e
  /\ e <= 971.
Proof.
  unfold is_double, valid_binary, bounded, canonical_mantissa.
  intros [Hc He]%andb_true_iff.
  apply Z.eqb_eq in Hc. apply Z.leb_le in He.
  split; [|split; [exact Hc | exact He]].
  rewrite fexp_unfold in Hc.
  pose proof (digits2_pos_bounds m) as [_ Hhi].
  eapply Z.lt_le_trans; [exact Hhi|].
  apply Z.pow_le_mono_r; lia.
Qed.

(** A canonical input is its own rounding. *)
Lemma binary_round_aux_canonical (s : bool) (m : positive) (e : Z) :
  fexp prec emax (Z.pos (digits2_pos m) + e) = e -> e <= 971 ->
  binary_round_aux prec emax s (Z.pos m) e loc_Exact = S754_finite s m e.
Proof.
  intros Hc He. unfold binary_round_aux, shr_fexp.
  cbn [Zdigits2]. rewrite Hc, Z.sub_diag.
  cbn [shr shr_record_of_loc shr_m loc_of_shr_record round_nearest_even].
  cbn [Zdigits2]. rewrite Hc, Z.sub_diag.
  cbn [shr shr_record_of_loc shr_m].
  destruct (Z.leb_spec e (emax - prec)) as [|Hbig]; [reflexivity|].
  unfold emax, prec in Hbig. lia.
Qed.

(** Left shifts of a positive mantissa. *)
Lemma pos_iter_xO (m : positive) (k : positive) :
  Z.pos (Pos.iter xO m k) = Z.pos m * 2 ^ Z.pos k
  /\ Z.pos (digits2_pos (Pos.iter xO m k))
     = Z.pos (digits2_pos m) + Z.pos k.
Proof.
  induction k as [|k IH] using Pos.peano_ind.
  - cbn [Pos.iter digits2_pos]. rewrite Pos2Z.inj_xO, Pos2Z.inj_succ.
    change (2 ^ 1) with 2. lia.
  - rewrite Pos.iter_succ. cbn [digits2_pos].
    rewrite Pos2Z.inj_xO, !Pos2Z.inj_succ, Z.pow_succ_r by lia.
    destruct IH as [-> ->]. lia.
Qed.

(** [static_cast<double>] is exact below [2^53]: the result is the
    canonical finite number with 53 mantissa bits that stands for the
    integer. *)
Lemma of_Z_exact (c : Z) :
  1 <= c < 2 ^ 53 ->
  exists (m : positive) (e : Z),
    of_Z c = S754_finite false m e
    /\ -52 <= e <= 0
    /\ Z.pos m = c * 2 ^ (- e)
    /\ Z.pos (digits2_pos m) = 53.
Proof.
  intros Hc. destruct c as [|p|p]; try lia.
  unfold of_Z, binary_normalize, binary_round.
  pose proof (digits2_pos_bounds p) as [Hlo Hhi].
  set (d := Z.pos (digits2_pos p)) in *.
  assert (Hd : 1 <= d <= 53).
  { split; [lia|].
    destruct (Z.le_gt_cases d 53) as [|Hgt]; [done|].
    assert (2 ^ 53 <= 2 ^ (d - 1)) by (apply Z.pow_le_mono_r; lia). lia. }
  rewrite fexp_unfold. rewrite Z.add_0_r, Z.max_l by lia.
  unfold shl_align. rewrite Z.sub_0_r.
  destruct (d - 53) as [|q|q] eqn:Hq; try lia.
  - rewrite binary_round_aux_canonical.
    + exists p, 0. repeat split; try lia; fold d; lia.
    + fold d. rewrite fexp_unfold. lia.
    + lia.
  - destruct (pos_iter_xO p q) as [Hv Hdig].
    rewrite binary_round_aux_canonical.
    + exists (Pos.iter xO p q), (Z.neg q).
      split; [reflexivity|]. split; [lia|]. split.
      * rewrite Hv. reflexivity.
      * rewrite Hdig. fold d. lia.
    + rewrite Hdig. fold d. rewrite fexp_unfold. lia.
    + lia.
Qed.

(** Converting back such a number gives the integer. *)
Lemma to_size_t_exact (c : Z) (m : positive) (e : Z) :
  0 <= c <= UINT64_MAX -> e <= 0 -> Z.pos m = c * 2 ^ (- e) ->
  to_size_t (S754_finite false m e) = Some c.
Proof.
  intros Hc He Hm. unfold to_size_t.
  assert (Hpow : 0 < 2 ^ (- e)) by (apply Z.pow_pos_nonneg; lia).
  assert (Ht : (if 0 <=? e then Z.pos m * 2 ^ e else Z.pos m / 2 ^ (- e)) = c).
  { destruct (Z.leb_spec 0 e).
    - replace e with 0 in * by lia. cbn in Hm |- *. lia.
    - rewrite Hm. apply Z.div_mul. lia. }
  rewrite Ht. destruct (Z.leb_spec c UINT64_MAX); [reflexivity | lia].
Qed.

(** Truncation of a finite number that is at most [c] is at most [c]. *)
Lemma to_size_t_le (c : Z) (m : positive) (e : Z) :
  0 <= c <= UINT64_MAX -> val_le (Z.pos m) e c ->
  exists t, to_size_t (S754_finite false m e) = Some t /\ 0 <= t <= c.
Proof.
  intros Hc Hle. unfold to_size_t, val_le in *.
  set (t := if 0 <=? e then Z.pos m * 2 ^ e else Z.pos m / 2 ^ (- e)).
  assert (Ht : 0 <= t <= c).
  { subst t. destruct (Z.leb_spec 0 e).
    - rewrite (Z.max_r 0 e), (Z.max_l 0 (- e)) in Hle by lia.
      rewrite Z.pow_0_r, Z.mul_1_r in Hle.
      assert (0 < 2 ^ e) by (apply Z.pow_pos_nonneg; lia). nia.
    - rewrite (Z.max_l 0 e), (Z.max_r 0 (- e)) in Hle by lia.
      rewrite Z.pow_0_r, Z.mul_1_r in Hle.
      assert (0 < 2 ^ (- e)) by (apply Z.pow_pos_nonneg; lia).
      split; [apply Z.div_pos; lia|].
      apply Z.div_le_upper_bound; lia. }
  exists t. split; [|exact Ht].
  destruct (Z.leb_spec t UINT64_MAX); [reflexivity | lia].
Qed.


Lemma val_le_mul (m1 e1 m2 e2 c : Z) :
  0 <= m1 -> 0 <= m2 -> 0 <= c ->
  val_le m1 e1 1 -> val_le m2 e2 c -> val_le (m1 * m2) (e1 + e2) c.
Proof.
  intros Hm1 Hm2 Hc H1 H2.
  set (K1 := Z.max 0 (- e1)). set (K2 := Z.max 0 (- e2)).
  rewrite (val_le_scale m1 e1 1 K1) in H1 by lia.
  rewrite (val_le_scale m2 e2 c K2) in H2 by lia.
  rewrite (val_le_scale (m1 * m2) (e1 + e2) c (K1 + K2)) by lia.
  replace (e1 + e2 + (K1 + K2)) with ((e1 + K1) + (e2 + K2)) by lia.
  rewrite !Z.pow_add_r by lia.
  assert (0 < 2 ^ (e1 + K1)) by (apply Z.pow_pos_nonneg; lia).
  assert (0 < 2 ^ (e2 + K2)) by (apply Z.pow_pos_nonneg; lia).
  assert (0 < 2 ^ K1) by (apply Z.pow_pos_nonneg; lia).
  assert (0 < 2 ^ K2) by (apply Z.pow_pos_nonneg; lia).
  set (a := m1 * 2 ^ (e1 + K1)) in *. set (b := m2 * 2 ^ (e2 + K2)) in *.
  replace (m1 * m2 * (2 ^ (e1 + K1) * 2 ^ (e2 + K2))) with (a * b)
    by (subst a b; ring).
  assert (0 <= a) by (subst a; nia). assert (0 <= b) by (subst b; nia).
  rewrite Z.mul_1_l in H1.
  apply Z.le_trans with (2 ^ K1 * (c * 2 ^ K2)).
  - apply Z.mul_le_mono_nonneg; lia.
  - rewrite (Z.pow_add_r 2 K1 K2) by lia. apply Z.eq_le_incl. ring.
Qed.

(** A product with a factor of at most one stays below an integer bound
    of the other factor. *)
Lemma dmul_le (mx : positive) (ex : Z) (mM : positive) (eM c : Z) :
  0 <= c <= 2 ^ 53 ->
  val_le (Z.pos mx) ex 1 -> val_le (Z.pos mM) eM c ->
  dmul (S754_finite false mx ex) (S754_finite false mM eM) = S754_zero false
  \/ exists (m : positive) (e : Z),
       dmul (S754_finite false mx ex) (S754_finite false mM eM)
       = S754_finite false m e
       /\ val_le (Z.pos m) e c.
Proof.
  intros Hc Hx HM. unfold dmul, SFmul. cbn [xorb].
  apply binary_round_aux_le; [lia | exact Hc | | congruence].
  rewrite Pos2Z.inj_mul. apply val_le_mul; (lia || assumption).
Qed.

Lemma new_location_exact (nb_steps : Z) : new_location nb_steps 0 = loc_Exact.
Proof.
  unfold new_location, new_location_even, new_location_odd.
  by destruct (Z.even nb_steps).
Qed.

(** A quotient of two positive finite numbers, the first at most the
    second, is at most one. *)
Lemma ddiv_le_one (m1 : positive) (e1 : Z) (m2 : positive) (e2 : Z) :
  e1 <= e2 -> Z.pos m1 <= Z.pos m2 * 2 ^ (e2 - e1) ->
  ddiv (S754_finite false m1 e1) (S754_finite false m2 e2) = S754_zero false
  \/ exists (m : positive) (e : Z),
       ddiv (S754_finite false m1 e1) (S754_finite false m2 e2)
       = S754_finite false m e
       /\ val_le (Z.pos m) e 1.
Proof.
  intros He Hm. unfold ddiv, SFdiv, SFdiv_core_binary. cbn [xorb].
  set (e' := Z.min _ (e1 - e2)).
  assert (He' : e' <= e1 - e2) by apply Z.le_min_r.
  set (s := e1 - e2 - e').
  assert (Hs : 0 <= s) by lia.
  set (m' := match s with Z0 => Z.pos m1 | Z.pos _ => Z.shiftl (Z.pos m1) s
                     | Z.neg _ => 0 end).
  assert (Hm' : m' = Z.pos m1 * 2 ^ s).
  { subst m'. destruct s as [|p|p] eqn:Hsp; [|apply Z.shiftl_mul_pow2|]; lia. }
  pose proof (Z_div_mod m' (Z.pos m2) ltac:(lia)) as Hdm.
  destruct (Z.div_eucl m' (Z.pos m2)) as [q r]. destruct Hdm as [Hdm Hr].
  assert (Hps : 0 < 2 ^ s) by (apply Z.pow_pos_nonneg; lia).
  assert (Hpe : 0 < 2 ^ (e2 - e1)) by (apply Z.pow_pos_nonneg; lia).
  assert (Hneg : 2 ^ (- e') = 2 ^ (e2 - e1) * 2 ^ s)
    by (rewrite <- Z.pow_add_r by lia; f_equal; lia).
  assert (Hq : 0 <= q) by nia.
  assert (Hbound : Z.pos m2 * q + r <= Z.pos m2 * 2 ^ (- e')).
  { rewrite <- Hdm, Hm', Hneg. nia. }
  apply binary_round_aux_le; [exact Hq | lia | |].
  - unfold val_le. rewrite (Z.max_l 0 e'), (Z.max_r 0 (- e')) by lia.
    rewrite Z.pow_0_r. nia.
  - intros Hloc. split; [|lia].
    assert (r <> 0) by (intros ->; by rewrite new_location_exact in Hloc).
    unfold val_lt. rewrite (Z.max_l 0 e'), (Z.max_r 0 (- e')) by lia.
    rewrite Z.pow_0_r. nia.
Qed.


(** Multiplying [1.0] by a canonical finite number gives that number. *)
Lemma dmul_one_l (m : positive) (e : Z) :
  fexp prec emax (Z.pos (digits2_pos m) + e) = e -> e <= 971 ->
  dmul (S754_finite false 4503599627370496 (-52)) (S754_finite false m e)
  = S754_finite false m e.
Proof.
  intros Hc He. unfold dmul, SFmul. cbn [xorb].
  change (4503599627370496 * m)%positive with (Pos.iter xO m 52).
  destruct (pos_iter_xO m 52) as [Hv Hd].
  unfold binary_round_aux, shr_fexp. cbn [Zdigits2].
  rewrite Hd.
  replace (Z.pos (digits2_pos m) + 52 + (-52 + e))
    with (Z.pos (digits2_pos m) + e) by lia.
  rewrite Hc. replace (e - (-52 + e)) with 52 by lia.
  cbn [shr shr_record_of_loc].
  change (SpecFloat.iter_pos shr_1 52
            (Build_shr_record (Z.pos (Pos.iter xO m 52)) false false))
    with (Build_shr_record (Z.pos m) false false).
  cbn [shr_m loc_of_shr_record round_nearest_even Zdigits2].
  replace (Z.pos (digits2_pos m) + (-52 + e + 52))
    with (Z.pos (digits2_pos m) + e) by lia.
  rewrite Hc. replace (e - (-52 + e + 52)) with 0 by lia.
  cbn [shr shr_record_of_loc shr_m].
  replace (-52 + e + 52) with e by lia.
  destruct (Z.leb_spec e (emax - prec)) as [|Hbig]; [reflexivity|].
  unfold emax, prec in Hbig. lia.
Qed.

Lemma dleb_finite (m1 : positive) (e1 : Z) (m2 : positive) (e2 : Z) :
  dleb (S754_finite false m1 e1) (S754_finite false m2 e2) = true ->
  e1 < e2 \/ (e1 = e2 /\ Z.pos m1 <= Z.pos m2).
Proof.
  unfold dleb, SFleb, SFcompare.
  destruct (Z.compare_spec e1 e2) as [Heq|Hlt|Hgt]; [|by left|discriminate].
  change (Pos.compare_cont Eq m1 m2) with (Pos.compare m1 m2).
  destruct (Pos.compare_spec m1 m2) as [H|H|H]; try discriminate;
    intros _; right; (split; [exact Heq | lia]).
Qed.

(** The count minus one as a [double], for a vector of at most [2^53]
    elements: zero, or a finite number standing for that integer. *)
Lemma of_Z_le (c : Z) :
  0 <= c < 2 ^ 53 ->
  of_Z c = S754_zero false
  \/ exists (m : positive) (e : Z),
       of_Z c = S754_finite false m e /\ val_le (Z.pos m) e c.
Proof.
  intros Hc. destruct (Z.eq_dec c 0) as [->|Hne]; [by left|]. right.
  destruct (of_Z_exact c ltac:(lia)) as (m & e & Heq & He & Hm & _).
  exists m, e. split; [exact Heq|].
  unfold val_le. rewrite (Z.max_l 0 e), (Z.max_r 0 (- e)) by lia.
  rewrite Z.pow_0_r. lia.
Qed.

(** The index of [calculate_percentile] is an index of the vector, for
    every percentile between 0 and 100 and every vector of at most [2^53]
    elements. *)
Lemma percentile_index_in_bounds (count : Z) (p : double) :
  1 <= count <= 2 ^ 53 ->
  is_double p -> dleb dzero p = true -> dleb p (of_Z 100) = true ->
  exists index : Z,
    percentile_index count p = Some index /\ 0 <= index <= count - 1.
Proof.
  intros Hcount Hvalid H0 H100. unfold percentile_index.
  assert (H53 : 2 ^ 53 = 9007199254740992) by reflexivity.
  rewrite (to_uint64_id (count - 1)) by (unfold UINT64_MAX; lia).
  set (c := count - 1) in *.
  pose proof (of_Z_le c ltac:(lia)) as HM.
  change (of_Z 100) with (S754_finite false 7036874417766400 (-46)) in *.
  assert (Hzero : exists index, to_size_t (S754_zero false) = Some index
                                /\ 0 <= index <= c)
    by (exists 0; split; [reflexivity | lia]).
  destruct p as [s|s| |s m1 e1].
  - destruct HM as [->|(mM & eM & -> & _)]; destruct s; exact Hzero.
  - destruct s; discriminate.
  - discriminate.
  - destruct s; [discriminate|].
    destruct (valid_finite_bounds _ _ _ Hvalid) as (Hm1 & _ & _).
    assert (Hle : e1 <= -46 /\
                  Z.pos m1 <= 7036874417766400 * 2 ^ (-46 - e1)).
    { destruct (dleb_finite _ _ _ _ H100) as [Hlt|[-> Hm]].
      - split; [lia|].
        assert (2 ^ 1 <= 2 ^ (-46 - e1)) by (apply Z.pow_le_mono_r; lia).
        change (2 ^ 1) with 2 in *. lia.
      - split; [lia|]. rewrite Z.sub_diag. lia. }
    destruct Hle as [He1 Hm1le].
    destruct (ddiv_le_one m1 e1 7036874417766400 (-46) He1 Hm1le)
      as [->|(mx & ex & -> & Hx)].
    + destruct HM as [->|(mM & eM & -> & _)]; exact Hzero.
    + destruct HM as [->|(mM & eM & -> & HMle)]; [exact Hzero|].
      destruct (dmul_le mx ex mM eM c ltac:(lia) Hx HMle)
        as [->|(my & ey & -> & Hy)]; [exact Hzero|].
      apply to_size_t_le; [unfold UINT64_MAX; lia | exact Hy].
Qed.

(** At the percentile 100 the index is the last one. *)
Lemma percentile_index_100 (count : Z) :
  1 <= count <= 2 ^ 53 ->
  percentile_index count (of_Z 100) = Some (count - 1).
Proof.
  intros Hcount. unfold percentile_index.
  assert (H53 : 2 ^ 53 = 9007199254740992) by reflexivity.
  rewrite (to_uint64_id (count - 1)) by (unfold UINT64_MAX; lia).
  change (ddiv (of_Z 100) (of_Z 100))
    with (S754_finite false 4503599627370496 (-52)).
  destruct (Z.eq_dec (count - 1) 0) as [->|Hne]; [reflexivity|].
  destruct (of_Z_exact (count - 1) ltac:(lia)) as (m & e & -> & He & Hm & Hd).
  rewrite dmul_one_l.
  - apply to_size_t_exact; [unfold UINT64_MAX; lia | lia | exact Hm].
  - rewrite Hd, fexp_unfold. lia.
  - lia.
Qed.

End DoubleFacts.

(** ** Percentile: properties *)

Section PercentileFacts.

Lemma sort_sorted (l : list Z) : StronglySorted Z.le (sort l).
Proof. unfold sort. apply StronglySorted_merge_sort; apply _. Qed.

Lemma sort_permutation (l : list Z) : sort l ≡ₚ l.
Proof. unfold sort. apply merge_sort_Permutation. Qed.

Lemma sort_length (l : list Z) : length (sort l) = length l.
Proof. apply Permutation_length, sort_permutation. Qed.

(** The last element of the sorted vector is the maximum. *)
Lemma sort_last_max (l : list Z) :
  l <> [] -> sort l !! (length l - 1)%nat = Some (max_element l).
Proof.
  intros Hne.
  replace (length l - 1)%nat with (pred (length (sort l)))
    by (rewrite sort_length; lia).
  rewrite <- last_lookup.
  destruct (last (sort l)) as [x|] eqn:Hlast.
  - f_equal. pose proof Hlast as Hx. apply last_Some in Hx as [l' Hl'].
    assert (Hin : x ∈ l).
    { rewrite <- (sort_permutation l), Hl', elem_of_app.
      right. apply list_elem_of_here. }
    assert (Hmax : max_element l ∈ sort l)
      by (rewrite (sort_permutation l); by apply max_element_in).
    pose proof (max_element_ge _ _ Hin).
    rewrite Hl' in Hmax. apply elem_of_app in Hmax as [Hmax|Hmax].
    + pose proof (sort_sorted l) as Hs. rewrite Hl' in Hs.
      pose proof (StronglySorted_app_1_elem_of Z.le l' [x] _ x Hs Hmax
                    (list_elem_of_here _ _)).
      lia.
    + apply list_elem_of_singleton in Hmax. lia.
  - apply last_None in Hlast.
    pose proof (sort_length l) as Hlen. rewrite Hlast in Hlen.
    destruct l; [done | discriminate].
Qed.

(** [calculate_percentile] on a non-empty vector, once the index is known
    to be in range. *)
Lemma calculate_percentile_at (latencies : list Z) (p : double) (index : Z) :
  latencies <> [] ->
  percentile_index (Z.of_nat (length latencies)) p = Some index ->
  0 <= index <= Z.of_nat (length latencies) - 1 ->
  exists value : Z,
    sort latencies !! Z.to_nat index = Some value
    /\ calculate_percentile latencies p = Some (value, sort latencies).
Proof.
  intros Hne Hidx Hrange.
  destruct (lookup_lt_is_Some_2 (sort latencies) (Z.to_nat index))
    as [value Hv]; [rewrite sort_length; lia|].
  exists value. split; [exact Hv|].
  unfold calculate_percentile. destruct latencies as [|x l]; [done|].
  cbv zeta. rewrite sort_length, Hidx. cbn [mbind option_bind].
  rewrite Hv. reflexivity.
Qed.

End PercentileFacts.

(** C5 (as amended): for every non-empty vector of at most [2^53] samples
    and every [double] percentile between 0 and 100,
    [calculate_percentile] sorts the vector ascending in place and returns
    the element at the index obtained by truncating the double-precision
    product [(p / 100.0) * (count - 1)], which is an index of the vector:
    a nearest-rank percentile, not an interpolated one.  On
    [100, 200, 300, 400] with [p = 50] the index is 1 and the result
    200. *)
Theorem calculate_percentile_nearest_rank :
  (forall (latencies : list Z) (p : double),
     latencies <> [] ->
     Z.of_nat (length latencies) <= 2 ^ 53 ->
     is_double p -> dleb dzero p = true -> dleb p (of_Z 100) = true ->
     exists index value : Z,
       to_size_t (dmul (ddiv p (of_Z 100))
                       (of_Z (Z.of_nat (length latencies) - 1)))
       = Some index
       /\ 0 <= index <= Z.of_nat (length latencies) - 1
       /\ calculate_percentile latencies p = Some (value, sort latencies)
       /\ sort latencies !! Z.to_nat index = Some value
       /\ StronglySorted Z.le (sort latencies)
       /\ sort latencies ≡ₚ latencies)
  /\ to_size_t (dmul (ddiv (of_Z 50) (of_Z 100)) (of_Z (4 - 1))) = Some 1
  /\ exact_index 4 50 = 1
  /\ calculate_percentile [100; 200; 300; 400] (of_Z 50)
     = Some (200, [100; 200; 300; 400]).
Proof.
  split; [|repeat split; vm_compute; reflexivity].
  intros latencies p Hne Hlen Hvalid H0 H100.
  assert (Hpos : 1 <= Z.of_nat (length latencies))
    by (destruct latencies; [done | simpl; lia]).
  destruct (percentile_index_in_bounds (Z.of_nat (length latencies)) p)
    as (index & Hidx & Hrange); try done.
  destruct (calculate_percentile_at latencies p index Hne Hidx Hrange)
    as (value & Hv & Hcalc).
  exists index, value.
  split.
  { unfold percentile_index in Hidx.
    assert (H53 : 2 ^ 53 = 9007199254740992) by reflexivity.
    rewrite to_uint64_id in Hidx by (unfold UINT64_MAX; lia). exact Hidx. }
  split; [exact Hrange|]. split; [exact Hcalc|]. split; [exact Hv|].
  split; [apply sort_sorted | apply sort_permutation].
Qed.

Lemma calculate_percentile_nearest_rank_witness :
  exists index value : Z,
    0 <= index <= 2
    /\ calculate_percentile [30; 10; 20] (of_Z 75) = Some (value, [10; 20; 30])
    /\ [10; 20; 30] !! Z.to_nat index = Some value.
Proof.
  destruct calculate_percentile_nearest_rank as [H _].
  destruct (H [30; 10; 20] (of_Z 75))
    as (index & value & _ & Hrange & Hcalc & Hv & _);
    try (vm_compute; congruence).
  exists index, value. split; [exact Hrange|].
  split; [exact Hcalc | exact Hv].
Defined.

(** C5, counterexample: for the 101 samples [0, 1, ..., 100] and the
    percentile 29, the exact value of [(29 / 100) * 100] is 29, but the
    double-precision product is just below 29 and truncates to 28: the
    element returned is the one at index 28, not the one at index
    [floor((p / 100) * (count - 1)) = 29].  And for a vector of
    [2^53 + 4] elements the index at the percentile 100 is [count]: there
    is no element to return. *)
Lemma calculate_percentile_not_exact_floor :
  (let latencies := seqZ 0 101 in
   is_double (of_Z 29)
   /\ dleb dzero (of_Z 29) = true /\ dleb (of_Z 29) (of_Z 100) = true
   /\ exact_index (Z.of_nat (length latencies)) 29 = 29
   /\ sort latencies !! Z.to_nat 29 = Some 29
   /\ percentile_index (Z.of_nat (length latencies)) (of_Z 29) = Some 28
   /\ calculate_percentile latencies (of_Z 29) = Some (28, latencies))
  /\ (let count := 2 ^ 53 + 4 in
      count <= UINT64_MAX
      /\ exact_index count 100 = count - 1
      /\ percentile_index count (of_Z 100) = Some count).
Proof. cbv zeta. repeat split; vm_compute; congruence. Qed.

(** C10: for every non-empty vector and every [double] percentile [p]
    with [0 <= p <= 100], the index computed by [calculate_percentile] is
    at most [count - 1], the element access is within bounds and the call
    returns that element of the sorted vector; for [p = 100] it returns
    the maximum.  The vector is one that memory can hold: at most [2^53]
    samples of 8 bytes, that is 64 PiB, more than the whole address space
    of the target. *)
Theorem calculate_percentile_in_bounds (latencies : list Z) (p : double) :
  latencies <> [] ->
  Z.of_nat (length latencies) <= 2 ^ 53 ->
  is_double p -> dleb dzero p = true -> dleb p (of_Z 100) = true ->
  (exists index value : Z,
     percentile_index (Z.of_nat (length latencies)) p = Some index
     /\ 0 <= index <= Z.of_nat (length latencies) - 1
     /\ sort latencies !! Z.to_nat index = Some value
     /\ calculate_percentile latencies p = Some (value, sort latencies))
  /\ percentile_index (Z.of_nat (length latencies)) (of_Z 100)
     = Some (Z.of_nat (length latencies) - 1)
  /\ calculate_percentile latencies (of_Z 100)
     = Some (max_element latencies, sort latencies).
Proof.
  intros Hne Hlen Hvalid H0 H100.
  assert (Hpos : 1 <= Z.of_nat (length latencies))
    by (destruct latencies; [done | simpl; lia]).
  split; [|split].
  - destruct (percentile_index_in_bounds (Z.of_nat (length latencies)) p)
      as (index & Hidx & Hrange); try done.
    destruct (calculate_percentile_at latencies p index Hne Hidx Hrange)
      as (value & Hv & Hcalc).
    by exists index, value.
  - apply percentile_index_100. lia.
  - pose proof (percentile_index_100 (Z.of_nat (length latencies))
                  ltac:(lia)) as Hidx.
    destruct (calculate_percentile_at latencies (of_Z 100) _ Hne Hidx
                ltac:(lia)) as (value & Hv & Hcalc).
    rewrite Hcalc. do 2 f_equal.
    replace (Z.to_nat (Z.of_nat (length latencies) - 1))
      with (length latencies - 1)%nat in Hv by lia.
    rewrite sort_last_max in Hv by exact Hne. congruence.
Qed.

Lemma calculate_percentile_in_bounds_witness :
  calculate_percentile [30; 10; 20] (of_Z 100) = Some (30, [10; 20; 30]).
Proof.
  apply (calculate_percentile_in_bounds [30; 10; 20] (of_Z 100));
    vm_compute; congruence.
Defined.

(** * Part III: further properties of the code *)

(** ** Time arithmetic *)

Section TimeMore.

(** [timespec_add_us] in closed form, for any non-negative [tv_nsec],
    normalised or not. *)
Lemma timespec_add_us_closed (ts : timespec) (us : Z) :
  0 <= tv_nsec ts -> is_long (tv_sec ts) -> 0 <= us ->
  tv_nsec ts + us * 1000 <= LONG_MAX ->
  tv_sec ts + (tv_nsec ts + us * 1000) / NSEC_PER_SEC <= LONG_MAX ->
  timespec_add_us ts us
  = {| tv_sec := tv_sec ts + (tv_nsec ts + us * 1000) / NSEC_PER_SEC;
       tv_nsec := (tv_nsec ts + us * 1000) mod NSEC_PER_SEC |}.
Proof.
  unfold NSEC_PER_SEC. intros Hn Hs Hus Hfit Hroom.
  unfold timespec_add_us.
  rewrite (to_uint64_id (us * 1000)) by (unfold UINT64_MAX, LONG_MAX in *; lia).
  rewrite (to_long_id (us * 1000))
    by (unfold is_long, LONG_MIN, LONG_MAX in *; lia).
  rewrite (to_long_id (tv_nsec ts + us * 1000))
    by (unfold is_long, LONG_MIN, LONG_MAX in *; lia).
  set (n := tv_nsec ts + us * 1000) in *.
  assert (Hq : 0 <= n / 1000000000) by (apply Z.div_pos; lia).
  rewrite (carry_loop_spec (Z.to_nat (n / 1000000000)));
    unfold NSEC_PER_SEC; cbn [tv_sec tv_nsec];
    rewrite ?Z2Nat.id by lia; try lia; try assumption.
  reflexivity.
Qed.

End TimeMore.

(** X1: of the two differences between two timestamps at most one is not
    zero, whatever the timestamps; both are zero exactly when the two
    64-bit nanosecond counts are equal. *)
Theorem timespec_diff_ns_one_direction (a b : timespec) :
  (timespec_diff_ns a b = 0 \/ timespec_diff_ns b a = 0)
  /\ (timespec_diff_ns a b = 0 /\ timespec_diff_ns b a = 0
      <-> total_ns a = total_ns b).
Proof.
  unfold timespec_diff_ns. cbv zeta.
  pose proof (to_uint64_range (total_ns a)) as Ha.
  pose proof (to_uint64_range (total_ns b)) as Hb.
  assert (Ha' : 0 <= total_ns a <= UINT64_MAX)
    by (unfold total_ns; apply to_uint64_range).
  assert (Hb' : 0 <= total_ns b <= UINT64_MAX)
    by (unfold total_ns; apply to_uint64_range).
  destruct (Z.gtb_spec (total_ns b) (total_ns a)) as [Hba|Hba];
    destruct (Z.gtb_spec (total_ns a) (total_ns b)) as [Hab|Hab];
    try lia.
  - rewrite (to_uint64_id (total_ns b - total_ns a)) by lia.
    split; [by right | lia].
  - rewrite (to_uint64_id (total_ns a - total_ns b)) by lia.
    split; [by left | lia].
Qed.

(** X2: differences add up along a chain of three instants in order, when
    the instants fit 64 unsigned bits. *)
Theorem timespec_diff_ns_additive (a b c : timespec) :
  nsec_ok a -> nsec_ok b -> nsec_ok c ->
  fits_uint64 a -> fits_uint64 b -> fits_uint64 c ->
  instant_ns a <= instant_ns b -> instant_ns b <= instant_ns c ->
  timespec_diff_ns a c = timespec_diff_ns a b + timespec_diff_ns b c.
Proof.
  intros Ha Hb Hc Hfa Hfb Hfc Hab Hbc.
  unfold timespec_diff_ns. cbv zeta.
  rewrite !total_ns_exact by assumption.
  destruct Hfa as [Hsa Hfa], Hfb as [_ Hfb], Hfc as [_ Hfc].
  assert (0 <= instant_ns a)
    by (destruct Ha; unfold instant_ns, NSEC_PER_SEC in *; lia).
  destruct (Z.gtb_spec (instant_ns c) (instant_ns a));
    destruct (Z.gtb_spec (instant_ns b) (instant_ns a));
    destruct (Z.gtb_spec (instant_ns c) (instant_ns b));
    rewrite ?to_uint64_id by lia; lia.
Qed.

Lemma timespec_diff_ns_additive_witness :
  timespec_diff_ns (mk_timespec 1 999999000) (mk_timespec 3 5)
  = timespec_diff_ns (mk_timespec 1 999999000) (mk_timespec 2 100)
    + timespec_diff_ns (mk_timespec 2 100) (mk_timespec 3 5).
Proof.
  apply timespec_diff_ns_additive; vm_compute; repeat split; congruence.
Defined.

(** X3: measuring from a timestamp to the same timestamp advanced by
    [timespec_add_us] gives back the period in nanoseconds, and measuring
    the other way gives zero. *)
Theorem timespec_diff_ns_add_us (ts : timespec) (us : Z) :
  nsec_ok ts -> 0 <= tv_sec ts -> 0 <= us ->
  tv_nsec ts + us * 1000 <= LONG_MAX ->
  instant_ns ts + us * 1000 <= UINT64_MAX ->
  timespec_diff_ns ts (timespec_add_us ts us) = us * 1000
  /\ timespec_diff_ns (timespec_add_us ts us) ts = 0.
Proof.
  intros Hn Hs Hus Hfit Hmax.
  pose proof Hn as [Hn0 Hn1]. unfold NSEC_PER_SEC in Hn1.
  set (n := tv_nsec ts + us * 1000) in *.
  pose proof (Z.div_mod n 1000000000 ltac:(lia)) as Hdm.
  pose proof (Z.mod_pos_bound n 1000000000 ltac:(lia)) as Hmb.
  assert (Hq : 0 <= n / 1000000000) by (apply Z.div_pos; lia).
  assert (Hi : instant_ns ts = tv_sec ts * 1000000000 + tv_nsec ts)
    by reflexivity.
  assert (Hroom : tv_sec ts + n / 1000000000 <= 18446744073)
    by (unfold UINT64_MAX in Hmax; subst n; lia).
  rewrite timespec_add_us_closed;
    [| lia | unfold is_long, LONG_MIN, LONG_MAX; lia | lia | exact Hfit
     | unfold NSEC_PER_SEC, LONG_MAX; fold n; lia].
  unfold NSEC_PER_SEC. fold n.
  set (r := {| tv_sec := tv_sec ts + n / 1000000000;
               tv_nsec := n mod 1000000000 |}).
  assert (Hr : instant_ns r = instant_ns ts + us * 1000)
    by (unfold instant_ns, NSEC_PER_SEC; subst r n; cbn [tv_sec tv_nsec];
        lia).
  assert (Hrok : nsec_ok r) by (unfold nsec_ok, NSEC_PER_SEC; subst r; cbn; lia).
  assert (Hrf : fits_uint64 r)
    by (unfold fits_uint64; subst r; cbn [tv_sec]; split; [lia|];
        rewrite Hr; exact Hmax).
  assert (Htf : fits_uint64 ts) by (unfold fits_uint64; split; lia).
  unfold timespec_diff_ns. cbv zeta.
  rewrite !total_ns_exact by assumption. rewrite Hr.
  destruct (Z.gtb_spec (instant_ns ts + us * 1000) (instant_ns ts));
    destruct (Z.gtb_spec (instant_ns ts) (instant_ns ts + us * 1000));
    rewrite ?to_uint64_id by lia; lia.
Qed.

Lemma timespec_diff_ns_add_us_witness :
  timespec_diff_ns (mk_timespec 5 999999000)
    (timespec_add_us (mk_timespec 5 999999000) 3500000) = 3500000 * 1000
  /\ timespec_diff_ns (timespec_add_us (mk_timespec 5 999999000) 3500000)
       (mk_timespec 5 999999000) = 0.
Proof.
  apply (timespec_diff_ns_add_us (mk_timespec 5 999999000) 3500000);
    vm_compute; repeat split; congruence.
Defined.

(** X4: two advances in a row are one advance by the sum of the periods. *)
Theorem timespec_add_us_additive (ts : timespec) (us1 us2 : Z) :
  nsec_ok ts -> is_long (tv_sec ts) -> 0 <= us1 -> 0 <= us2 ->
  tv_nsec ts + (us1 + us2) * 1000 <= LONG_MAX ->
  tv_sec ts + (tv_nsec ts + (us1 + us2) * 1000) / NSEC_PER_SEC <= LONG_MAX ->
  timespec_add_us (timespec_add_us ts us1) us2
  = timespec_add_us ts (us1 + us2).
Proof.
  unfold nsec_ok, NSEC_PER_SEC. intros Hn Hs H1 H2 Hfit Hroom.
  set (n1 := tv_nsec ts + us1 * 1000).
  set (n := tv_nsec ts + (us1 + us2) * 1000) in *.
  assert (Hn1 : 0 <= n1 <= n) by (subst n1 n; lia).
  pose proof (Z.div_mod n1 1000000000 ltac:(lia)) as Hdm1.
  pose proof (Z.mod_pos_bound n1 1000000000 ltac:(lia)) as Hmb1.
  assert (Hq1 : 0 <= n1 / 1000000000 <= n / 1000000000)
    by (split; [apply Z.div_pos; lia | apply Z.div_le_mono; lia]).
  rewrite (timespec_add_us_closed ts us1);
    [| lia | exact Hs | lia | fold n1; lia
     | unfold NSEC_PER_SEC; fold n1; lia].
  unfold NSEC_PER_SEC. fold n1.
  set (n2 := n1 mod 1000000000 + us2 * 1000).
  assert (Hsplit : n = n1 / 1000000000 * 1000000000 + n2)
    by (subst n n1 n2; lia).
  assert (Hdiv : n / 1000000000 = n1 / 1000000000 + n2 / 1000000000).
  { rewrite Hsplit, Z.add_comm, Z.div_add by lia. lia. }
  assert (Hmod : n mod 1000000000 = n2 mod 1000000000)
    by (rewrite Hsplit, Z.add_comm, Z.mod_add by lia; reflexivity).
  rewrite timespec_add_us_closed; cbn [tv_sec tv_nsec]; fold n2;
    unfold NSEC_PER_SEC;
    [| lia | unfold is_long, LONG_MIN, LONG_MAX in *; lia | lia
     | subst n2; lia | lia].
  rewrite (timespec_add_us_closed ts (us1 + us2));
    [| lia | exact Hs | lia | fold n; lia | unfold NSEC_PER_SEC; fold n; lia].
  unfold NSEC_PER_SEC. fold n. f_equal; lia.
Qed.

Lemma timespec_add_us_additive_witness :
  timespec_add_us (timespec_add_us (mk_timespec 5 999999000) 1500000) 2000000
  = timespec_add_us (mk_timespec 5 999999000) (1500000 + 2000000).
Proof.
  apply (timespec_add_us_additive (mk_timespec 5 999999000));
    vm_compute; repeat split; congruence.
Defined.

(** X5: the loop of [timespec_add_us] only carries upward.  A sub-second
    part of one second or more on entry is normalised as well, but when
    the sum of [tv_nsec] and the period is negative the result keeps that
    negative [tv_nsec] and [tv_sec] is not touched. *)
Theorem timespec_add_us_carries_up_only (ts : timespec) (us : Z) :
  is_long (tv_sec ts) -> 0 <= us -> us * 1000 <= LONG_MAX ->
  LONG_MIN <= tv_nsec ts -> tv_nsec ts + us * 1000 <= LONG_MAX ->
  (0 <= tv_nsec ts ->
   tv_sec ts + (tv_nsec ts + us * 1000) / NSEC_PER_SEC <= LONG_MAX ->
   nsec_ok (timespec_add_us ts us)
   /\ instant_ns (timespec_add_us ts us) = instant_ns ts + us * 1000)
  /\ (tv_nsec ts + us * 1000 < NSEC_PER_SEC ->
      timespec_add_us ts us
      = {| tv_sec := tv_sec ts; tv_nsec := tv_nsec ts + us * 1000 |}).
Proof.
  intros Hs Hus Husl Hmin Hfit. split.
  - intros Hn Hroom.
    rewrite timespec_add_us_closed by assumption.
    unfold nsec_ok, instant_ns, NSEC_PER_SEC in *. cbn [tv_sec tv_nsec].
    pose proof (Z.div_mod (tv_nsec ts + us * 1000) 1000000000 ltac:(lia)).
    pose proof (Z.mod_pos_bound (tv_nsec ts + us * 1000) 1000000000
                  ltac:(lia)).
    split; lia.
  - unfold NSEC_PER_SEC. intros Hlt. unfold timespec_add_us.
    rewrite (to_uint64_id (us * 1000))
      by (unfold UINT64_MAX, LONG_MAX in *; lia).
    rewrite (to_long_id (us * 1000))
      by (unfold is_long, LONG_MIN, LONG_MAX in *; lia).
    rewrite (to_long_id (tv_nsec ts + us * 1000))
      by (unfold is_long, LONG_MIN, LONG_MAX in *; lia).
    apply carry_loop_exit. cbn [tv_nsec]. lia.
Qed.

Lemma timespec_add_us_carries_up_only_witness :
  nsec_ok (timespec_add_us (mk_timespec 7 2500000000) 0)
  /\ timespec_add_us (mk_timespec 7 2500000000) 0 = mk_timespec 9 500000000
  /\ timespec_add_us (mk_timespec 7 (-5000)) 2 = mk_timespec 7 (-3000).
Proof.
  split; [|split].
  - apply (timespec_add_us_carries_up_only (mk_timespec 7 2500000000) 0);
      vm_compute; repeat split; congruence.
  - vm_compute. reflexivity.
  - apply (timespec_add_us_carries_up_only (mk_timespec 7 (-5000)) 2);
      vm_compute; repeat split; congruence.
Defined.

(** ** Statistics and percentile *)

Section StatsMore.

(** The first element of the sorted vector is the minimum. *)
Lemma sort_head_min (l : list Z) :
  l <> [] -> sort l !! 0%nat = Some (min_element l).
Proof.
  intros Hne.
  destruct (sort l) as [|x s] eqn:Hs.
  - pose proof (sort_length l) as Hlen. rewrite Hs in Hlen.
    destruct l; [done | discriminate].
  - cbn. f_equal.
    assert (Hin : x ∈ l)
      by (rewrite <- (sort_permutation l), Hs; apply list_elem_of_here).
    assert (Hmin : min_element l ∈ x :: s)
      by (rewrite <- Hs, (sort_permutation l); by apply min_element_in).
    pose proof (min_element_le _ _ Hin).
    apply elem_of_cons in Hmin as [Hmin|Hmin]; [lia|].
    pose proof (sort_sorted l) as Hsorted. rewrite Hs in Hsorted.
    apply StronglySorted_inv in Hsorted as [_ Hall].
    rewrite Forall_forall in Hall. specialize (Hall _ Hmin). lia.
Qed.

(** Sorting a sorted vector changes nothing. *)
Lemma sort_idempotent (l : list Z) : sort (sort l) = sort l.
Proof.
  apply (StronglySorted_unique Z.le).
  - apply sort_sorted.
  - apply sort_sorted.
  - apply sort_permutation.
Qed.

End StatsMore.

(** X6: on a non-empty vector the [min_ns] and [max_ns] of
    [calculate_stats] are samples of the vector and every sample lies
    between them. *)
Theorem calculate_stats_min_max (latencies : list Z) :
  latencies <> [] ->
  min_ns (calculate_stats latencies) ∈ latencies
  /\ max_ns (calculate_stats latencies) ∈ latencies
  /\ (forall lat, lat ∈ latencies ->
        min_ns (calculate_stats latencies) <= lat
        <= max_ns (calculate_stats latencies)).
Proof.
  intros Hne.
  assert (Hmin : min_ns (calculate_stats latencies) = min_element latencies)
    by (destruct latencies; [done | reflexivity]).
  assert (Hmax : max_ns (calculate_stats latencies) = max_element latencies)
    by (destruct latencies; [done | reflexivity]).
  rewrite Hmin, Hmax.
  split; [by apply min_element_in|]. split; [by apply max_element_in|].
  intros lat Hlat. split; [by apply min_element_le | by apply max_element_ge].
Qed.

Lemma calculate_stats_min_max_witness :
  min_ns (calculate_stats [300; 100; 200]) ∈ [300; 100; 200]
  /\ max_ns (calculate_stats [300; 100; 200]) ∈ [300; 100; 200].
Proof.
  destruct (calculate_stats_min_max [300; 100; 200]) as (Hmin & Hmax & _);
    [discriminate|].
  split; [exact Hmin | exact Hmax].
Defined.

(** X7: for every vector of at most [2^53] samples and every [double]
    percentile between 0 and 100, [calculate_percentile] returns: the
    vector it leaves is the ascending rearrangement of the one it was
    given, and on a non-empty vector the value is one of the samples,
    between the minimum and the maximum.  On an empty vector it returns
    0 and leaves the vector empty, whatever the percentile. *)
Theorem calculate_percentile_result (latencies : list Z) (p : double) :
  Z.of_nat (length latencies) <= 2 ^ 53 ->
  is_double p -> dleb dzero p = true -> dleb p (of_Z 100) = true ->
  (exists value : Z,
     calculate_percentile latencies p = Some (value, sort latencies)
     /\ sort latencies ≡ₚ latencies
     /\ StronglySorted Z.le (sort latencies)
     /\ (latencies = [] -> value = 0)
     /\ (latencies <> [] ->
         value ∈ latencies
         /\ min_element latencies <= value <= max_element latencies))
  /\ (forall p' : double, calculate_percentile [] p' = Some (0, [])).
Proof.
  intros Hlen Hvalid H0 H100. split; [|reflexivity].
  destruct latencies as [|x l].
  - exists 0. split; [reflexivity|]. split; [apply sort_permutation|].
    split; [apply sort_sorted|]. split; [done|]. intros Hne. by destruct Hne.
  - assert (Hne : x :: l <> []) by done.
    destruct (percentile_index_in_bounds (Z.of_nat (length (x :: l))) p)
      as (index & Hidx & Hrange);
      [cbn [length] in *; lia | done | done | done |].
    destruct (calculate_percentile_at (x :: l) p index Hne Hidx Hrange)
      as (value & Hv & Hcalc).
    exists value. split; [exact Hcalc|].
    split; [apply sort_permutation|]. split; [apply sort_sorted|].
    split; [discriminate|]. intros _.
    assert (Hin : value ∈ x :: l).
    { rewrite <- (sort_permutation (x :: l)).
      by eapply list_elem_of_lookup_2. }
    split; [exact Hin|].
    split; [by apply min_element_le | by apply max_element_ge].
Qed.

Lemma calculate_percentile_result_witness :
  exists value : Z,
    calculate_percentile [30; 10; 20] (of_Z 75) = Some (value, [10; 20; 30])
    /\ value ∈ [30; 10; 20]
    /\ 10 <= value <= 30.
Proof.
  destruct (calculate_percentile_result [30; 10; 20] (of_Z 75))
    as [(value & Hcalc & _ & _ & _ & Hin) _];
    try (vm_compute; congruence).
  exists value. split; [exact Hcalc|]. by apply Hin.
Defined.

(** X8: the percentile 0 (and the negative zero) returns the minimum, for
    every non-empty vector of at most [2^53] samples. *)
Theorem calculate_percentile_zero (latencies : list Z) (sign : bool) :
  latencies <> [] ->
  Z.of_nat (length latencies) <= 2 ^ 53 ->
  calculate_percentile latencies (S754_zero sign)
  = Some (min_element latencies, sort latencies).
Proof.
  intros Hne Hlen.
  assert (H53 : 2 ^ 53 = 9007199254740992) by reflexivity.
  assert (Hpos : 1 <= Z.of_nat (length latencies))
    by (destruct latencies; [done | cbn [length]; lia]).
  assert (Hidx : percentile_index (Z.of_nat (length latencies))
                   (S754_zero sign) = Some 0).
  { unfold percentile_index.
    rewrite (to_uint64_id (Z.of_nat (length latencies) - 1))
      by (unfold UINT64_MAX; lia).
    change (of_Z 100) with (S754_finite false 7036874417766400 (-46)).
    destruct (of_Z_le (Z.of_nat (length latencies) - 1) ltac:(lia))
      as [->|(m & e & -> & _)]; by destruct sign. }
  destruct (calculate_percentile_at latencies (S754_zero sign) 0 Hne Hidx
              ltac:(lia)) as (value & Hv & Hcalc).
  rewrite Hcalc. do 2 f_equal.
  change (Z.to_nat 0) with 0%nat in Hv.
  rewrite sort_head_min in Hv by exact Hne. congruence.
Qed.

Lemma calculate_percentile_zero_witness :
  calculate_percentile [30; 10; 20] (S754_zero false)
  = Some (10, [10; 20; 30]).
Proof.
  apply (calculate_percentile_zero [30; 10; 20] false);
    vm_compute; congruence.
Defined.

(** X9: a second call on the vector left by [calculate_percentile], with
    the same percentile, returns the same value and leaves the vector as
    it is. *)
Theorem calculate_percentile_again (latencies : list Z) (p : double)
  (value : Z) (sorted : list Z) :
  calculate_percentile latencies p = Some (value, sorted) ->
  calculate_percentile sorted p = Some (value, sorted).
Proof.
  unfold calculate_percentile. destruct latencies as [|x l].
  - intros [= <- <-]. reflexivity.
  - cbv zeta. rewrite sort_length.
    destruct (percentile_index _ p) as [index|] eqn:Hidx; [|discriminate].
    cbn [mbind option_bind].
    destruct (sort (x :: l) !! Z.to_nat index) as [v|] eqn:Hv;
      [|discriminate].
    intros [= <- <-].
    destruct (sort (x :: l)) as [|y s] eqn:Hs.
    + pose proof (sort_length (x :: l)) as Hlen. rewrite Hs in Hlen.
      discriminate.
    + rewrite <- Hs in Hv |- *.
      rewrite sort_idempotent, !sort_length, Hidx.
      cbn [mbind option_bind]. rewrite Hv. reflexivity.
Qed.

Lemma calculate_percentile_again_witness :
  calculate_percentile [10; 20; 30] (of_Z 75) = Some (20, [10; 20; 30]).
Proof.
  apply (calculate_percentile_again [30; 10; 20] (of_Z 75)).
  vm_compute. reflexivity.
Defined.

(** ** Histogram: bins and rows *)

Section RowsFacts.

(** The outcome of [print_histogram] on samples that are not all equal. *)
Lemma print_histogram_bars (latencies : list Z) (num_bins x y : Z) :
  Forall is_uint64 latencies ->
  x ∈ latencies -> y ∈ latencies -> x <> y ->
  1 <= num_bins <= INT_MAX ->
  print_histogram latencies num_bins
  = Some (Bars (bin_width_of (min_element latencies)
                             (max_element latencies) num_bins)
               (count_bins latencies (min_element latencies)
                  (bin_width_of (min_element latencies)
                                (max_element latencies) num_bins)
                  num_bins))
  /\ min_element latencies < max_element latencies
  /\ is_uint64 (min_element latencies) /\ is_uint64 (max_element latencies).
Proof.
  intros Hall Hx Hy Hxy HN.
  assert (Hne : latencies <> []) by (intros ->; by apply elem_of_nil in Hx).
  pose proof (min_element_le _ _ Hx). pose proof (max_element_ge _ _ Hx).
  pose proof (min_element_le _ _ Hy). pose proof (max_element_ge _ _ Hy).
  assert (Hlt : min_element latencies < max_element latencies) by lia.
  rewrite Forall_forall in Hall.
  split; [|split; [exact Hlt|split; apply Hall;
                               [by apply min_element_in
                               | by apply max_element_in]]].
  unfold print_histogram. destruct latencies as [|z l]; [done|].
  destruct (Z.eqb_spec (min_element (z :: l)) (max_element (z :: l))); [lia|].
  destruct (Z.leb_spec num_bins 0); [lia | reflexivity].
Qed.

(** Row [i] of the rendering. *)
Lemma render_rows_lookup (min_lat bin_width : Z) (bins : list Z)
  (num_bins : Z) (i : nat) (row : histogram_row) :
  render_rows min_lat bin_width bins num_bins !! i = Some row
  <-> Z.of_nat i < num_bins
      /\ row = render_row min_lat bin_width bins (max_count_of bins) num_bins
                 (Z.of_nat i).
Proof.
  unfold render_rows. rewrite list_lookup_fmap.
  destruct (seqZ 0 num_bins !! i) as [j|] eqn:Hj; cbn.
  - apply lookup_seqZ in Hj as [-> Hlt]. rewrite Z.add_0_l.
    split; [intros [= <-]; done | intros [_ ->]; done].
  - split; [discriminate|]. intros [Hlt _].
    rewrite (lookup_seqZ_lt 0 num_bins i Hlt) in Hj. discriminate.
Qed.

Lemma render_rows_length (min_lat bin_width : Z) (bins : list Z)
  (num_bins : Z) :
  length (render_rows min_lat bin_width bins num_bins) = Z.to_nat num_bins.
Proof. unfold render_rows. by rewrite length_fmap, length_seqZ. Qed.

(** The counts of the bins are never negative, and the largest one is a
    count of the vector. *)
Lemma count_bins_nonneg (latencies : list Z) min_lat bin_width num_bins :
  1 <= num_bins <= INT_MAX ->
  Z.of_nat (length latencies) <= INT_MAX ->
  Forall (fun c => 0 <= c)
         (count_bins latencies min_lat bin_width num_bins).
Proof.
  intros HN Hlen. apply Forall_lookup. intros i c Hc.
  assert (Hi : (i < Z.to_nat num_bins)%nat).
  { apply lookup_lt_Some in Hc.
    by rewrite (proj1 (count_bins_sum _ min_lat bin_width _ HN Hlen)) in Hc. }
  rewrite <- (Nat2Z.id i) in Hc.
  rewrite count_bins_lookup in Hc by lia.
  injection Hc as <-. lia.
Qed.

(** The bar of a bin with count [c], when [c * 40] fits an [int] and the
    largest count is [M >= 1]. *)
Lemma bar_length_bounds (c M : Z) :
  0 <= c <= M -> 1 <= M -> M * 40 <= INT_MAX ->
  let bar := to_int (Z.quot (to_int (c * max_bar_width)) M) in
  0 <= bar <= 40 /\ (bar = 40 <-> c = M) /\ (bar = 0 <-> c * 40 < M).
Proof.
  unfold max_bar_width, INT_MAX. intros Hc HM Hfit. cbv zeta.
  rewrite (to_int_id (c * 40)) by (unfold is_int, INT_MIN, INT_MAX; lia).
  rewrite Z.quot_div_nonneg by lia.
  assert (Hq : 0 <= c * 40 / M <= 40).
  { split; [apply Z.div_pos; lia|]. apply Z.div_le_upper_bound; nia. }
  rewrite to_int_id by (unfold is_int, INT_MIN, INT_MAX; lia).
  split; [exact Hq|]. split.
  - split.
    + intros H40.
      assert (40 * M <= c * 40); [|lia].
      rewrite <- H40 at 1. rewrite Z.mul_comm. apply Z.mul_div_le. lia.
    + intros ->. rewrite (Z.mul_comm M 40). apply Z.div_mul. lia.
  - split.
    + intros H0. apply Z.div_small_iff in H0; lia.
    + intros Hlt. apply Z.div_small. lia.
Qed.

(** A sample counts in the bin it is assigned to. *)
Lemma samples_in_bin_pos (latencies : list Z) (num_bins lat i : Z) :
  lat ∈ latencies -> assigned_bin latencies num_bins lat = i ->
  1 <= samples_in_bin latencies num_bins i.
Proof.
  intros Hin Hi. unfold samples_in_bin.
  assert (Hf : lat ∈ filter (fun lat =>
                 assigned_bin latencies num_bins lat = i) latencies)
    by (apply list_elem_of_filter; done).
  destruct (filter _ latencies); [by apply elem_of_nil in Hf|].
  cbn [length]. lia.
Qed.

Lemma samples_in_bin_zero (latencies : list Z) (num_bins i : Z) :
  samples_in_bin latencies num_bins i = 0
  <-> forall lat, lat ∈ latencies ->
        assigned_bin latencies num_bins lat <> i.
Proof.
  split.
  - intros H0 lat Hin Hi.
    pose proof (samples_in_bin_pos latencies num_bins lat i Hin Hi). lia.
  - intros Hnone. unfold samples_in_bin.
    destruct (filter _ latencies) as [|lat f] eqn:Hf; [reflexivity|].
    assert (Hin : lat ∈ filter (fun lat =>
                    assigned_bin latencies num_bins lat = i) latencies)
      by (rewrite Hf; apply list_elem_of_here).
    apply list_elem_of_filter in Hin as [Hi Hin]. by destruct (Hnone lat Hin).
Qed.

(** The smallest sample is in the first bin. *)
Lemma min_sample_first_bin (latencies : list Z) (num_bins : Z) :
  1 <= num_bins ->
  assigned_bin latencies num_bins (min_element latencies) = 0.
Proof.
  intros HN. unfold assigned_bin, bin_index. cbv zeta.
  rewrite Z.sub_diag. change (to_uint64 0) with 0.
  rewrite Zdiv_0_l. change (to_int 0) with 0.
  destruct (Z.geb_spec 0 num_bins); [lia | reflexivity].
Qed.

(** What [print_histogram] has computed when it draws bars. *)
Lemma print_histogram_Bars_inv (latencies : list Z) (num_bins w : Z)
  (bins : list Z) :
  print_histogram latencies num_bins = Some (Bars w bins) ->
  latencies <> []
  /\ min_element latencies <> max_element latencies
  /\ 1 <= num_bins
  /\ w = bin_width_of (min_element latencies) (max_element latencies)
                      num_bins
  /\ bins = count_bins latencies (min_element latencies) w num_bins.
Proof.
  unfold print_histogram. destruct latencies as [|z l]; [discriminate|].
  destruct (Z.eqb_spec (min_element (z :: l)) (max_element (z :: l)));
    [discriminate|].
  destruct (Z.leb_spec num_bins 0); [discriminate|].
  intros [= <- <-]. repeat split; (done || lia).
Qed.

(** The rows, when there are any. *)
Lemma histogram_rows_inv (latencies : list Z) (num_bins : Z)
  (rows : list histogram_row) :
  histogram_rows latencies num_bins = Some rows ->
  rows = []
  \/ exists (w : Z) (bins : list Z),
       print_histogram latencies num_bins = Some (Bars w bins)
       /\ rows = render_rows (min_element latencies) w bins num_bins.
Proof.
  unfold histogram_rows.
  destruct (print_histogram latencies num_bins) as [[| |w bins]|] eqn:Hp;
    intros [= <-]; [by left | by left |].
  right. by exists w, bins.
Qed.

End RowsFacts.

(** X10: in the histogram the smallest sample is counted in the first
    bin, so the first bin is never empty; and when the
    range of the samples is at least the bin count (and there are at most
    [2^30] bins) the largest sample is in the last bin. *)
Theorem print_histogram_extreme_bins (latencies : list Z) (num_bins x y : Z) :
  Forall is_uint64 latencies ->
  x ∈ latencies -> y ∈ latencies -> x <> y ->
  1 <= num_bins <= INT_MAX ->
  Z.of_nat (length latencies) <= INT_MAX ->
  assigned_bin latencies num_bins (min_element latencies) = 0
  /\ 1 <= samples_in_bin latencies num_bins 0
  /\ (num_bins <= 2 ^ 30 ->
      num_bins <= max_element latencies - min_element latencies ->
      assigned_bin latencies num_bins (max_element latencies) = num_bins - 1
      /\ 1 <= samples_in_bin latencies num_bins (num_bins - 1)).
Proof.
  intros Hall Hx Hy Hxy HN Hlen.
  destruct (print_histogram_bars latencies num_bins x y Hall Hx Hy Hxy HN)
    as (_ & Hlt & Hmin & Hmax).
  assert (Hne : latencies <> []) by (intros ->; by apply elem_of_nil in Hx).
  pose proof (samples_in_bin_pos latencies num_bins) as Hcount.
  pose proof (min_sample_first_bin latencies num_bins ltac:(lia)) as H0.
  split; [exact H0|].
  split; [apply (Hcount (min_element latencies)); [by apply min_element_in|done]|].
  intros H30 Hrange.
  assert (Hlast : assigned_bin latencies num_bins (max_element latencies)
                  = num_bins - 1).
  { assert (H30' : 2 ^ 30 = 1073741824) by reflexivity.
    rewrite assigned_bin_is_clamp;
      [| exact Hall | by apply max_element_in | lia].
    unfold spec_bin, clamp. cbv zeta.
    set (range := max_element latencies - min_element latencies) in *.
    assert (Hq : 1 <= range / num_bins)
      by (apply Z.div_le_lower_bound; lia).
    rewrite (Z.max_r 1 (range / num_bins)) by lia.
    assert (num_bins <= range / (range / num_bins)).
    { apply Z.div_le_lower_bound; [lia|].
      rewrite Z.mul_comm. apply Z.mul_div_le. lia. }
    lia. }
  split; [exact Hlast|].
  apply (Hcount (max_element latencies)); [by apply max_element_in | done].
Qed.

Lemma print_histogram_extreme_bins_witness :
  1 <= samples_in_bin [100; 200; 300] 15 0
  /\ 1 <= samples_in_bin [100; 200; 300] 15 (15 - 1).
Proof.
  destruct (print_histogram_extreme_bins [100; 200; 300] 15 100 200)
    as (_ & Hfirst & Hlast).
  - repeat constructor; vm_compute; congruence.
  - apply list_elem_of_here.
  - apply list_elem_of_further, list_elem_of_here.
  - lia.
  - vm_compute. split; congruence.
  - vm_compute. congruence.
  - split; [exact Hfirst|]. apply Hlast; vm_compute; congruence.
Defined.

(** X11: the rows of the histogram, for samples that are not all equal
    and few enough that [count * 40] fits an [int]: there is one row per
    bin; the count of row [i] is the number of samples assigned to bin
    [i]; its bar has between 0 and 40 blocks, 40 exactly for the fullest
    bins, so some row has a full bar; a row without samples shows no
    number, and a number is in parentheses exactly when the bar is shorter
    than 3 blocks. *)
Theorem histogram_rows_bars (latencies : list Z) (num_bins x y : Z) :
  Forall is_uint64 latencies ->
  x ∈ latencies -> y ∈ latencies -> x <> y ->
  1 <= num_bins <= INT_MAX ->
  Z.of_nat (length latencies) * 40 <= INT_MAX ->
  exists rows : list histogram_row,
    histogram_rows latencies num_bins = Some rows
    /\ length rows = Z.to_nat num_bins
    /\ (forall (i : nat) (row : histogram_row),
          rows !! i = Some row ->
          row_count row = samples_in_bin latencies num_bins (Z.of_nat i)
          /\ 0 <= bar_length row <= 40
          /\ (bar_length row = 40
              <-> forall j, 0 <= j < num_bins ->
                    samples_in_bin latencies num_bins j <= row_count row)
          /\ label row
             = (if row_count row =? 0 then NoLabel
                else if bar_length row <? 3 then Parenthesised (row_count row)
                else Plain (row_count row)))
    /\ (exists row, row ∈ rows /\ bar_length row = 40).
Proof.
  intros Hall Hx Hy Hxy HN Hlen40.
  assert (Hlen : Z.of_nat (length latencies) <= INT_MAX) by lia.
  destruct (print_histogram_bars latencies num_bins x y Hall Hx Hy Hxy HN)
    as (Hp & Hlt & Hmin & Hmax).
  assert (Hne : latencies <> []) by (intros ->; by apply elem_of_nil in Hx).
  set (min_lat := min_element latencies) in *.
  set (w := bin_width_of min_lat (max_element latencies) num_bins) in *.
  set (bins := count_bins latencies min_lat w num_bins) in *.
  destruct (count_bins_sum latencies min_lat w num_bins HN Hlen)
    as [Hblen Hbsum]. fold bins in Hblen, Hbsum.
  pose proof (count_bins_nonneg latencies min_lat w num_bins HN Hlen)
    as Hbpos. fold bins in Hbpos.
  assert (Hbin : forall j, 0 <= j < num_bins ->
            bins !! Z.to_nat j = Some (samples_in_bin latencies num_bins j)).
  { intros j Hj. unfold samples_in_bin, assigned_bin. fold min_lat w.
    by apply count_bins_lookup. }
  assert (Hbne : bins <> []) by (intros Hnil; rewrite Hnil in Hblen;
                                 cbn in Hblen; lia).
  set (M := max_element bins).
  assert (HMin : M ∈ bins) by (by apply max_element_in).
  assert (HMge : forall c, c ∈ bins -> c <= M)
    by (intros c Hc; by apply max_element_ge).
  assert (HM1 : 1 <= M).
  { pose proof (samples_in_bin_pos latencies num_bins min_lat 0
                  (min_element_in _ Hne)
                  (min_sample_first_bin latencies num_bins ltac:(lia))).
    pose proof (HMge _ (list_elem_of_lookup_2 _ _ _ (Hbin 0 ltac:(lia)))).
    lia. }
  assert (HMsum : M <= Z.of_nat (length latencies)).
  { apply list_elem_of_lookup_1 in HMin as [k Hk].
    rewrite <- Hbsum. by eapply sum_counts_lookup. }
  assert (Hmc : max_count_of bins = M).
  { unfold max_count_of. fold M. destruct (Z.eqb_spec M 0); [lia | done]. }
  exists (render_rows min_lat w bins num_bins).
  split; [unfold histogram_rows; by rewrite Hp|].
  split; [apply render_rows_length|]. split.
  - intros i row [Hi ->]%render_rows_lookup.
    unfold render_row. cbv zeta.
    cbn [row_count bar_length label]. rewrite Hmc.
    pose proof (Hbin (Z.of_nat i) ltac:(lia)) as Hci.
    rewrite !Nat2Z.id in *. rewrite Hci. cbn [default]. unfold id.
    set (c := samples_in_bin latencies num_bins (Z.of_nat i)) in *.
    assert (Hc : 0 <= c <= M).
    { split; [unfold c, samples_in_bin; lia|].
      apply HMge. by eapply list_elem_of_lookup_2. }
    destruct (bar_length_bounds c M Hc HM1 ltac:(unfold INT_MAX in *; lia))
      as (Hbar & H40 & H0).
    set (bar := to_int (Z.quot (to_int (c * max_bar_width)) M)) in *.
    split; [reflexivity|]. split; [exact Hbar|]. split.
    + rewrite H40. split.
      * intros -> j Hj. apply HMge.
        eapply list_elem_of_lookup_2, (Hbin j Hj).
      * intros Hall'.
        apply list_elem_of_lookup_1 in HMin as [k Hk].
        pose proof (lookup_lt_Some _ _ _ Hk) as Hklt. rewrite Hblen in Hklt.
        pose proof (Hbin (Z.of_nat k) ltac:(lia)) as Hk'.
        rewrite Nat2Z.id, Hk in Hk'. injection Hk' as Hk'.
        specialize (Hall' (Z.of_nat k) ltac:(lia)). lia.
    + unfold label_of.
      destruct (Z.eqb_spec c 0) as [->|Hc0].
      * by destruct (bar <? 3).
      * destruct (Z.ltb_spec 0 c); [|lia].
        by destruct (bar <? 3).
  - apply list_elem_of_lookup_1 in HMin as [k Hk].
    pose proof (lookup_lt_Some _ _ _ Hk) as Hklt. rewrite Hblen in Hklt.
    exists (render_row min_lat w bins (max_count_of bins) num_bins
              (Z.of_nat k)).
    split.
    + apply (list_elem_of_lookup_2 _ k), render_rows_lookup.
      split; [lia | reflexivity].
    + unfold render_row. cbv zeta. cbn [bar_length].
      rewrite Nat2Z.id, Hk, Hmc. cbn [default]. unfold id.
      apply (bar_length_bounds M M); unfold INT_MAX in *; lia.
Qed.

Lemma histogram_rows_bars_witness :
  exists rows : list histogram_row,
    histogram_rows [100; 200; 300; 110] 3 = Some rows
    /\ length rows = 3%nat
    /\ exists row, row ∈ rows /\ bar_length row = 40.
Proof.
  destruct (histogram_rows_bars [100; 200; 300; 110] 3 100 200)
    as (rows & Hrows & Hlen & _ & Hfull).
  - repeat constructor; vm_compute; congruence.
  - apply list_elem_of_here.
  - apply list_elem_of_further, list_elem_of_here.
  - lia.
  - vm_compute. split; congruence.
  - vm_compute. congruence.
  - exists rows. split; [exact Hrows|]. split; [exact Hlen | exact Hfull].
Defined.

(** X12: the ranges written in front of the rows, for a number of bins
    that is an [int]: the first row starts at the smallest sample (in
    microseconds) and every row starts where the row before it ends,
    also when the unsigned arithmetic wraps around. When the largest
    sample plus the number of bins fits 64 bits nothing wraps: the end of
    a row is not before its start, and when there are at most as many
    bins as nanoseconds between the extreme samples the last row ends at
    or before the largest sample. *)
Theorem histogram_rows_ranges (latencies : list Z) (num_bins : Z)
  (rows : list histogram_row) :
  Forall is_uint64 latencies ->
  num_bins <= INT_MAX ->
  histogram_rows latencies num_bins = Some rows ->
  (forall row, rows !! 0%nat = Some row ->
     range_start_us row = min_element latencies / 1000)
  /\ (forall (i : nat) (row next : histogram_row),
        rows !! i = Some row -> rows !! S i = Some next ->
        range_end_us row = range_start_us next)
  /\ (max_element latencies + num_bins <= UINT64_MAX ->
      (forall row, row ∈ rows -> range_start_us row <= range_end_us row)
      /\ (num_bins <= max_element latencies - min_element latencies ->
          forall row, last rows = Some row ->
            range_end_us row <= max_element latencies / 1000)).
Proof.
  intros Hall HN Hrows.
  destruct (histogram_rows_inv _ _ _ Hrows)
    as [-> | (w & bins & Hp & ->)].
  { split; [intros row [=]|]. split; [intros i row next [=]|].
    intros _. split; [intros row []%elem_of_nil | intros _ row [=]]. }
  destruct (print_histogram_Bars_inv _ _ _ _ Hp)
    as (Hne & Hmm & HN1 & Hw & _).
  pose proof (min_element_in _ Hne) as Hmin_in.
  pose proof (max_element_in _ Hne) as Hmax_in.
  pose proof (min_element_le _ _ Hmax_in) as Hle.
  rewrite Forall_forall in Hall.
  pose proof (Hall _ Hmin_in) as Hmin. pose proof (Hall _ Hmax_in) as Hmax.
  set (min_lat := min_element latencies) in *.
  set (max_lat := max_element latencies) in *.
  rewrite (bin_width_of_max min_lat max_lat num_bins Hmin Hmax Hle
             ltac:(lia)) in Hw.
  split; [|split].
  - intros row [_ ->]%render_rows_lookup. unfold render_row. cbv zeta.
    cbn [range_start_us]. change (to_uint64 (Z.of_nat 0)) with 0.
    rewrite Z.mul_0_l. change (to_uint64 0) with 0. rewrite Z.add_0_r.
    by rewrite to_uint64_id.
  - intros i row next [Hi ->]%render_rows_lookup
      [Hi' ->]%render_rows_lookup.
    unfold render_row. cbv zeta. cbn [range_start_us range_end_us].
    rewrite (to_int_id (Z.of_nat i + 1))
      by (unfold is_int, INT_MIN, INT_MAX in *; lia).
    by replace (Z.of_nat (S i)) with (Z.of_nat i + 1) by lia.
  - intros Hfit.
    assert (Hwpos : 1 <= w) by lia.
    assert (Hspan : num_bins * w <= Z.max num_bins (max_lat - min_lat)).
    { subst w. destruct (Z.max_spec 1 ((max_lat - min_lat) / num_bins))
        as [[_ ->]|[_ ->]]; [|lia].
      pose proof (Z.mul_div_le (max_lat - min_lat) num_bins ltac:(lia)).
      lia. }
    assert (Hrow : forall i, 0 <= i <= num_bins ->
              to_uint64 (min_lat + to_uint64 (to_uint64 i * w))
              = min_lat + i * w
              /\ min_lat + i * w <= min_lat + num_bins * w).
    { intros i Hi. unfold is_uint64, INT_MAX, UINT64_MAX in *.
      assert (i * w <= num_bins * w) by nia.
      rewrite (to_uint64_id i) by (unfold UINT64_MAX; lia).
      rewrite (to_uint64_id (i * w)) by (unfold UINT64_MAX; nia).
      rewrite to_uint64_id by (unfold UINT64_MAX; nia). lia. }
    split.
    + intros row [i [Hi ->]%render_rows_lookup]%list_elem_of_lookup_1.
      unfold render_row. cbv zeta. cbn [range_start_us range_end_us].
      rewrite (to_int_id (Z.of_nat i + 1))
        by (unfold is_int, INT_MIN, INT_MAX in *; lia).
      destruct (Hrow (Z.of_nat i) ltac:(lia)) as [-> _].
      destruct (Hrow (Z.of_nat i + 1) ltac:(lia)) as [-> _].
      apply Z.div_le_mono; nia.
    + intros Hmany row Hlast. rewrite last_lookup, render_rows_length in Hlast.
      apply render_rows_lookup in Hlast as [_ ->].
      unfold render_row. cbv zeta. cbn [range_end_us].
      replace (Z.of_nat (Init.Nat.pred (Z.to_nat num_bins)) + 1)
        with num_bins by lia.
      rewrite (to_int_id num_bins)
        by (unfold is_int, INT_MIN, INT_MAX in *; lia).
      destruct (Hrow num_bins ltac:(lia)) as [-> _].
      apply Z.div_le_mono; lia.
Qed.

Lemma histogram_rows_ranges_witness :
  exists rows : list histogram_row,
    histogram_rows [5000; 9000; 12500; 20000] 4 = Some rows
    /\ (forall (i : nat) (row next : histogram_row),
          rows !! i = Some row -> rows !! S i = Some next ->
          range_end_us row = range_start_us next).
Proof.
  eexists. split; [vm_compute; reflexivity|].
  refine (proj1 (proj2 (histogram_rows_ranges [5000; 9000; 12500; 20000] 4
                          _ _ _ _))).
  - repeat constructor; vm_compute; congruence.
  - vm_compute. congruence.
  - vm_compute. reflexivity.
Defined.

(** X13: the colours of the rows, when twice the number of bins fits an
    [int]: going down the rows the colour only moves from green to yellow
    to red, the last row is always red, and the first row is green
    exactly when there are at least 3 bins. *)
Theorem histogram_rows_colors (latencies : list Z) (num_bins : Z)
  (rows : list histogram_row) :
  2 * num_bins <= INT_MAX ->
  histogram_rows latencies num_bins = Some rows ->
  (forall (i j : nat) (row row' : histogram_row),
     (i <= j)%nat -> rows !! i = Some row -> rows !! j = Some row' ->
     color_rank (bar_color row) <= color_rank (bar_color row'))
  /\ (forall row, last rows = Some row -> bar_color row = RED)
  /\ (forall row, rows !! 0%nat = Some row ->
        (bar_color row = GREEN <-> 3 <= num_bins)).
Proof.
  intros HN Hrows.
  destruct (histogram_rows_inv _ _ _ Hrows)
    as [-> | (w & bins & Hp & ->)].
  { split; [intros i j row row' _ [=]|].
    split; [intros row [=] | intros row [=]]. }
  destruct (print_histogram_Bars_inv _ _ _ _ Hp) as (_ & _ & HN1 & _ & _).
  assert (H2 : to_int (2 * num_bins) = 2 * num_bins)
    by (apply to_int_id; unfold is_int, INT_MIN, INT_MAX in *; lia).
  assert (Hq1 : Z.quot num_bins 3 = num_bins / 3)
    by (apply Z.quot_div_nonneg; lia).
  assert (Hq2 : Z.quot (2 * num_bins) 3 = 2 * num_bins / 3)
    by (apply Z.quot_div_nonneg; lia).
  pose proof (Z.div_mod num_bins 3 ltac:(lia)) as Hd1.
  pose proof (Z.mod_pos_bound num_bins 3 ltac:(lia)) as Hm1.
  pose proof (Z.div_mod (2 * num_bins) 3 ltac:(lia)) as Hd2.
  pose proof (Z.mod_pos_bound (2 * num_bins) 3 ltac:(lia)) as Hm2.
  split; [|split].
  - intros i j row row' Hij [Hi ->]%render_rows_lookup
      [Hj ->]%render_rows_lookup.
    unfold render_row. cbv zeta. cbn [bar_color]. unfold color_of.
    rewrite H2, Hq1, Hq2.
    repeat match goal with
           | |- context [?a <? ?b] => destruct (Z.ltb_spec a b)
           end; cbn [color_rank]; lia.
  - intros row Hlast. rewrite last_lookup, render_rows_length in Hlast.
    apply render_rows_lookup in Hlast as [_ ->].
    unfold render_row. cbv zeta. cbn [bar_color]. unfold color_of.
    rewrite H2, Hq1, Hq2.
    repeat match goal with
           | |- context [?a <? ?b] => destruct (Z.ltb_spec a b)
           end; (reflexivity || lia).
  - intros row [_ ->]%render_rows_lookup.
    unfold render_row. cbv zeta. cbn [bar_color]. unfold color_of.
    rewrite H2, Hq1, Hq2. change (Z.of_nat 0) with 0.
    repeat match goal with
           | |- context [?a <? ?b] => destruct (Z.ltb_spec a b)
           end; split; (done || lia).
Qed.

Lemma histogram_rows_colors_witness :
  exists rows : list histogram_row,
    histogram_rows [5000; 9000; 12500; 20000] 4 = Some rows
    /\ (forall row, last rows = Some row -> bar_color row = RED).
Proof.
  eexists. split; [vm_compute; reflexivity|].
  refine (proj1 (proj2 (histogram_rows_colors [5000; 9000; 12500; 20000] 4
                          _ _ _))).
  - vm_compute. congruence.
  - vm_compute. reflexivity.
Defined.

Section MainFacts.

(** [main] without arguments when the configuration fails. *)
Lemma main_configuration_failed (k : kernel) (p : process) :
  (grants_mlockall k && grants_sched k SCHED_FIFO)%bool = false ->
  main k [] p
  = (1, record (Stderr ErrConfiguration) (configure_realtime k p).2).
Proof.
  intros Hk. unfold main, mbind, OS_bind.
  destruct (grants_mlockall k) eqn:H1.
  - cbn in Hk. rewrite configure_realtime_sched_refused by assumption.
    reflexivity.
  - rewrite configure_realtime_mlockall_refused by assumption. reflexivity.
Qed.

(** [main] without arguments when the configuration succeeds. *)
Lemma main_configured (k : kernel) (p : process) :
  grants_mlockall k = true -> grants_sched k SCHED_FIFO = true ->
  main k [] p
  = (0, {| memory_locked := false;
           policy := if grants_sched k SCHED_OTHER then (SCHED_OTHER, 0)
                     else (SCHED_FIFO, RT_PRIORITY);
           affinity := if grants_affinity k then Some RT_CPU
                       else affinity p;
           trace := trace (configure_realtime k p).2
                    ++ [RunPeriodicTask; DisplayResults;
                        Sys (SchedSetscheduler SCHED_OTHER 0);
                        Sys Munlockall] |}).
Proof.
  intros H1 H2. unfold main, mbind, OS_bind.
  rewrite configure_realtime_granted by assumption.
  unfold sched_setscheduler, munlockall, emit, record, mret, OS_ret.
  cbn [negb fst snd memory_locked policy affinity trace].
  destruct (grants_sched k SCHED_OTHER);
    cbn [negb fst snd memory_locked policy affinity trace];
    by rewrite <- !app_assoc.
Qed.

End MainFacts.

(** X14: [main] called with arguments looks at the first one only: it
    exits with status 0 when that argument is [--help] or [-h] and with
    status 1 otherwise; in both cases the usage text is the last thing
    written, no system call is made and the memory lock, the scheduling
    policy and the affinity of the process are as they were. *)
Theorem main_with_arguments (k : kernel) (arg : string)
  (rest : list string) (p : process) :
  main k (arg :: rest) p = main k [arg] p
  /\ ((main k (arg :: rest) p).1 = 0 <-> arg = "--help"%string \/ arg = "-h"%string)
  /\ ((main k (arg :: rest) p).1 <> 0 -> (main k (arg :: rest) p).1 = 1)
  /\ last (trace (main k (arg :: rest) p).2) = Some (Stdout UsageText)
  /\ syscalls (trace (main k (arg :: rest) p).2) = syscalls (trace p)
  /\ memory_locked (main k (arg :: rest) p).2 = memory_locked p
  /\ policy (main k (arg :: rest) p).2 = policy p
  /\ affinity (main k (arg :: rest) p).2 = affinity p.
Proof.
  split; [reflexivity|].
  unfold main, mbind, OS_bind, emit, record, mret, OS_ret.
  destruct (String.eqb_spec arg "--help") as [->|Hn1].
  - cbn [orb fst snd memory_locked policy affinity trace].
    rewrite last_snoc, syscalls_app. cbn. rewrite app_nil_r.
    repeat split; (done || by left).
  - destruct (String.eqb_spec arg "-h") as [->|Hn2].
    + cbn [orb fst snd memory_locked policy affinity trace].
      rewrite last_snoc, syscalls_app. cbn. rewrite app_nil_r.
      repeat split; (done || by right).
    + cbn [orb fst snd memory_locked policy affinity trace].
      rewrite last_snoc, !syscalls_app. cbn. rewrite !app_nil_r.
      repeat split; try done. by intros [|].
Qed.

Lemma main_with_arguments_witness :
  (main (mk_kernel true (fun _ => true) true) ["--verbose"%string]
        initial_process).1 = 1
  /\ (main (mk_kernel true (fun _ => true) true)
           ["-h"%string; "--verbose"%string] initial_process).1 = 0.
Proof.
  split.
  - apply (main_with_arguments (mk_kernel true (fun _ => true) true)
             "--verbose" [] initial_process).
    vm_compute. congruence.
  - apply (main_with_arguments (mk_kernel true (fun _ => true) true)
             "-h" ["--verbose"%string] initial_process).
    by right.
Defined.

(** X15: [main] called without arguments exits with status 0 exactly
    when the memory lock and the [SCHED_FIFO] policy are granted, and with
    status 1 otherwise.  With status 1 the periodic task did not run, the
    last thing written is the configuration error, and the scheduling
    policy and the affinity are as they were.  With status 0 the system
    calls were, in this order, [mlockall], [sched_setscheduler] to
    [SCHED_FIFO] at priority 80, the affinity request for CPU 2,
    [sched_setscheduler] to [SCHED_OTHER] at priority 0 and [munlockall];
    the results of the last two are not looked at, so the policy at exit
    is [SCHED_OTHER] only if the kernel grants it, and a granted affinity
    stays.  Memory is left locked only if it was locked before and the
    lock was refused. *)
Theorem main_run_and_cleanup (k : kernel) (p : process) :
  ((main k [] p).1 = 0
   <-> grants_mlockall k = true /\ grants_sched k SCHED_FIFO = true)
  /\ ((main k [] p).1 <> 0 ->
        (main k [] p).1 = 1
        /\ last (trace (main k [] p).2) = Some (Stderr ErrConfiguration)
        /\ (exists events, trace (main k [] p).2 = trace p ++ events
                           /\ RunPeriodicTask ∉ events)
        /\ policy (main k [] p).2 = policy p
        /\ affinity (main k [] p).2 = affinity p)
  /\ ((main k [] p).1 = 0 ->
        syscalls (trace (main k [] p).2)
        = syscalls (trace p)
          ++ [Mlockall; SchedSetscheduler SCHED_FIFO 80; SetAffinity 2;
              SchedSetscheduler SCHED_OTHER 0; Munlockall]
        /\ (exists before after,
              trace (main k [] p).2
              = trace p ++ before ++ [RunPeriodicTask; DisplayResults]
                ++ after
              /\ syscalls before
                 = [Mlockall; SchedSetscheduler SCHED_FIFO 80; SetAffinity 2]
              /\ syscalls after
                 = [SchedSetscheduler SCHED_OTHER 0; Munlockall])
        /\ policy (main k [] p).2
           = (if grants_sched k SCHED_OTHER then (SCHED_OTHER, 0)
              else (SCHED_FIFO, 80))
        /\ affinity (main k [] p).2
           = (if grants_affinity k then Some 2 else affinity p))
  /\ memory_locked (main k [] p).2
     = (negb (grants_mlockall k) && memory_locked p)%bool.
Proof.
  destruct (grants_mlockall k && grants_sched k SCHED_FIFO)%bool eqn:Hk.
  - apply andb_true_iff in Hk as [H1 H2].
    rewrite main_configured by assumption.
    rewrite configure_realtime_granted by assumption.
    cbn [fst snd memory_locked policy affinity trace]. rewrite H1.
    split; [done|]. split; [done|]. split; [|done].
    intros _. split.
    + rewrite !syscalls_app. destruct (grants_affinity k); cbn;
        rewrite !app_nil_r, <- !app_assoc; done.
    + split; [|done].
      exists [Sys Mlockall; Stdout OkMemoryLocked;
              Sys (SchedSetscheduler SCHED_FIFO RT_PRIORITY);
              Stdout OkSchedFifo; Sys (SetAffinity RT_CPU);
              if grants_affinity k then Stdout OkAffinity
              else Stderr WarnAffinity],
             [Sys (SchedSetscheduler SCHED_OTHER 0); Sys Munlockall].
      split; [by rewrite <- !app_assoc|].
      split; [|done]. by destruct (grants_affinity k).
  - rewrite main_configuration_failed by assumption.
    cbn [fst snd]. unfold record.
    cbn [memory_locked policy affinity trace]. rewrite last_snoc.
    split; [split; [done | intros [H1 H2]; by rewrite H1, H2 in Hk]|].
    split; [|split; [done|]].
    + intros _. split; [done|]. split; [done|].
      destruct (grants_mlockall k) eqn:H1.
      * cbn in Hk.
        rewrite configure_realtime_sched_refused by assumption.
        cbn [fst snd memory_locked policy affinity trace].
        split; [|done]. eexists. rewrite <- !app_assoc.
        split; [reflexivity|]. cbn. intros Hin.
        repeat (apply elem_of_cons in Hin as [Hin|Hin]; [discriminate|]).
        by apply elem_of_nil in Hin.
      * rewrite configure_realtime_mlockall_refused by assumption.
        cbn [fst snd memory_locked policy affinity trace].
        split; [|done]. eexists. rewrite <- !app_assoc.
        split; [reflexivity|]. cbn. intros Hin.
        repeat (apply elem_of_cons in Hin as [Hin|Hin]; [discriminate|]).
        by apply elem_of_nil in Hin.
    + destruct (grants_mlockall k) eqn:H1.
      * cbn in Hk.
        by rewrite configure_realtime_sched_refused by assumption.
      * by rewrite configure_realtime_mlockall_refused by assumption.
Qed.

Lemma main_run_and_cleanup_witness :
  policy (main (mk_kernel true
                  (fun pol => match pol with
                              | SCHED_FIFO => true
                              | SCHED_OTHER => false
                              end) true) [] initial_process).2
  = (SCHED_FIFO, 80)
  /\ (main (mk_kernel false (fun _ => true) true) [] initial_process).1 = 1.
Proof.
  split.
  - apply (main_run_and_cleanup
             (mk_kernel true
                (fun pol => match pol with
                            | SCHED_FIFO => true
                            | SCHED_OTHER => false
                            end) true) initial_process).
    reflexivity.
  - apply (main_run_and_cleanup (mk_kernel false (fun _ => true) true)
             initial_process).
    vm_compute. congruence.
Defined.

Section ScheduleFacts.

Context {World : Type}.
Variable clock_gettime : World -> timespec * World.
Variable clock_nanosleep : timespec -> World -> World.

(** One period added to a normalised timespec. *)
Lemma next_wake_closed (ts : timespec) :
  nsec_ok ts -> is_long (tv_sec ts) -> tv_sec ts + 1 <= LONG_MAX ->
  next_wake ts
  = {| tv_sec := tv_sec ts + (tv_nsec ts + 1000000) / NSEC_PER_SEC;
       tv_nsec := (tv_nsec ts + 1000000) mod NSEC_PER_SEC |}.
Proof.
  unfold nsec_ok, NSEC_PER_SEC, is_long, LONG_MIN, LONG_MAX.
  intros Hn Hs Hs1. unfold next_wake, PERIOD_US. cbv zeta.
  change (to_int (1000 * 1000)) with 1000000.
  rewrite (to_long_id (tv_nsec ts + 1000000))
    by (unfold is_long, LONG_MIN, LONG_MAX; lia).
  destruct (Z.leb_spec 1000000000 (tv_nsec ts + 1000000)).
  - rewrite to_long_id by (unfold is_long, LONG_MIN, LONG_MAX; lia).
    assert (Hq : (tv_nsec ts + 1000000) / 1000000000 = 1)
      by (symmetry; apply (Z.div_unique _ _ 1 (tv_nsec ts - 999000000));
          lia).
    assert (Hr : (tv_nsec ts + 1000000) mod 1000000000
                 = tv_nsec ts - 999000000)
      by (symmetry; apply (Z.mod_unique _ _ 1); lia).
    rewrite Hq, Hr. f_equal. lia.
  - rewrite Z.div_small, Z.mod_small by lia. f_equal. lia.
Qed.

Lemma next_wake_instant (ts : timespec) :
  nsec_ok ts -> is_long (tv_sec ts) -> tv_sec ts + 1 <= LONG_MAX ->
  nsec_ok (next_wake ts)
  /\ instant_ns (next_wake ts) = instant_ns ts + 1000000
  /\ tv_sec ts <= tv_sec (next_wake ts) <= tv_sec ts + 1.
Proof.
  intros Hn Hs Hs1. rewrite next_wake_closed by assumption.
  unfold nsec_ok, instant_ns, NSEC_PER_SEC in *. cbn [tv_sec tv_nsec].
  pose proof (Z.div_mod (tv_nsec ts + 1000000) 1000000000 ltac:(lia)).
  pose proof (Z.mod_pos_bound (tv_nsec ts + 1000000) 1000000000
                ltac:(lia)).
  assert (0 <= (tv_nsec ts + 1000000) / 1000000000 < 2)
    by (split; [apply Z.div_pos; lia
               | apply Z.div_lt_upper_bound; lia]).
  lia.
Qed.

(** The instants of the schedule are one period apart, without drift. *)
Lemma schedule_lookup (n : nat) : forall (t0 t : timespec) (k : nat),
  nsec_ok t0 -> is_long (tv_sec t0) ->
  tv_sec t0 + Z.of_nat n <= LONG_MAX ->
  schedule n t0 !! k = Some t ->
  nsec_ok t /\ instant_ns t = instant_ns t0 + Z.of_nat k * 1000000
  /\ tv_sec t0 <= tv_sec t <= tv_sec t0 + Z.of_nat k.
Proof.
  induction n as [|n IH]; intros t0 t k Hn Hs Hmax Hk; [done|].
  destruct k as [|k]; cbn in Hk.
  - injection Hk as <-. split; [done | lia].
  - destruct (next_wake_instant t0 Hn Hs ltac:(lia)) as (Hn' & Hi' & Hs').
    destruct (IH (next_wake t0) t k Hn'
                ltac:(unfold is_long, LONG_MIN, LONG_MAX in *; lia)
                ltac:(lia) Hk) as (Hnt & Hit & Hst).
    split; [done | lia].
Qed.

Lemma schedule_length (n : nat) (t0 : timespec) :
  length (schedule n t0) = n.
Proof.
  revert t0. induction n as [|n IH]; intros t0; [done|].
  cbn. by rewrite IH.
Qed.

(** Recording the requested wakes does not change the run, and the
    requests are the schedule, whatever the clock answers. *)
Lemma periodic_loop_recording (n : nat) :
  forall (next : timespec) (latencies : list Z) (w : World)
         (log : list timespec),
    periodic_loop (recording_gettime clock_gettime)
      (recording_nanosleep clock_nanosleep) n next latencies (w, log)
    = ((periodic_loop clock_gettime clock_nanosleep n next latencies w).1,
       ((periodic_loop clock_gettime clock_nanosleep n next latencies w).2,
        log ++ schedule n next)).
Proof.
  induction n as [|n IH]; intros next latencies w log.
  - cbn. by rewrite app_nil_r.
  - cbn [periodic_loop schedule].
    change (recording_gettime clock_gettime
              (recording_nanosleep clock_nanosleep next (w, log)))
      with (let (now, w') := clock_gettime (clock_nanosleep next w) in
            (now, (w', log ++ [next]))).
    destruct (clock_gettime (clock_nanosleep next w)) as [now w'].
    rewrite IH. by rewrite <- app_assoc.
Qed.

(** Whatever the clock answers, every sample is a [uint64_t]. *)
Lemma periodic_loop_uint64 (n : nat) :
  forall (next : timespec) (latencies : list Z) (w : World),
    Forall is_uint64 latencies ->
    Forall is_uint64
      (periodic_loop clock_gettime clock_nanosleep n next latencies w).1.
Proof.
  induction n as [|n IH]; intros next latencies w Hall; [done|].
  cbn [periodic_loop].
  destruct (clock_gettime (clock_nanosleep next w)) as [now w'].
  apply IH, Forall_app. split; [done|].
  constructor; [apply timespec_diff_ns_range | constructor].
Qed.

(** With a clock that is always [late] nanoseconds late, every sample is
    [late]. *)
Lemma periodic_loop_late (late : Z) (n : nat) :
  wakes_late clock_gettime clock_nanosleep late ->
  0 <= late ->
  forall (next : timespec) (latencies : list Z) (w : World),
    nsec_ok next -> 0 <= tv_sec next ->
    instant_ns next + Z.of_nat n * 1000000 + late <= UINT64_MAX ->
    (periodic_loop clock_gettime clock_nanosleep n next latencies w).1
    = latencies ++ replicate n late.
Proof.
  intros Hlate Hd.
  induction n as [|n IH]; intros next latencies w Hn Hs Hmax.
  - cbn. by rewrite app_nil_r.
  - cbn [periodic_loop].
    destruct (Hlate next w) as [Hnow Hinow].
    destruct (clock_gettime (clock_nanosleep next w)) as [now w'].
    cbn [fst] in Hnow, Hinow.
    assert (Hsmall : tv_sec next <= 18446744073).
    { unfold instant_ns, nsec_ok, NSEC_PER_SEC, UINT64_MAX in *. lia. }
    destruct (next_wake_instant next Hn
                ltac:(unfold is_long, LONG_MIN, LONG_MAX; lia)
                ltac:(unfold LONG_MAX; lia)) as (Hn' & Hi' & Hs').
    rewrite IH by (done || lia).
    rewrite <- app_assoc. f_equal. cbn [app replicate]. f_equal.
    assert (Hnow_s : 0 <= tv_sec now).
    { unfold instant_ns, nsec_ok, NSEC_PER_SEC in *. nia. }
    unfold timespec_diff_ns. cbv zeta.
    rewrite !total_ns_exact
      by (done || unfold fits_uint64; split; lia).
    rewrite Hinow.
    destruct (Z.gtb_spec (instant_ns next + late) (instant_ns next)).
    + rewrite to_uint64_id; [lia|].
      unfold instant_ns, nsec_ok, NSEC_PER_SEC, UINT64_MAX in *. lia.
    + lia.
Qed.

End ScheduleFacts.

(** X16: on a normalised timespec whose [tv_sec] can still be
    incremented, the single [if] that the periodic loop uses to advance
    the wake instant gives the same timespec as [timespec_add_us] with the
    period: normalised again, and exactly one period (1 000 000 ns)
    later. *)
Theorem next_wake_is_timespec_add_us (ts : timespec) :
  nsec_ok ts -> is_long (tv_sec ts) -> tv_sec ts + 1 <= LONG_MAX ->
  next_wake ts = timespec_add_us ts PERIOD_US
  /\ nsec_ok (next_wake ts)
  /\ instant_ns (next_wake ts) = instant_ns ts + PERIOD_US * 1000.
Proof.
  intros Hn Hs Hs1.
  destruct (next_wake_instant ts Hn Hs Hs1) as (Hn' & Hi' & _).
  split; [|done].
  rewrite next_wake_closed by assumption.
  unfold nsec_ok, NSEC_PER_SEC, PERIOD_US in *.
  assert (0 <= (tv_nsec ts + 1000 * 1000) / 1000000000 < 2)
    by (split; [apply Z.div_pos; lia
               | apply Z.div_lt_upper_bound; lia]).
  rewrite timespec_add_us_closed;
    [reflexivity | lia | done | lia | unfold LONG_MAX; lia
     | unfold NSEC_PER_SEC; lia].
Qed.

Lemma next_wake_is_timespec_add_us_witness :
  next_wake (mk_timespec 7 999500000)
  = timespec_add_us (mk_timespec 7 999500000) PERIOD_US
  /\ nsec_ok (next_wake (mk_timespec 7 999500000))
  /\ instant_ns (next_wake (mk_timespec 7 999500000))
     = instant_ns (mk_timespec 7 999500000) + PERIOD_US * 1000.
Proof.
  apply next_wake_is_timespec_add_us;
    [vm_compute; split; congruence | vm_compute; split; congruence
     | vm_compute; congruence].
Defined.

(** X17: whatever the clock and the wait do, [run_periodic_task] returns
    exactly 1000 samples, each a [uint64_t]; keeping a record of the wake
    instants it requests changes neither the samples nor the clock, and
    the record is the schedule that starts at the first clock reading:
    the requested instants do not depend on when the waits ended. *)
Theorem run_periodic_task_any_clock {World : Type}
  (clock_gettime : World -> timespec * World)
  (clock_nanosleep : timespec -> World -> World) (w : World) :
  length (run_periodic_task clock_gettime clock_nanosleep w).1 = 1000%nat
  /\ Forall is_uint64 (run_periodic_task clock_gettime clock_nanosleep w).1
  /\ run_periodic_task (recording_gettime clock_gettime)
       (recording_nanosleep clock_nanosleep) (w, [])
     = ((run_periodic_task clock_gettime clock_nanosleep w).1,
        ((run_periodic_task clock_gettime clock_nanosleep w).2,
         schedule 1000 (clock_gettime w).1)).
Proof.
  unfold run_periodic_task. unfold recording_gettime at 1. cbn [fst snd].
  destruct (clock_gettime w) as [t0 w0]. cbn [fst].
  rewrite periodic_loop_recording. cbn [app].
  split; [by rewrite periodic_loop_length|].
  split; [by apply periodic_loop_uint64 | reflexivity].
Qed.

(** X18: when the first clock reading is normalised and more than 1000
    seconds before the end of [time_t], the [k]-th wake instant that
    [run_periodic_task] requests is normalised and is exactly [k] periods
    of 1 000 000 ns after that reading, for each of the 1000 requests:
    the schedule does not drift, whatever the clock answers. *)
Theorem run_periodic_task_no_drift {World : Type}
  (clock_gettime : World -> timespec * World)
  (clock_nanosleep : timespec -> World -> World) (w : World) :
  nsec_ok (clock_gettime w).1 ->
  is_long (tv_sec (clock_gettime w).1) ->
  tv_sec (clock_gettime w).1 + 1000 <= LONG_MAX ->
  length (run_periodic_task (recording_gettime clock_gettime)
            (recording_nanosleep clock_nanosleep) (w, [])).2.2 = 1000%nat
  /\ forall (k : nat) (wake : timespec),
       (run_periodic_task (recording_gettime clock_gettime)
          (recording_nanosleep clock_nanosleep) (w, [])).2.2 !! k
       = Some wake ->
       nsec_ok wake
       /\ instant_ns wake
          = instant_ns (clock_gettime w).1 + Z.of_nat k * 1000000.
Proof.
  intros Hn Hs Hmax.
  unfold run_periodic_task. unfold recording_gettime at 1 3. cbn [fst snd].
  destruct (clock_gettime w) as [t0 w0]. cbn [fst] in *.
  rewrite periodic_loop_recording. cbn [app fst snd].
  split; [apply schedule_length|].
  intros k wake Hk.
  change 1000 with (Z.of_nat (Z.to_nat NUM_ITERATIONS)) in Hmax.
  destruct (schedule_lookup _ t0 wake k Hn Hs Hmax Hk) as (H1 & H2 & _).
  done.
Qed.

Lemma run_periodic_task_no_drift_witness :
  length (run_periodic_task (recording_gettime sim_gettime)
            (recording_nanosleep sim_nanosleep)
            (mk_timespec 3 999000000, [])).2.2 = 1000%nat
  /\ forall (k : nat) (wake : timespec),
       (run_periodic_task (recording_gettime sim_gettime)
          (recording_nanosleep sim_nanosleep)
          (mk_timespec 3 999000000, [])).2.2 !! k = Some wake ->
       nsec_ok wake
       /\ instant_ns wake = 3999000000 + Z.of_nat k * 1000000.
Proof.
  apply (run_periodic_task_no_drift sim_gettime sim_nanosleep
           (mk_timespec 3 999000000));
    [vm_compute; split; congruence | vm_compute; split; congruence
     | vm_compute; congruence].
Defined.

(** X19: under a clock that returns normalised timestamps and ends every
    wait exactly [late] nanoseconds after the requested instant, with a
    first reading that leaves room in 64 bits for the run, the 1000
    samples of [run_periodic_task] are all [late]; the [min_ns] and
    [max_ns] of [calculate_stats] are [late], and [print_histogram]
    reports identical latencies of [late / 1000] microseconds instead of
    drawing bars, for any number of bins. *)
Theorem run_periodic_task_constant_lateness {World : Type}
  (clock_gettime : World -> timespec * World)
  (clock_nanosleep : timespec -> World -> World) (w : World) (late : Z) :
  wakes_late clock_gettime clock_nanosleep late ->
  0 <= late ->
  nsec_ok (clock_gettime w).1 ->
  0 <= tv_sec (clock_gettime w).1 ->
  instant_ns (clock_gettime w).1 + 1000000000 + late <= UINT64_MAX ->
  (run_periodic_task clock_gettime clock_nanosleep w).1
  = replicate 1000 late
  /\ min_ns (calculate_stats
               (run_periodic_task clock_gettime clock_nanosleep w).1) = late
  /\ max_ns (calculate_stats
               (run_periodic_task clock_gettime clock_nanosleep w).1) = late
  /\ forall num_bins,
       print_histogram
         (run_periodic_task clock_gettime clock_nanosleep w).1 num_bins
       = Some (AllIdentical (late / 1000)).
Proof.
  intros Hlate Hd Hn Hs Hmax.
  assert (Hrun : (run_periodic_task clock_gettime clock_nanosleep w).1
                 = replicate 1000 late).
  { unfold run_periodic_task.
    destruct (clock_gettime w) as [t0 w0]. cbn [fst] in *.
    by rewrite (periodic_loop_late clock_gettime clock_nanosleep late)
      by (done || (change (Z.of_nat (Z.to_nat NUM_ITERATIONS)) with 1000;
                   lia)). }
  rewrite Hrun.
  assert (Hne : replicate 1000 late <> []) by done.
  assert (Hall : forall x, x ∈ replicate 1000 late -> x = late)
    by (intros x Hx; by apply elem_of_replicate in Hx as [-> _]).
  split; [done|].
  split; [exact (Hall _ (min_element_in _ Hne))|].
  split; [exact (Hall _ (max_element_in _ Hne))|].
  intros num_bins. apply print_histogram_identical; [done|].
  by apply Forall_forall.
Qed.

Lemma run_periodic_task_constant_lateness_witness :
  (run_periodic_task late_gettime (late_nanosleep 42000)
     (mk_timespec 10 999999000)).1 = replicate 1000 42000
  /\ forall num_bins,
       print_histogram
         (run_periodic_task late_gettime (late_nanosleep 42000)
            (mk_timespec 10 999999000)).1 num_bins
       = Some (AllIdentical 42).
Proof.
  assert (Hlate : wakes_late late_gettime (late_nanosleep 42000) 42000).
  { intros ts w. unfold late_gettime, late_nanosleep, nsec_ok, instant_ns,
      NSEC_PER_SEC. cbn [fst tv_sec tv_nsec].
    pose proof (Z.div_mod (tv_nsec ts + 42000) 1000000000 ltac:(lia)).
    pose proof (Z.mod_pos_bound (tv_nsec ts + 42000) 1000000000
                  ltac:(lia)).
    lia. }
  destruct (run_periodic_task_constant_lateness late_gettime
              (late_nanosleep 42000) (mk_timespec 10 999999000) 42000 Hlate)
    as (Hrun & _ & _ & Hhist).
  - lia.
  - vm_compute. split; congruence.
  - vm_compute. congruence.
  - vm_compute. congruence.
  - split; [exact Hrun | exact Hhist].
Defined.

Section RoundingMore.

Lemma val_ge_scale (m e c K : Z) :
  0 <= K -> 0 <= e + K ->
  val_ge m e c <-> c * 2 ^ K <= m * 2 ^ (e + K).
Proof.
  intros HK HeK. unfold val_ge.
  destruct (Z.le_gt_cases 0 e) as [He|He].
  - rewrite (Z.max_r 0 e), (Z.max_l 0 (- e)) by lia.
    rewrite Z.pow_0_r, Z.mul_1_r, Z.pow_add_r, Z.mul_assoc by lia.
    assert (0 < 2 ^ K) by (apply Z.pow_pos_nonneg; lia).
    split; intros H'; nia.
  - rewrite (Z.max_l 0 e), (Z.max_r 0 (- e)) by lia.
    rewrite Z.pow_0_r, Z.mul_1_r.
    replace K with (- e + (e + K)) at 1 by lia.
    rewrite (Z.pow_add_r 2 (- e) (e + K)), Z.mul_assoc by lia.
    assert (0 < 2 ^ (e + K)) by (apply Z.pow_pos_nonneg; lia).
    split; intros H'; nia.
Qed.

(** The number of binary digits of a positive integer [m] is the [d] with
    [2^(d-1) <= m < 2^d]. *)
Lemma Zdigits2_bounds (m : Z) :
  0 < m -> 2 ^ (Zdigits2 m - 1) <= m < 2 ^ Zdigits2 m.
Proof.
  destruct m as [|p|p]; try lia. intros _. apply digits2_pos_bounds.
Qed.

Lemma Zdigits2_unique (m d : Z) :
  0 < m -> 2 ^ (d - 1) <= m < 2 ^ d -> Zdigits2 m = d.
Proof.
  intros Hm [Hlo Hhi]. pose proof (Zdigits2_bounds m Hm) as [Hlo' Hhi'].
  destruct (Z.lt_trichotomy (Zdigits2 m) d) as [Hlt | [Heq | Hgt]];
    [exfalso | exact Heq | exfalso].
  - assert (2 ^ Zdigits2 m <= 2 ^ (d - 1))
      by (apply Z.pow_le_mono_r; lia).
    lia.
  - assert (2 ^ d <= 2 ^ (Zdigits2 m - 1))
      by (apply Z.pow_le_mono_r; lia).
    lia.
Qed.

Lemma Zdigits2_nonneg (m : Z) : 0 <= Zdigits2 m.
Proof. destruct m; cbn; lia. Qed.

Lemma Zdigits2_div_pow2 (m n : Z) :
  0 <= n -> 0 < m / 2 ^ n -> Zdigits2 (m / 2 ^ n) = Zdigits2 m - n.
Proof.
  intros Hn Hq.
  assert (Hpow : 0 < 2 ^ n) by (apply Z.pow_pos_nonneg; lia).
  assert (Hm : 0 < m).
  { destruct (Z.lt_trichotomy m 0) as [Hneg | [-> | Hpos]]; [| |exact Hpos].
    - pose proof (Z.div_lt_upper_bound m (2 ^ n) 0 Hpow ltac:(lia)). lia.
    - rewrite Zdiv_0_l in Hq. lia. }
  pose proof (Zdigits2_bounds m Hm) as [Hlo Hhi].
  set (d := Zdigits2 m) in *.
  assert (Hnd : n < d).
  { destruct (Z.lt_ge_cases n d) as [|Hge]; [done|]. exfalso.
    assert (2 ^ d <= 2 ^ n) by (apply Z.pow_le_mono_r; lia).
    rewrite Z.div_small in Hq by lia. lia. }
  apply Zdigits2_unique; [exact Hq|]. split.
  - apply Z.div_le_lower_bound; [exact Hpow|].
    rewrite <- Z.pow_add_r by lia.
    replace (n + (d - n - 1)) with (d - 1) by lia. exact Hlo.
  - apply Z.div_lt_upper_bound; [exact Hpow|].
    rewrite <- Z.pow_add_r by lia.
    replace (n + (d - n)) with d by lia. exact Hhi.
Qed.

Lemma Zdigits2_mono (a b : Z) : 0 <= a <= b -> Zdigits2 a <= Zdigits2 b.
Proof.
  intros [Ha Hab].
  destruct (Z.eq_dec a 0) as [->|Hne]; [apply Zdigits2_nonneg|].
  pose proof (Zdigits2_bounds a ltac:(lia)) as [Hlo _].
  pose proof (Zdigits2_bounds b ltac:(lia)) as [_ Hhi].
  destruct (Z.le_gt_cases (Zdigits2 a) (Zdigits2 b)) as [|Hgt]; [done|].
  exfalso.
  assert (2 ^ Zdigits2 b <= 2 ^ (Zdigits2 a - 1))
    by (apply Z.pow_le_mono_r; lia).
  lia.
Qed.

(** [shr_fexp] shifts by the difference between the exponent of the
    format and the exponent given, when the first is the larger. *)
Lemma shr_fexp_shift (mx ex : Z) (lx : location) :
  0 <= mx ->
  snd (shr_fexp prec emax mx ex lx)
  = ex + Z.max 0 (fexp prec emax (Zdigits2 mx + ex) - ex)
  /\ shr_m (fst (shr_fexp prec emax mx ex lx))
     = mx / 2 ^ Z.max 0 (fexp prec emax (Zdigits2 mx + ex) - ex).
Proof.
  intros Hm.
  assert (He : snd (shr_fexp prec emax mx ex lx)
               = ex + Z.max 0 (fexp prec emax (Zdigits2 mx + ex) - ex)).
  { unfold shr_fexp, shr.
    destruct (fexp prec emax (Zdigits2 mx + ex) - ex) as [|p|p];
      cbn [snd]; lia. }
  split; [exact He|].
  destruct (shr_fexp_spec mx ex lx Hm) as (n & Hn & He' & Hm' & _).
  rewrite Hm'. f_equal. f_equal. lia.
Qed.

(** The result of [binary_round_aux] is canonical when the mantissa given
    has enough digits for its exponent. *)
Lemma binary_round_aux_valid (s s' : bool) (mx ex : Z) (lx : location)
  (m : positive) (e : Z) :
  0 <= mx -> ex <= fexp prec emax (Zdigits2 mx + ex) ->
  binary_round_aux prec emax s mx ex lx = S754_finite s' m e ->
  fexp prec emax (Z.pos (digits2_pos m) + e) = e /\ e <= 971.
Proof.
  intros Hm Hex. unfold binary_round_aux.
  destruct (shr_fexp_shift mx ex lx Hm) as [He' Hm'].
  destruct (shr_fexp prec emax mx ex lx) as [mrs' e']. cbn [fst snd] in *.
  pose proof (round_nearest_even_spec mrs') as Hround. cbv zeta in Hround.
  set (mr := round_nearest_even (shr_m mrs') (loc_of_shr_record mrs')) in *.
  set (f := fexp prec emax (Zdigits2 mx + ex)) in *.
  rewrite Z.max_r in He', Hm' by lia.
  assert (He'f : e' = f) by lia.
  assert (Hpow : 0 < 2 ^ (f - ex)) by (apply Z.pow_pos_nonneg; lia).
  assert (Hm'0 : 0 <= shr_m mrs') by (rewrite Hm'; apply Z.div_pos; lia).
  assert (Hmr : shr_m mrs' <= mr) by (destruct Hround as [->|[-> _]]; lia).
  assert (Hcan : e' <= fexp prec emax (Zdigits2 mr + e')).
  { destruct (Z.eq_dec (shr_m mrs') 0) as [Hz|Hnz].
    - assert (f = -1074); [|rewrite fexp_unfold; lia].
      subst f. rewrite fexp_unfold in *.
      destruct (Z.eq_dec mx 0) as [->|Hmx]; [cbn [Zdigits2] in *; lia|].
      pose proof (Zdigits2_bounds mx ltac:(lia)) as [Hlo _].
      set (d := Zdigits2 mx) in *.
      destruct (Z.le_gt_cases d (Z.max (d + ex - 53) (-1074) - ex))
        as [|Hgt]; [lia|].
      exfalso.
      assert (2 ^ (Z.max (d + ex - 53) (-1074) - ex) <= 2 ^ (d - 1))
        by (apply Z.pow_le_mono_r; lia).
      assert (0 < mx / 2 ^ (Z.max (d + ex - 53) (-1074) - ex))
        by (apply Z.div_str_pos; lia).
      lia.
    - assert (Hd : Zdigits2 (shr_m mrs') = Zdigits2 mx - (f - ex))
        by (rewrite Hm'; apply Zdigits2_div_pow2; lia).
      pose proof (Zdigits2_mono (shr_m mrs') mr ltac:(lia)) as Hdm.
      assert (Hf : f = Z.max (Zdigits2 mx + ex - 53) (-1074))
        by reflexivity.
      rewrite fexp_unfold. lia. }
  set (g := fexp prec emax (Zdigits2 mr + e')) in *.
  destruct (shr_fexp_shift mr e' loc_Exact ltac:(lia)) as [He'' Hm''].
  destruct (shr_fexp prec emax mr e' loc_Exact) as [mrs'' e''].
  cbn [fst snd] in *. fold g in He'', Hm''.
  rewrite Z.max_r in He'', Hm'' by lia.
  destruct (shr_m mrs'') as [|p|p] eqn:Hp; try discriminate.
  destruct (Z.leb_spec e'' (emax - prec)) as [Hle|]; [|discriminate].
  intros [= _ <- <-]. split; [|unfold emax, prec in Hle; lia].
  assert (Hd : Zdigits2 (Z.pos p) = Zdigits2 mr - (g - e'))
    by (rewrite Hm''; apply Zdigits2_div_pow2; lia).
  cbn [Zdigits2] in Hd. rewrite Hd.
  replace (Zdigits2 mr - (g - e') + e'') with (Zdigits2 mr + e') by lia.
  fold g. lia.
Qed.

(** Rounding never crosses from below a bound [c * 2^(-k)] with [c] of
    at most 53 bits: a value of at most that bound rounds to a zero or to
    a finite number of at most that bound. *)
Lemma binary_round_aux_le_dyadic (mx ex : Z) (lx : location) (c k : Z) :
  0 <= mx -> 0 <= c <= 2 ^ 53 -> -900 <= k <= 1074 ->
  val_le mx (ex + k) c ->
  (lx <> loc_Exact -> val_lt mx (ex + k) c /\ ex + k <= 0) ->
  binary_round_aux prec emax false mx ex lx = S754_zero false
  \/ exists (m : positive) (e : Z),
       binary_round_aux prec emax false mx ex lx = S754_finite false m e
       /\ val_le (Z.pos m) (e + k) c.
Proof.
  intros Hm Hc Hk Hle Hlx. unfold binary_round_aux.
  destruct (shr_fexp_spec mx ex lx Hm) as (n & Hn & He' & Hm' & Hrs & Hfexp).
  destruct (shr_fexp prec emax mx ex lx) as [mrs' e']. cbn [fst snd] in *.
  pose proof (round_nearest_even_spec mrs') as Hround. cbv zeta in Hround.
  set (mr := round_nearest_even (shr_m mrs') (loc_of_shr_record mrs')) in *.
  assert (Hpow : 0 < 2 ^ n) by (apply Z.pow_pos_nonneg; lia).
  assert (Hm'0 : 0 <= shr_m mrs') by (rewrite Hm'; apply Z.div_pos; lia).
  assert (Hm'le : shr_m mrs' * 2 ^ n <= mx)
    by (rewrite Hm', Z.mul_comm; apply Z.mul_div_le; lia).
  assert (Hek : e' + k = ex + k + n) by lia.
  assert (Hmr : 0 <= mr /\ val_le mr (e' + k) c).
  { destruct Hround as [-> | [-> Hr]].
    - split; [done|]. rewrite Hek. by apply (val_le_shift mx).
    - split; [lia|].
      assert (Hlt : val_lt (shr_m mrs') (e' + k) c).
      { rewrite Hek. apply (val_lt_shift mx); [lia | done |].
        destruct (Hrs (or_introl Hr)) as [Hstrict | Hinexact].
        - by left.
        - right. split; [done | by apply Hlx]. }
      destruct (Z.le_gt_cases (e' + k) 0) as [He0 | He0].
      + unfold val_le, val_lt in *.
        rewrite (Z.max_l 0 (e' + k)), (Z.max_r 0 (- (e' + k))) in * by lia.
        rewrite Z.pow_0_r in *. lia.
      + exfalso.
        assert (Hn0 : 0 < n).
        { destruct (Z.eq_dec n 0) as [->|]; [|lia].
          rewrite Z.pow_0_r, Z.mul_1_r in *. rewrite Z.div_1_r in Hm'.
          destruct (Hrs (or_introl Hr)) as [?|Hinexact]; [lia|].
          destruct (Hlx Hinexact). lia. }
        specialize (Hfexp Hn0). rewrite fexp_unfold in Hfexp.
        destruct mx as [|p|p]; [cbn in Hfexp; lia | | lia].
        cbn [Zdigits2] in Hfexp.
        pose proof (digits2_pos_bounds p) as [Hlo _].
        set (d := Z.pos (digits2_pos p)) in *.
        assert (Hnd : n = d - 53) by lia.
        assert (H52 : 2 ^ 52 <= shr_m mrs').
        { rewrite Hm'. apply Z.div_le_lower_bound; [lia|].
          rewrite Z.mul_comm, <- Z.pow_add_r by lia.
          replace (52 + n) with (d - 1) by lia. exact Hlo. }
        unfold val_lt in Hlt.
        rewrite (Z.max_r 0 (e' + k)), (Z.max_l 0 (- (e' + k))) in Hlt by lia.
        rewrite Z.pow_0_r, Z.mul_1_r in Hlt.
        assert (2 ^ 1 <= 2 ^ (e' + k)) by (apply Z.pow_le_mono_r; lia).
        change (2 ^ 1) with 2 in *. change (2 ^ 53) with (2 ^ 52 * 2) in Hc.
        nia. }
  destruct Hmr as [Hmr0 Hmrle].
  destruct (shr_fexp_spec mr e' loc_Exact Hmr0)
    as (n2 & Hn2 & He'' & Hm'' & _ & _).
  destruct (shr_fexp prec emax mr e' loc_Exact) as [mrs'' e''].
  cbn [fst snd] in *.
  assert (Hpow2 : 0 < 2 ^ n2) by (apply Z.pow_pos_nonneg; lia).
  assert (Hm''0 : 0 <= shr_m mrs'') by (rewrite Hm''; apply Z.div_pos; lia).
  assert (Hfinal : val_le (shr_m mrs'') (e'' + k) c).
  { replace (e'' + k) with (e' + k + n2) by lia.
    apply (val_le_shift mr); [lia | done | | done].
    rewrite Hm'', Z.mul_comm. apply Z.mul_div_le. lia. }
  destruct (shr_m mrs'') as [|m|m]; [by left | | lia].
  right. exists m, e''. split; [|done].
  destruct (Z.leb_spec e'' (emax - prec)) as [|Hbig]; [reflexivity|].
  exfalso. unfold val_le, emax, prec in *.
  rewrite (Z.max_r 0 (e'' + k)), (Z.max_l 0 (- (e'' + k))) in Hfinal by lia.
  rewrite Z.pow_0_r, Z.mul_1_r in Hfinal.
  assert (2 ^ 54 <= 2 ^ (e'' + k)) by (apply Z.pow_le_mono_r; lia).
  change (2 ^ 54) with (2 ^ 53 * 2) in *. nia.
Qed.

(** A right shift by [shr_fexp] does not go below a bound [c * 2^(-k)]
    with [c] of at most 53 bits. *)
Lemma shr_fexp_ge (mx ex : Z) (lx : location) (c k : Z) :
  0 <= mx -> 1 <= c <= 2 ^ 53 -> k <= 1074 ->
  val_ge mx (ex + k) c ->
  val_ge (shr_m (fst (shr_fexp prec emax mx ex lx)))
         (snd (shr_fexp prec emax mx ex lx) + k) c.
Proof.
  intros Hm Hc Hk Hge.
  destruct (shr_fexp_spec mx ex lx Hm) as (n & Hn & He' & Hm' & _ & Hfexp).
  rewrite He', Hm'.
  destruct (Z.eq_dec n 0) as [->|Hn0].
  { by rewrite Z.pow_0_r, Z.div_1_r, Z.add_0_r. }
  specialize (Hfexp ltac:(lia)). rewrite fexp_unfold in Hfexp.
  assert (Hpow : 0 < 2 ^ n) by (apply Z.pow_pos_nonneg; lia).
  destruct (Z.le_gt_cases (ex + n + k) 0) as [HE | HE].
  - rewrite (val_ge_scale mx (ex + k) c (- (ex + k))) in Hge by lia.
    rewrite (val_ge_scale _ (ex + n + k) c (- (ex + n + k))) by lia.
    replace (ex + k + - (ex + k)) with 0 in Hge by lia.
    replace (ex + n + k + - (ex + n + k)) with 0 by lia.
    rewrite Z.pow_0_r, Z.mul_1_r in *.
    apply Z.div_le_lower_bound; [exact Hpow|].
    replace (- (ex + k)) with (n + - (ex + n + k)) in Hge by lia.
    rewrite Z.pow_add_r in Hge by lia. lia.
  - assert (Hmx : 0 < mx).
    { destruct (Z.eq_dec mx 0) as [->|]; [cbn [Zdigits2] in Hfexp|]; lia. }
    pose proof (Zdigits2_bounds mx Hmx) as [Hlo _].
    set (d := Zdigits2 mx) in *.
    assert (Hnd : n = d - 53) by lia.
    assert (H52 : 2 ^ 52 <= mx / 2 ^ n).
    { apply Z.div_le_lower_bound; [lia|].
      rewrite <- Z.pow_add_r by lia.
      replace (n + 52) with (d - 1) by lia. exact Hlo. }
    unfold val_ge.
    rewrite (Z.max_r 0 (ex + n + k)), (Z.max_l 0 (- (ex + n + k))) by lia.
    rewrite Z.pow_0_r, Z.mul_1_r.
    assert (2 ^ 1 <= 2 ^ (ex + n + k)) by (apply Z.pow_le_mono_r; lia).
    change (2 ^ 1) with 2 in *. change (2 ^ 53) with (2 ^ 52 * 2) in Hc.
    nia.
Qed.

(** Rounding never crosses such a bound from above: a value of at least
    [c * 2^(-k)] rounds to a finite number of at least that, or to
    infinity. *)
Lemma binary_round_aux_ge (mx ex : Z) (lx : location) (c k : Z) :
  0 <= mx -> 1 <= c <= 2 ^ 53 -> k <= 1074 ->
  val_ge mx (ex + k) c ->
  binary_round_aux prec emax false mx ex lx = S754_infinity false
  \/ exists (m : positive) (e : Z),
       binary_round_aux prec emax false mx ex lx = S754_finite false m e
       /\ val_ge (Z.pos m) (e + k) c.
Proof.
  intros Hm Hc Hk Hge. unfold binary_round_aux.
  pose proof (shr_fexp_ge mx ex lx c k Hm Hc Hk Hge) as H1.
  destruct (shr_fexp_spec mx ex lx Hm) as (n & Hn & _ & Hm' & _).
  destruct (shr_fexp prec emax mx ex lx) as [mrs' e']. cbn [fst snd] in *.
  pose proof (round_nearest_even_spec mrs') as Hround. cbv zeta in Hround.
  set (mr := round_nearest_even (shr_m mrs') (loc_of_shr_record mrs')) in *.
  assert (Hpow : 0 < 2 ^ n) by (apply Z.pow_pos_nonneg; lia).
  assert (Hm'0 : 0 <= shr_m mrs') by (rewrite Hm'; apply Z.div_pos; lia).
  assert (Hmr : shr_m mrs' <= mr) by (destruct Hround as [->|[-> _]]; lia).
  assert (H2 : val_ge mr (e' + k) c).
  { unfold val_ge in *.
    assert (0 < 2 ^ Z.max 0 (e' + k)) by (apply Z.pow_pos_nonneg; lia).
    nia. }
  pose proof (shr_fexp_ge mr e' loc_Exact c k ltac:(lia) Hc Hk H2) as H3.
  destruct (shr_fexp_spec mr e' loc_Exact ltac:(lia))
    as (n2 & Hn2 & _ & Hm'' & _).
  destruct (shr_fexp prec emax mr e' loc_Exact) as [mrs'' e''].
  cbn [fst snd] in *.
  assert (Hpow2 : 0 < 2 ^ n2) by (apply Z.pow_pos_nonneg; lia).
  assert (Hm''0 : 0 <= shr_m mrs'') by (rewrite Hm''; apply Z.div_pos; lia).
  destruct (shr_m mrs'') as [|m|m]; [exfalso | | lia].
  - unfold val_ge in H3.
    assert (0 < 2 ^ Z.max 0 (- (e'' + k))) by (apply Z.pow_pos_nonneg; lia).
    nia.
  - destruct (Z.leb_spec e'' (emax - prec)); [right | by left].
    by exists m, e''.
Qed.

End RoundingMore.

Section ReportFacts.

(** A canonical mantissa has at most 53 bits, and exactly 53 above the
    smallest exponent. *)
Lemma canonical_bounds (m : positive) (e : Z) :
  fexp prec emax (Z.pos (digits2_pos m) + e) = e ->
  Z.pos m < 2 ^ 53 /\ -1074 <= e /\ (-1074 < e -> 2 ^ 52 <= Z.pos m).
Proof.
  rewrite fexp_unfold. intros Hc.
  pose proof (digits2_pos_bounds m) as [Hlo Hhi].
  set (d := Z.pos (digits2_pos m)) in *.
  split; [|split; [lia|]].
  - eapply Z.lt_le_trans; [exact Hhi|]. apply Z.pow_le_mono_r; lia.
  - intros He. replace (d - 1) with 52 in Hlo by lia. exact Hlo.
Qed.

(** On canonical positive numbers [<] of [double] is [<] of the values. *)
Lemma dltb_canonical (m1 : positive) (e1 : Z) (m2 : positive) (e2 K : Z) :
  fexp prec emax (Z.pos (digits2_pos m1) + e1) = e1 ->
  fexp prec emax (Z.pos (digits2_pos m2) + e2) = e2 ->
  0 <= e1 + K -> 0 <= e2 + K ->
  dltb (S754_finite false m1 e1) (S754_finite false m2 e2) = true
  <-> Z.pos m1 * 2 ^ (e1 + K) < Z.pos m2 * 2 ^ (e2 + K).
Proof.
  intros H1 H2 HK1 HK2.
  destruct (canonical_bounds m1 e1 H1) as (Hhi1 & Hmin1 & Hlo1).
  destruct (canonical_bounds m2 e2 H2) as (Hhi2 & Hmin2 & Hlo2).
  assert (Hp1 : 0 < 2 ^ (e1 + K)) by (apply Z.pow_pos_nonneg; lia).
  assert (Hp2 : 0 < 2 ^ (e2 + K)) by (apply Z.pow_pos_nonneg; lia).
  change (2 ^ 53) with (2 ^ 52 * 2) in Hhi1, Hhi2.
  unfold dltb, SFltb, SFcompare.
  destruct (Z.compare_spec e1 e2) as [Heq|Hlt|Hgt].
  - subst e2. change (Pos.compare_cont Eq m1 m2) with (Pos.compare m1 m2).
    destruct (Pos.compare_spec m1 m2) as [Hm|Hm|Hm]; split; try done; nia.
  - split; [intros _|done]. specialize (Hlo2 ltac:(lia)).
    assert (2 ^ (e1 + K) * 2 <= 2 ^ (e2 + K)).
    { rewrite Z.mul_comm, <- Z.pow_succ_r by lia.
      apply Z.pow_le_mono_r; lia. }
    nia.
  - split; [done|]. intros Hlt. exfalso. specialize (Hlo1 ltac:(lia)).
    assert (2 ^ (e2 + K) * 2 <= 2 ^ (e1 + K)).
    { rewrite Z.mul_comm, <- Z.pow_succ_r by lia.
      apply Z.pow_le_mono_r; lia. }
    nia.
Qed.

(** The division by [1000.0] of a count below [2^53], before rounding:
    the mantissa [q] and the remainder [r] of the division of the 53-bit
    mantissa of the count, shifted left by 53, by the mantissa of
    [1000.0]. *)
Lemma to_us_round (n : Z) :
  1 <= n < 2 ^ 53 ->
  exists (e1 q r : Z) (lx : location),
    -52 <= e1 <= 0
    /\ to_us n = binary_round_aux prec emax false q (e1 - 10) lx
    /\ n * 2 ^ (- e1) * 2 ^ 53 = 8796093022208000 * q + r
    /\ 0 <= r < 8796093022208000
    /\ 2 ^ 52 <= q
    /\ (lx <> loc_Exact -> r <> 0)
    /\ e1 - 10 <= fexp prec emax (Zdigits2 q + (e1 - 10)).
Proof.
  intros Hn.
  destruct (of_Z_exact n Hn) as (m1 & e1 & Hof & He1 & Hm1 & Hd1).
  unfold to_us. rewrite Hof.
  change (of_Z 1000) with (S754_finite false 8796093022208000 (-43)).
  unfold ddiv, SFdiv, SFdiv_core_binary. cbn [xorb Zdigits2].
  rewrite Hd1.
  change (Z.pos (digits2_pos 8796093022208000)) with 53.
  replace (53 + e1 - (53 + -43)) with (e1 + 43) by lia.
  rewrite fexp_unfold.
  replace (Z.min (Z.max (e1 + 43 - 53) (-1074)) (e1 - -43))
    with (e1 - 10) by lia.
  replace (e1 - -43 - (e1 - 10)) with 53 by lia.
  rewrite Z.shiftl_mul_pow2 by lia.
  pose proof (Z_div_mod (Z.pos m1 * 2 ^ 53) 8796093022208000 ltac:(lia))
    as Hdm.
  destruct (Z.div_eucl (Z.pos m1 * 2 ^ 53) 8796093022208000) as [q r].
  destruct Hdm as [Hdm Hr].
  pose proof (digits2_pos_bounds m1) as [Hlo Hhi]. rewrite Hd1 in Hlo, Hhi.
  change (2 ^ (53 - 1)) with 4503599627370496 in Hlo.
  change (2 ^ 53) with 9007199254740992 in Hdm, Hhi.
  assert (Hq : 2 ^ 52 <= q)
    by (change (2 ^ 52) with 4503599627370496; lia).
  exists e1, q, r, (new_location 8796093022208000 r).
  split; [exact He1|]. split; [reflexivity|].
  split; [rewrite <- Hm1; change (2 ^ 53) with 9007199254740992; lia|].
  split; [exact Hr|]. split; [exact Hq|]. split.
  - intros Hloc ->. by rewrite new_location_exact in Hloc.
  - pose proof (Zdigits2_mono (2 ^ 52) q ltac:(lia)) as Hd.
    change (Zdigits2 (2 ^ 52)) with 53 in Hd.
    rewrite fexp_unfold. lia.
Qed.

(** The comparison of [ns / 1000.0] with an integer threshold [T] is the
    comparison of [ns] with [T * 1000]: the two roundings do not move a
    count across a threshold. *)
Lemma to_us_lt (n T : Z) :
  0 <= n < 2 ^ 53 -> 1 <= T < 2 ^ 43 ->
  dltb (to_us n) (of_Z T) = (n <? T * 1000).
Proof.
  intros Hn HT.
  destruct (of_Z_exact T ltac:(change (2 ^ 53) with (2 ^ 43 * 1024); lia))
    as (mT & eT & HofT & HeT & HmT & HdT).
  rewrite HofT.
  assert (HcT : fexp prec emax (Z.pos (digits2_pos mT) + eT) = eT)
    by (rewrite HdT, fexp_unfold; lia).
  destruct (Z.eq_dec n 0) as [->|Hn0].
  { cbn. symmetry. apply Z.ltb_lt. lia. }
  destruct (to_us_round n ltac:(lia))
    as (e1 & q & r & lx & He1 & Hus & Hdm & Hr & Hq & Hlx & Hdig).
  rewrite Hus.
  set (P := 2 ^ (- e1)) in *.
  assert (HP : 0 < P) by (apply Z.pow_pos_nonneg; lia).
  change (2 ^ 53) with 9007199254740992 in Hdm.
  assert (HmTK : Z.pos mT * 2 ^ (eT + 1100) = T * 1024 * 2 ^ 1090).
  { rewrite HmT, <- Z.mul_assoc, <- Z.pow_add_r by lia.
    replace (- eT + (eT + 1100)) with (10 + 1090) by lia.
    rewrite (Z.pow_add_r 2 10 1090) by lia. change (2 ^ 10) with 1024.
    ring. }
  assert (HB : 0 < 2 ^ 1090) by (apply Z.pow_pos_nonneg; lia).
  destruct (Z.ltb_spec n (T * 1000)) as [Hlt | Hge].
  - assert (HnP : (n + 1) * P <= T * 1000 * P)
      by (apply Z.mul_le_mono_nonneg_r; lia).
    destruct (binary_round_aux_le_dyadic q (e1 - 10) lx (1024 * T - 1) 10)
      as [Hz | (m & e & Hres & Hle)].
    + lia.
    + change (2 ^ 53) with (2 ^ 43 * 1024). lia.
    + lia.
    + replace (e1 - 10 + 10) with e1 by lia. unfold val_le.
      rewrite (Z.max_l 0 e1), (Z.max_r 0 (- e1)) by lia.
      rewrite Z.pow_0_r. fold P. lia.
    + intros _. split; [|lia].
      replace (e1 - 10 + 10) with e1 by lia. unfold val_lt.
      rewrite (Z.max_l 0 e1), (Z.max_r 0 (- e1)) by lia.
      rewrite Z.pow_0_r. fold P. lia.
    + rewrite Hz. reflexivity.
    + rewrite Hres.
      destruct (binary_round_aux_valid false false q (e1 - 10) lx m e
                  ltac:(lia) Hdig Hres) as [Hcan _].
      destruct (canonical_bounds m e Hcan) as (_ & Hemin & _).
      apply (dltb_canonical m e mT eT 1100 Hcan HcT); [lia | lia |].
      rewrite HmTK.
      rewrite (val_le_scale _ _ _ 1090) in Hle by lia.
      replace (e + 10 + 1090) with (e + 1100) in Hle by lia.
      nia.
  - assert (HnP : T * 1000 * P <= n * P)
      by (apply Z.mul_le_mono_nonneg_r; lia).
    destruct (binary_round_aux_ge q (e1 - 10) lx T 0)
      as [Hinf | (m & e & Hres & Hge')].
    + lia.
    + change (2 ^ 53) with (2 ^ 43 * 1024). lia.
    + lia.
    + rewrite (val_ge_scale _ _ _ (10 - e1)) by lia.
      replace (e1 - 10 + 0 + (10 - e1)) with 0 by lia.
      rewrite Z.pow_0_r.
      replace (10 - e1) with (10 + - e1) by lia.
      rewrite Z.pow_add_r by lia. fold P. change (2 ^ 10) with 1024. lia.
    + rewrite Hinf. reflexivity.
    + rewrite Hres.
      destruct (binary_round_aux_valid false false q (e1 - 10) lx m e
                  ltac:(lia) Hdig Hres) as [Hcan _].
      destruct (canonical_bounds m e Hcan) as (_ & Hemin & _).
      apply not_true_is_false.
      rewrite (dltb_canonical m e mT eT 1100 Hcan HcT) by lia.
      rewrite HmTK.
      rewrite (val_ge_scale _ _ _ 1100) in Hge' by lia.
      replace (e + 0 + 1100) with (e + 1100) in Hge' by lia.
      change (2 ^ 1100) with (2 ^ (10 + 1090)) in Hge'.
      rewrite (Z.pow_add_r 2 10 1090) in Hge' by lia.
      change (2 ^ 10) with 1024 in Hge'. lia.
Qed.

End ReportFacts.

(** X20: for samples below [2^53] ns (about 104 days) the remarks of
    [display_results] are decided by the largest sample in nanoseconds,
    with exact thresholds: "Excellent" below 50 000 ns, "Très bon" below
    100 000 ns, "Acceptable" below 200 000 ns and "Vérifier la
    configuration" from 200 000 ns on; the final recommendation is the
    favourable one exactly when the largest sample is below 100 000 ns.
    The conversion to [double] and the division by [1000.0] never move a
    sample across a threshold. *)
Theorem display_results_remarks (latencies : list Z) :
  latencies <> [] ->
  Forall (fun lat => 0 <= lat < 2 ^ 53) latencies ->
  display_remarks latencies
  = Some (if max_element latencies <? 50000 then Excellent
          else if max_element latencies <? 100000 then TresBon
          else if max_element latencies <? 200000 then Acceptable
          else VerifierConfiguration,
          if max_element latencies <? 100000 then ConfigurationExcellente
          else LatenceMaximaleElevee).
Proof.
  intros Hne Hall.
  assert (HM : 0 <= max_element latencies < 2 ^ 53).
  { rewrite Forall_forall in Hall. apply Hall. by apply max_element_in. }
  destruct latencies as [|z l]; [done|].
  unfold display_remarks. cbv zeta.
  change (max_ns (calculate_stats (z :: l))) with (max_element (z :: l)).
  unfold quality_of, recommendation_of.
  rewrite !to_us_lt by (done || (change (2 ^ 43) with 8796093022208; lia)).
  reflexivity.
Qed.

Lemma display_results_remarks_witness :
  display_remarks [12000; 99999; 48000] = Some (TresBon, ConfigurationExcellente)
  /\ display_remarks [12000; 100000] = Some (Acceptable, LatenceMaximaleElevee).
Proof.
  split.
  - apply (display_results_remarks [12000; 99999; 48000]); [done|].
    repeat constructor; vm_compute; congruence.
  - apply (display_results_remarks [12000; 100000]); [done|].
    repeat constructor; vm_compute; congruence.
Defined.

Section ComparisonFacts.



End ComparisonFacts.



Section ConstantSamples.

(** Two canonical positive numbers with the same value are the same. *)
Lemma canonical_unique (m1 : positive) (e1 : Z) (m2 : positive) (e2 K : Z) :
  fexp prec emax (Z.pos (digits2_pos m1) + e1) = e1 ->
  fexp prec emax (Z.pos (digits2_pos m2) + e2) = e2 ->
  0 <= e1 + K -> 0 <= e2 + K ->
  Z.pos m1 * 2 ^ (e1 + K) = Z.pos m2 * 2 ^ (e2 + K) ->
  m1 = m2 /\ e1 = e2.
Proof.
  intros H1 H2 HK1 HK2 Heq.
  pose proof (dltb_canonical m1 e1 m2 e2 K H1 H2 HK1 HK2) as H12.
  pose proof (dltb_canonical m2 e2 m1 e1 K H2 H1 HK2 HK1) as H21.
  unfold dltb, SFltb, SFcompare in H12, H21.
  rewrite (Z.compare_antisym e1 e2) in H21.
  destruct (Z.compare_spec e1 e2) as [He|He|He]; cbn [CompOpp] in H21.
  - subst e2. split; [|reflexivity].
    assert (0 < 2 ^ (e1 + K)) by (apply Z.pow_pos_nonneg; lia).
    assert (Z.pos m1 = Z.pos m2) by nia. congruence.
  - exfalso. destruct H12 as [H12 _]. specialize (H12 eq_refl). lia.
  - exfalso. destruct H21 as [H21 _]. specialize (H21 eq_refl). lia.
Qed.

(** A quotient of two integers below [2^53] that is an integer is
    computed exactly. *)
Lemma ddiv_exact (a b v : Z) :
  1 <= b < 2 ^ 53 -> 1 <= v -> a = v * b -> a < 2 ^ 53 ->
  ddiv (of_Z a) (of_Z b) = of_Z v.
Proof.
  intros Hb Hv Ha Ha53.
  assert (Hv53 : v < 2 ^ 53) by nia.
  destruct (of_Z_exact a ltac:(nia)) as (m1 & e1 & Hof1 & He1 & Hm1 & Hd1).
  destruct (of_Z_exact b Hb) as (m2 & e2 & Hof2 & He2 & Hm2 & Hd2).
  destruct (of_Z_exact v ltac:(lia)) as (mv & ev & Hofv & Hev & Hmv & Hdv).
  rewrite Hof1, Hof2, Hofv.
  unfold ddiv, SFdiv, SFdiv_core_binary. cbn [xorb Zdigits2].
  rewrite Hd1, Hd2, fexp_unfold.
  replace (Z.min (Z.max (53 + e1 - (53 + e2) - 53) (-1074)) (e1 - e2))
    with (e1 - e2 - 53) by lia.
  replace (e1 - e2 - (e1 - e2 - 53)) with 53 by lia.
  rewrite Z.shiftl_mul_pow2 by lia.
  set (e' := e1 - e2 - 53).
  assert (Hp1 : 0 < 2 ^ (- e1)) by (apply Z.pow_pos_nonneg; lia).
  assert (Hp2 : 0 < 2 ^ (- e2)) by (apply Z.pow_pos_nonneg; lia).
  assert (Hpe : 0 < 2 ^ (- e')) by (apply Z.pow_pos_nonneg; lia).
  assert (Hexact : Z.pos m1 * 2 ^ 53 = Z.pos m2 * (v * 2 ^ (- e'))).
  { rewrite Hm1, Hm2, Ha.
    replace (- e') with (- e1 + 53 - - e2) by lia.
    assert (2 ^ (- e1) * 2 ^ 53 = 2 ^ (- e2) * 2 ^ (- e1 + 53 - - e2)).
    { rewrite <- !Z.pow_add_r by lia. f_equal. lia. }
    nia. }
  pose proof (Z_div_mod (Z.pos m1 * 2 ^ 53) (Z.pos m2) ltac:(lia)) as Hdm.
  destruct (Z.div_eucl (Z.pos m1 * 2 ^ 53) (Z.pos m2)) as [q r].
  destruct Hdm as [Hdm Hr].
  assert (Hq : q = v * 2 ^ (- e') /\ r = 0).
  { rewrite Hexact in Hdm.
    assert (Z.pos m2 * (v * 2 ^ (- e') - q) = r) by lia.
    assert (v * 2 ^ (- e') - q = 0) by nia. lia. }
  destruct Hq as [-> ->]. rewrite new_location_exact.
  pose proof (digits2_pos_bounds m1) as [Hlo1 _].
  pose proof (digits2_pos_bounds m2) as [_ Hhi2].
  rewrite Hd1 in Hlo1. rewrite Hd2 in Hhi2.
  change (2 ^ (53 - 1)) with (2 ^ 52) in Hlo1.
  assert (Hq52 : 2 ^ 52 <= v * 2 ^ (- e')).
  { assert (2 ^ 52 * 2 ^ 53 <= Z.pos m1 * 2 ^ 53) by nia.
    rewrite Hexact in H.
    assert (0 < v * 2 ^ (- e')) by nia. nia. }
  assert (Hdig : e' <= fexp prec emax (Zdigits2 (v * 2 ^ (- e')) + e')).
  { pose proof (Zdigits2_mono (2 ^ 52) (v * 2 ^ (- e')) ltac:(lia)) as Hd.
    change (Zdigits2 (2 ^ 52)) with 53 in Hd. rewrite fexp_unfold. lia. }
  destruct (binary_round_aux_le_dyadic (v * 2 ^ (- e')) e' loc_Exact v 0)
    as [Hz | (m & e & Hres & Hle)]; [lia | lia | lia | | done | |].
  { rewrite (val_le_scale _ _ _ (- e')) by lia.
    replace (e' + 0 + - e') with 0 by lia. rewrite Z.pow_0_r. lia. }
  { destruct (binary_round_aux_ge (v * 2 ^ (- e')) e' loc_Exact v 0)
      as [Hinf | (m & e & Hres & _)]; [lia | lia | lia | | |];
      [|congruence|congruence].
    rewrite (val_ge_scale _ _ _ (- e')) by lia.
    replace (e' + 0 + - e') with 0 by lia. rewrite Z.pow_0_r. lia. }
  destruct (binary_round_aux_ge (v * 2 ^ (- e')) e' loc_Exact v 0)
    as [Hinf | (m' & e'' & Hres' & Hge)]; [lia | lia | lia | | congruence |].
  { rewrite (val_ge_scale _ _ _ (- e')) by lia.
    replace (e' + 0 + - e') with 0 by lia. rewrite Z.pow_0_r. lia. }
  rewrite Hres in Hres'. injection Hres' as <- <-.
  destruct (binary_round_aux_valid false false (v * 2 ^ (- e')) e'
              loc_Exact m e ltac:(lia) Hdig Hres) as [Hcan _].
  destruct (canonical_bounds m e Hcan) as (_ & Hemin & _).
  assert (Hcv : fexp prec emax (Z.pos (digits2_pos mv) + ev) = ev)
    by (rewrite Hdv, fexp_unfold; lia).
  rewrite Hres.
  rewrite (val_le_scale _ _ _ 1100) in Hle by lia.
  rewrite (val_ge_scale _ _ _ 1100) in Hge by lia.
  replace (e + 0 + 1100) with (e + 1100) in Hle, Hge by lia.
  destruct (canonical_unique m e mv ev 1100 Hcan Hcv ltac:(lia) ltac:(lia))
    as [-> ->]; [|reflexivity].
  rewrite Hmv, <- Z.mul_assoc, <- Z.pow_add_r by lia.
  replace (- ev + (ev + 1100)) with 1100 by lia. lia.
Qed.

(** A sample that is the mean deviates by [+0.0]. *)
Lemma dsub_of_Z_same (v : Z) :
  0 <= v < 2 ^ 53 -> dsub (of_Z v) (of_Z v) = S754_zero false.
Proof.
  intros Hv. destruct (Z.eq_dec v 0) as [->|Hv0]; [reflexivity|].
  destruct (of_Z_exact v ltac:(lia)) as (m & e & -> & _).
  unfold dsub, SFsub. cbv zeta. rewrite Z.sub_diag. reflexivity.
Qed.

Lemma sum_sq_dev_constant (n : nat) (v : Z) :
  0 <= v < 2 ^ 53 ->
  sum_sq_dev (of_Z v) (replicate n v) = S754_zero false.
Proof.
  intros Hv. unfold sum_sq_dev, dzero.
  induction n as [|n IH]; [reflexivity|].
  cbn [replicate fold_left]. cbv zeta.
  rewrite dsub_of_Z_same by exact Hv. exact IH.
Qed.

Lemma fold_add_replicate (n : nat) (v : Z) :
  fold_right Z.add 0 (replicate n v) = Z.of_nat n * v.
Proof.
  induction n as [|n IH]; [reflexivity|].
  cbn [replicate fold_right]. rewrite IH. lia.
Qed.

End ConstantSamples.

(** X22: the statistics of a vector of equal samples whose sum is below
    [2^53] (a single sample in particular): the minimum and the maximum
    are the sample, the mean is the sample converted to [double], without
    any rounding error from the sum and the division, and the standard
    deviation is [+0.0]. *)
Theorem calculate_stats_constant_samples (n : nat) (v : Z) :
  (1 <= n)%nat -> Z.of_nat n < 2 ^ 53 ->
  0 <= v -> Z.of_nat n * v < 2 ^ 53 ->
  calculate_stats (replicate n v)
  = {| min_ns := v; max_ns := v; avg_ns := of_Z v;
       stddev_ns := S754_zero false |}.
Proof.
  intros Hn Hn53 Hv Hsum.
  assert (Hv53 : v < 2 ^ 53) by nia.
  assert (Hne : replicate n v <> []) by (destruct n; [lia | done]).
  assert (Hall : forall x, x ∈ replicate n v -> x = v)
    by (intros x Hx; by apply elem_of_replicate in Hx as [-> _]).
  assert (Hmin : min_element (replicate n v) = v)
    by exact (Hall _ (min_element_in _ Hne)).
  assert (Hmax : max_element (replicate n v) = v)
    by exact (Hall _ (max_element_in _ Hne)).
  assert (Havg : ddiv (of_Z (sum_u64 (replicate n v)))
                      (of_Z (Z.of_nat (length (replicate n v))))
                 = of_Z v).
  { rewrite sum_u64_mod, fold_add_replicate, length_replicate.
    rewrite to_uint64_id
      by (unfold UINT64_MAX; change (2 ^ 53) with 9007199254740992 in Hsum;
          nia).
    destruct (Z.eq_dec v 0) as [->|Hv0].
    - rewrite Z.mul_0_r.
      destruct (of_Z_exact (Z.of_nat n) ltac:(lia)) as (m & e & -> & _).
      reflexivity.
    - apply ddiv_exact; lia. }
  unfold calculate_stats.
  destruct (replicate n v) as [|x l] eqn:Hl; [done|].
  rewrite Havg, Hmin, Hmax. f_equal.
  rewrite <- Hl, sum_sq_dev_constant by lia.
  rewrite length_replicate.
  destruct (of_Z_exact (Z.of_nat n) ltac:(lia)) as (m & e & -> & _).
  reflexivity.
Qed.

Lemma calculate_stats_constant_samples_witness :
  calculate_stats [42000; 42000; 42000]
  = {| min_ns := 42000; max_ns := 42000; avg_ns := of_Z 42000;
       stddev_ns := S754_zero false |}.
Proof.
  apply (calculate_stats_constant_samples 3 42000);
    [lia | vm_compute; congruence | lia | vm_compute; congruence].
Defined.

(** X23: whatever the clock and the wait do, the vector that
    [run_periodic_task] hands to [display_results] is not empty: the
    "no data" error branch is never taken in [main], the statistics are
    those of 1000 samples, and the histogram with its 15 bins is either
    the "all identical" line or the bars, never the "no data" line. *)
Theorem display_results_after_run {World : Type}
  (clock_gettime : World -> timespec * World)
  (clock_nanosleep : timespec -> World -> World) (w : World) :
  exists (h : histogram_output) (remarks : quality * recommendation),
    display_results (run_periodic_task clock_gettime clock_nanosleep w).1
    = Some (calculate_stats
              (run_periodic_task clock_gettime clock_nanosleep w).1, h)
    /\ h <> NoData
    /\ (forall bin_width bins,
          h = Bars bin_width bins -> length bins = 15%nat /\ 1 <= bin_width)
    /\ display_remarks
         (run_periodic_task clock_gettime clock_nanosleep w).1
       = Some remarks.
Proof.
  pose proof (periodic_loop_length clock_gettime clock_nanosleep
                (Z.to_nat NUM_ITERATIONS) (clock_gettime w).1 []
                (clock_gettime w).2) as Hlen.
  pose proof (periodic_loop_uint64 clock_gettime clock_nanosleep
                (Z.to_nat NUM_ITERATIONS) (clock_gettime w).1 []
                (clock_gettime w).2 ltac:(constructor)) as Hall.
  assert (Hrun : run_periodic_task clock_gettime clock_nanosleep w
                 = periodic_loop clock_gettime clock_nanosleep
                     (Z.to_nat NUM_ITERATIONS) (clock_gettime w).1 []
                     (clock_gettime w).2)
    by (unfold run_periodic_task; by destruct (clock_gettime w)).
  rewrite <- Hrun in Hlen, Hall.
  destruct (run_periodic_task clock_gettime clock_nanosleep w).1
    as [|z l] eqn:Hl; [discriminate|].
  unfold display_results, display_remarks, print_histogram.
  assert (Hne : z :: l <> []) by done.
  pose proof (min_element_in _ Hne) as Hmin_in.
  pose proof (max_element_in _ Hne) as Hmax_in.
  pose proof (min_element_le _ _ Hmax_in) as Hle.
  rewrite Forall_forall in Hall.
  pose proof (Hall _ Hmin_in) as Hmin. pose proof (Hall _ Hmax_in) as Hmax.
  destruct (Z.eqb_spec (min_element (z :: l)) (max_element (z :: l)))
    as [Heq|Hneq].
  - eexists _, _. cbn [mbind option_bind]. split; [reflexivity|].
    split; [done|]. split; [intros bw bins [=] | reflexivity].
  - cbn [Z.leb Z.compare]. eexists _, _. cbn [mbind option_bind].
    split; [reflexivity|]. split; [done|]. split; [|reflexivity].
    intros bw bins [= <- <-]. split.
    + apply (count_bins_sum (z :: l)); [vm_compute; split; congruence|].
      rewrite Hlen. vm_compute. congruence.
    + rewrite bin_width_of_max;
        [lia | done | done | done | vm_compute; split; congruence].
Qed.

Section BinRanges.

(** The bin of a sample is the quotient of its offset by the bin width,
    or the last bin when the quotient is larger. *)
Lemma assigned_bin_quotient (latencies : list Z) (num_bins lat : Z) :
  Forall is_uint64 latencies -> lat ∈ latencies ->
  1 <= num_bins <= 2 ^ 30 ->
  1 <= bin_width_of (min_element latencies) (max_element latencies) num_bins
  /\ min_element latencies <= lat
  /\ assigned_bin latencies num_bins lat
     = Z.min ((lat - min_element latencies)
              / bin_width_of (min_element latencies)
                             (max_element latencies) num_bins)
             (num_bins - 1).
Proof.
  intros Hall Hin HN.
  assert (Hne : latencies <> []) by (intros ->; by apply elem_of_nil in Hin).
  pose proof (min_element_le _ _ Hin) as Hlo.
  pose proof (max_element_ge _ _ Hin) as Hhi.
  pose proof (min_element_in _ Hne) as Hmin_in.
  pose proof (max_element_in _ Hne) as Hmax_in.
  pose proof Hall as Hall'. rewrite Forall_forall in Hall'.
  rewrite assigned_bin_is_clamp by assumption.
  rewrite bin_width_of_max;
    [| by apply Hall' | by apply Hall' | lia
     | change (2 ^ 30) with 1073741824 in HN; unfold INT_MAX; lia].
  unfold spec_bin, clamp. cbv zeta.
  set (w := Z.max 1 ((max_element latencies - min_element latencies)
                     / num_bins)).
  assert (Hw : 1 <= w) by lia.
  split; [exact Hw|]. split; [exact Hlo|].
  assert (0 <= (lat - min_element latencies) / w)
    by (apply Z.div_pos; lia).
  lia.
Qed.

End BinRanges.

(** X24: the bins of the histogram are consecutive ranges of nanoseconds.
    For up to [2^30] bins of width [w], a sample is counted in the bin
    [i] before the last exactly when it lies in
    [min + i * w, min + (i + 1) * w), and in the last bin exactly when it
    is at least [min + (num_bins - 1) * w]: the last bin also takes the
    samples beyond its printed end.  So a larger sample is never counted
    in a lower bin. *)
Theorem print_histogram_bins_are_ranges (latencies : list Z)
  (num_bins lat : Z) :
  Forall is_uint64 latencies -> lat ∈ latencies ->
  1 <= num_bins <= 2 ^ 30 ->
  (forall i, 0 <= i < num_bins - 1 ->
     (assigned_bin latencies num_bins lat = i
      <-> min_element latencies
          + i * bin_width_of (min_element latencies)
                             (max_element latencies) num_bins
          <= lat
          < min_element latencies
            + (i + 1) * bin_width_of (min_element latencies)
                                     (max_element latencies) num_bins))
  /\ (assigned_bin latencies num_bins lat = num_bins - 1
      <-> min_element latencies
          + (num_bins - 1) * bin_width_of (min_element latencies)
                                          (max_element latencies) num_bins
          <= lat)
  /\ (forall lat', lat' ∈ latencies -> lat <= lat' ->
        assigned_bin latencies num_bins lat
        <= assigned_bin latencies num_bins lat').
Proof.
  intros Hall Hin HN.
  destruct (assigned_bin_quotient latencies num_bins lat Hall Hin HN)
    as (Hw & Hlo & Hbin).
  rewrite Hbin.
  set (w := bin_width_of (min_element latencies) (max_element latencies)
              num_bins) in *.
  set (x := lat - min_element latencies) in *.
  pose proof (Z.div_mod x w ltac:(lia)) as Hdm.
  pose proof (Z.mod_pos_bound x w ltac:(lia)) as Hmb.
  assert (Hq : 0 <= x / w) by (apply Z.div_pos; lia).
  split; [|split].
  - intros i Hi. split.
    + intros Heq. assert (x / w = i) by lia. subst x. nia.
    + intros [H1 H2]. assert (x / w = i); [|lia].
      symmetry. apply (Z.div_unique x w i (x - w * i)); subst x; lia.
  - split.
    + intros Heq. assert (num_bins - 1 <= x / w) by lia. subst x. nia.
    + intros H1. assert (num_bins - 1 <= x / w); [|lia].
      apply Z.div_le_lower_bound; subst x; lia.
  - intros lat' Hin' Hle.
    destruct (assigned_bin_quotient latencies num_bins lat' Hall Hin' HN)
      as (_ & _ & ->). fold w.
    assert (x / w <= (lat' - min_element latencies) / w)
      by (apply Z.div_le_mono; subst x; lia).
    lia.
Qed.

Lemma print_histogram_bins_are_ranges_witness :
  assigned_bin [5000; 9000; 12500; 20000] 4 12500 = 2.
Proof.
  destruct (print_histogram_bins_are_ranges [5000; 9000; 12500; 20000] 4
              12500) as (Hrange & _ & _).
  - repeat constructor; vm_compute; congruence.
  - apply list_elem_of_further, list_elem_of_further, list_elem_of_here.
  - vm_compute. split; congruence.
  - apply (proj2 (Hrange 2 ltac:(lia))). vm_compute. split; congruence.
Defined.
